(** * Serverless agent pattern: the signed, dual-transport invocation bridge

    A shallow embedding of
    - the request envelope, src/lambda/shared.ts (unnamed/part_010);
    - the buffered and the streaming Lambda handler, src/lambda/buffered.ts
      (unnamed/part_011) and src/lambda/streaming.ts;
    - the lazily built Mastra instance, src/lib/index.ts (unnamed/part_007);
    - the client transports, scripts/utils/invoke-api-utils.ts;
    - the configuration and the session of the chat client,
      scripts/interactive-chat.ts (unnamed/part_012);
    - the remote agent proxy of the MCP server (the second file in
      src/cdk/lib/serverless-agent-stack.ts).

    JavaScript strings are modelled by [string], a text being the sequence of
    its UTF-8 bytes. What the code calls but does not define (the credential
    provider, CloudFormation, the request signer, [fetch], the agents, the
    clock) is an environment record whose fields give the settlement of each
    call; the calls that a statement is about are logged in a trace. Console
    output is left out, except that of the interactive chat's banner. *)

From Stdlib Require Import String Ascii List ZArith Lia Bool.
From Stdlib Require Import Strings.Byte.
From Stdlib Require Import Decimal DecimalString DecimalZ DecimalPos.
Import ListNotations.

Open Scope string_scope.

Set Warnings "-register-all".

(* ===================================================================== *)
(** ** JavaScript string helpers                                          *)
(* ===================================================================== *)

Module JS.

(** [!!s] for a string: only the empty string is falsy. *)
Definition truthy (s : string) : bool :=
  match s with EmptyString => false | String _ _ => true end.

(** [!!v] for [string | undefined]. *)
Definition truthy_opt (o : option string) : bool :=
  match o with None => false | Some s => truthy s end.

(** [a || b] where [a : string | undefined] and [b : string]. *)
Definition or_else (a : option string) (b : string) : string :=
  match a with
  | Some s => if truthy s then s else b
  | None => b
  end.

(** [s.startsWith(p)]. *)
Fixpoint startsWith (s p : string) {struct p} : bool :=
  match p with
  | EmptyString => true
  | String a p' =>
      match s with
      | EmptyString => false
      | String b s' => Ascii.eqb b a && startsWith s' p'
      end
  end.

(** [s.slice(n)] for [0 <= n]. *)
Fixpoint slice_from (n : nat) (s : string) : string :=
  match n, s with
  | O, _ => s
  | S _, EmptyString => EmptyString
  | S n', String _ s' => slice_from n' s'
  end.

(** [s.endsWith(p)]. *)
Fixpoint endsWith (s p : string) : bool :=
  String.eqb s p ||
  match s with
  | EmptyString => false
  | String _ s' => endsWith s' p
  end.

(** [s.indexOf(sep)]: the position of the first occurrence, [None] for -1. *)
Fixpoint indexOf (sep s : string) {struct s} : option nat :=
  if startsWith s sep then Some O
  else match s with
       | EmptyString => None
       | String _ s' => option_map S (indexOf sep s')
       end.

(** [s.includes(sep)]. *)
Definition includes (s sep : string) : bool :=
  match indexOf sep s with Some _ => true | None => false end.

(** [arr.includes(x)] on an array of strings. *)
Fixpoint array_includes (arr : list string) (x : string) : bool :=
  match arr with
  | [] => false
  | y :: arr' => String.eqb y x || array_includes arr' x
  end.

(** The white space of [trim] and of [\s]. A string holds the UTF-8 bytes
    of its text. The white space that is one byte long: TAB, LF, VT, FF, CR
    and the space. *)
Definition is_space (c : ascii) : bool :=
  let n := nat_of_ascii c in
  ((9 <=? n) && (n <=? 13))%nat || (n =? 32)%nat.

(** The white space that is two bytes long: U+00A0 (C2 A0). *)
Definition space2 (c1 c2 : ascii) : bool :=
  ((nat_of_ascii c1 =? 194) && (nat_of_ascii c2 =? 160))%nat.

(** The white space that is three bytes long: U+1680 (E1 9A 80),
    U+2000..U+200A (E2 80 80..8A), U+2028, U+2029 and U+202F (E2 80 A8, A9,
    AF), U+205F (E2 81 9F), U+3000 (E3 80 80) and U+FEFF (EF BB BF). *)
Definition space3 (c1 c2 c3 : ascii) : bool :=
  let n1 := nat_of_ascii c1 in
  let n2 := nat_of_ascii c2 in
  let n3 := nat_of_ascii c3 in
  ((n1 =? 225) && (n2 =? 154) && (n3 =? 128)
   || (n1 =? 226) && (n2 =? 128)
      && ((128 <=? n3) && (n3 <=? 138) || (n3 =? 168) || (n3 =? 169) || (n3 =? 175))
   || (n1 =? 226) && (n2 =? 129) && (n3 =? 159)
   || (n1 =? 227) && (n2 =? 128) && (n3 =? 128)
   || (n1 =? 239) && (n2 =? 187) && (n3 =? 191))%nat.

(** [!s.trim()]: the string is white space from end to end. *)
Fixpoint blank (s : string) : bool :=
  match s with
  | EmptyString => true
  | String c1 s1 =>
      if is_space c1 then blank s1
      else
        match s1 with
        | EmptyString => false
        | String c2 s2 =>
            if space2 c1 c2 then blank s2
            else
              match s2 with
              | EmptyString => false
              | String c3 s3 => space3 c1 c2 c3 && blank s3
              end
        end
  end.

(** [String(n)] for an integer below 10^21 in size: its decimal digits. *)
Definition string_of_Z (n : Z) : string :=
  NilZero.string_of_int (Z.to_int n).

(** [`${v}`] for [string | undefined]. *)
Definition show_opt (o : option string) : string :=
  match o with Some s => s | None => "undefined" end.

(** [arr.join(sep)]. *)
Fixpoint join (sep : string) (arr : list string) : string :=
  match arr with
  | [] => ""
  | [x] => x
  | x :: arr' => x ++ sep ++ join sep arr'
  end.

End JS.

(* ===================================================================== *)
(** ** src/constants.ts                                                   *)
(* ===================================================================== *)

Module Constants.

Definition CLOUDFORMATION_AGENT := "cloudformationAgent".
Definition CODEPIPELINE_AGENT := "codepipelineAgent".
Definition CLOUDWATCHLOGS_AGENT := "cloudwatchLogsAgent".
Definition LAMBDA_AGENT := "lambdaAgent".
Definition DYNAMODB_AGENT := "dynamodbAgent".
Definition S3_AGENT := "s3Agent".
Definition AWS_AGENT := "awsAgent".
Definition AWS_AGENT_NETWORK := "awsAgentNetwork".

Definition AWS_AGENT_NAMES : list string :=
  [ CLOUDFORMATION_AGENT; CODEPIPELINE_AGENT; CLOUDWATCHLOGS_AGENT;
    LAMBDA_AGENT; DYNAMODB_AGENT; S3_AGENT; AWS_AGENT ].

Definition AWS_AGENT_NAMES_WITH_NETWORK : list string :=
  AWS_AGENT_NAMES ++ [ AWS_AGENT_NETWORK ].

End Constants.

(* ===================================================================== *)
(** ** Thread identity (src/lambda/streaming.ts, line 63)                 *)
(* ===================================================================== *)

Module ThreadId.

(** The separator of the template literal [`${agent}::${threadId}`]. *)
Definition SEP : string := "::".

(** [const namespacedThreadId = `${agent}::${threadId}`]. *)
Definition namespacedThreadId (agent threadId : string) : string :=
  agent ++ SEP ++ threadId.

(** The inverse the specification speaks of: cut a thread id at the first
    occurrence of the separator,
    [i = s.indexOf(sep); (s.slice(0, i), s.slice(i + sep.length))]. *)
Fixpoint splitFirst (sep s : string) {struct s} : option (string * string) :=
  if JS.startsWith s sep then Some ("", JS.slice_from (String.length sep) s)
  else match s with
       | EmptyString => None
       | String c s' =>
           match splitFirst sep s' with
           | Some (a, b) => Some (String c a, b)
           | None => None
           end
       end.

End ThreadId.

(* ===================================================================== *)
(** ** JSON values, [JSON.parse] and [JSON.stringify]                     *)
(* ===================================================================== *)

Module Json.

(** A number is kept as its literal: the envelope schema only looks at the
    type of a value, never at the magnitude of a number. *)
Inductive json : Type :=
| JNull
| JBool (b : bool)
| JNumber (literal : string)
| JString (s : string)
| JArray (elements : list json)
| JObject (members : list (string * json)).

(** A JavaScript value as a schema sees it: [None] is [undefined]. *)
Definition jsval : Type := option json.

(** [obj[key]] on the own properties of a parsed object. *)
Fixpoint get (members : list (string * json)) (key : string) : jsval :=
  match members with
  | [] => None
  | (k, v) :: rest => if String.eqb k key then Some v else get rest key
  end.

(** [obj[key] = v]: a repeated key keeps its place and takes the new value. *)
Fixpoint set (members : list (string * json)) (key : string) (v : json)
  : list (string * json) :=
  match members with
  | [] => [(key, v)]
  | (k, w) :: rest =>
      if String.eqb k key then (k, v) :: rest else (k, w) :: set rest key v
  end.

Definition quote : ascii := ascii_of_nat 34.
Definition backslash : ascii := ascii_of_nat 92.

(** Writes a JSON text with apostrophes in the place of quotation marks. *)
Fixpoint wire (s : string) : string :=
  match s with
  | EmptyString => EmptyString
  | String c s' => String (if Ascii.eqb c "'" then quote else c) (wire s')
  end.

(** *** Reading *)

Definition is_ws (c : ascii) : bool :=
  Ascii.eqb c " " || Ascii.eqb c (ascii_of_nat 9)
  || Ascii.eqb c (ascii_of_nat 10) || Ascii.eqb c (ascii_of_nat 13).

Definition is_digit (c : ascii) : bool :=
  (48 <=? nat_of_ascii c)%nat && (nat_of_ascii c <=? 57)%nat.

Fixpoint skip_ws (s : string) : string :=
  match s with
  | String c s' => if is_ws c then skip_ws s' else s
  | EmptyString => s
  end.

(** The character an escape [\e] stands for; [\u] is read apart. *)
Definition unescape (e : ascii) : option ascii :=
  if Ascii.eqb e quote then Some quote
  else if Ascii.eqb e backslash then Some backslash
  else if Ascii.eqb e "/" then Some "/"%char
  else if Ascii.eqb e "b" then Some (ascii_of_nat 8)
  else if Ascii.eqb e "f" then Some (ascii_of_nat 12)
  else if Ascii.eqb e "n" then Some (ascii_of_nat 10)
  else if Ascii.eqb e "r" then Some (ascii_of_nat 13)
  else if Ascii.eqb e "t" then Some (ascii_of_nat 9)
  else None.

Definition hex_value (c : ascii) : option nat :=
  let n := nat_of_ascii c in
  if is_digit c then Some (n - 48)%nat
  else if (65 <=? n)%nat && (n <=? 70)%nat then Some (n - 55)%nat
  else if (97 <=? n)%nat && (n <=? 102)%nat then Some (n - 87)%nat
  else None.

(** The code unit that the four hexadecimal digits of [\uXXXX] name. *)
Definition code_unit (a b c d : ascii) : option N :=
  match hex_value a, hex_value b, hex_value c, hex_value d with
  | Some x, Some y, Some z, Some u =>
      Some (4096 * N.of_nat x + 256 * N.of_nat y + 16 * N.of_nat z
            + N.of_nat u)%N
  | _, _, _, _ => None
  end.

Definition high_surrogate (u : N) : bool :=
  ((0xD800 <=? u) && (u <=? 0xDBFF))%N.

Definition low_surrogate (u : N) : bool :=
  ((0xDC00 <=? u) && (u <=? 0xDFFF))%N.

(** The UTF-8 bytes of a code point. *)
Definition utf8 (n : N) : string :=
  if (n <? 0x80)%N then String (ascii_of_N n) ""
  else if (n <? 0x800)%N then
    String (ascii_of_N (0xC0 + n / 0x40))
      (String (ascii_of_N (0x80 + n mod 0x40)) "")
  else if (n <? 0x10000)%N then
    String (ascii_of_N (0xE0 + n / 0x1000))
      (String (ascii_of_N (0x80 + (n / 0x40) mod 0x40))
         (String (ascii_of_N (0x80 + n mod 0x40)) ""))
  else
    String (ascii_of_N (0xF0 + n / 0x40000))
      (String (ascii_of_N (0x80 + (n / 0x1000) mod 0x40))
         (String (ascii_of_N (0x80 + (n / 0x40) mod 0x40))
            (String (ascii_of_N (0x80 + n mod 0x40)) ""))).

Definition cons_char (c : ascii) (r : option (string * string))
  : option (string * string) :=
  match r with
  | Some (str, rest) => Some (String c str, rest)
  | None => None
  end.

Definition cons_chars (cs : string) (r : option (string * string))
  : option (string * string) :=
  match r with
  | Some (str, rest) => Some (cs ++ str, rest)
  | None => None
  end.

(** The characters of a string literal after its opening quotation mark.
    An escape [\uXXXX] gives the UTF-8 bytes of its character, two escapes
    that are a surrogate pair those of the one character they name. A
    surrogate on its own has no UTF-8 bytes: a text that holds one is not
    read. *)
Fixpoint parse_chars (s : string) : option (string * string) :=
  match s with
  | EmptyString => None
  | String c s' =>
      if Ascii.eqb c quote then Some ("", s')
      else if Ascii.eqb c backslash then
        match s' with
        | String e s'' =>
            if Ascii.eqb e "u" then
              match s'' with
              | String h1 (String h2 (String h3 (String h4 s4))) =>
                  match code_unit h1 h2 h3 h4 with
                  | Some u =>
                      if high_surrogate u then
                        match s4 with
                        | String b (String e' (String l1 (String l2
                            (String l3 (String l4 s5))))) =>
                            if Ascii.eqb b backslash && Ascii.eqb e' "u" then
                              match code_unit l1 l2 l3 l4 with
                              | Some v =>
                                  if low_surrogate v then
                                    cons_chars
                                      (utf8 (0x10000 + (u - 0xD800) * 0x400
                                             + (v - 0xDC00))%N)
                                      (parse_chars s5)
                                  else None
                              | None => None
                              end
                            else None
                        | _ => None
                        end
                      else if low_surrogate u then None
                      else cons_chars (utf8 u) (parse_chars s4)
                  | None => None
                  end
              | _ => None
              end
            else
              match unescape e with
              | Some ch => cons_char ch (parse_chars s'')
              | None => None
              end
        | EmptyString => None
        end
      else if (nat_of_ascii c <? 32)%nat then None
      else cons_char c (parse_chars s')
  end.

(** The longest run of digits at the head of [s]. *)
Fixpoint take_digits (s : string) : string * string :=
  match s with
  | String c s' =>
      if is_digit c then let (ds, rest) := take_digits s' in (String c ds, rest)
      else ("", s)
  | EmptyString => ("", s)
  end.

(** The literal of a number: an optional minus sign, an integer part
    without leading zero, an optional fraction, an optional exponent. *)
Definition parse_number (s : string) : option (string * string) :=
  let (sign, s1) :=
    match s with
    | String c r => if Ascii.eqb c "-" then ("-", r) else ("", s)
    | EmptyString => ("", s)
    end in
  let (int, s2) := take_digits s1 in
  if String.eqb int "" then None
  else if JS.startsWith int "0" && negb (String.eqb int "0") then None
  else
    let frac : option (string * string) :=
      match s2 with
      | String c r =>
          if Ascii.eqb c "." then
            let (ds, r') := take_digits r in
            if String.eqb ds "" then None else Some ("." ++ ds, r')
          else Some ("", s2)
      | EmptyString => Some ("", s2)
      end in
    match frac with
    | None => None
    | Some (fr, s3) =>
        let exp : option (string * string) :=
          match s3 with
          | String c r =>
              if Ascii.eqb c "e" || Ascii.eqb c "E" then
                let (sg, r1) :=
                  match r with
                  | String d r' =>
                      if Ascii.eqb d "+" || Ascii.eqb d "-"
                      then (String d "", r') else ("", r)
                  | EmptyString => ("", r)
                  end in
                let (ds, r2) := take_digits r1 in
                if String.eqb ds "" then None
                else Some (String c "" ++ sg ++ ds, r2)
              else Some ("", s3)
          | EmptyString => Some ("", s3)
          end in
        match exp with
        | None => None
        | Some (ex, s4) => Some (sign ++ int ++ fr ++ ex, s4)
        end
    end.

Definition literal (word : string) (v : json) (s : string)
  : option (json * string) :=
  if JS.startsWith s word
  then Some (v, JS.slice_from (String.length word) s) else None.

Fixpoint parse_value (fuel : nat) (s : string) {struct fuel}
  : option (json * string) :=
  match fuel with
  | O => None
  | S fuel' =>
      match skip_ws s with
      | EmptyString => None
      | String c r =>
          if Ascii.eqb c "{" then
            match skip_ws r with
            | String d r' =>
                if Ascii.eqb d "}" then Some (JObject [], r')
                else
                  match parse_members fuel' r [] with
                  | Some (ms, rest) => Some (JObject ms, rest)
                  | None => None
                  end
            | EmptyString => None
            end
          else if Ascii.eqb c "[" then
            match skip_ws r with
            | String d r' =>
                if Ascii.eqb d "]" then Some (JArray [], r')
                else
                  match parse_elements fuel' r [] with
                  | Some (xs, rest) => Some (JArray xs, rest)
                  | None => None
                  end
            | EmptyString => None
            end
          else if Ascii.eqb c quote then
            match parse_chars r with
            | Some (str, rest) => Some (JString str, rest)
            | None => None
            end
          else if Ascii.eqb c "t" then literal "true" (JBool true) (String c r)
          else if Ascii.eqb c "f" then literal "false" (JBool false) (String c r)
          else if Ascii.eqb c "n" then literal "null" JNull (String c r)
          else
            match parse_number (String c r) with
            | Some (lit, rest) => Some (JNumber lit, rest)
            | None => None
            end
      end
  end
with parse_elements (fuel : nat) (s : string) (acc : list json) {struct fuel}
  : option (list json * string) :=
  match fuel with
  | O => None
  | S fuel' =>
      match parse_value fuel' s with
      | Some (v, rest) =>
          match skip_ws rest with
          | String c r =>
              if Ascii.eqb c "," then parse_elements fuel' r (acc ++ [v])%list
              else if Ascii.eqb c "]" then Some ((acc ++ [v])%list, r)
              else None
          | EmptyString => None
          end
      | None => None
      end
  end
with parse_members (fuel : nat) (s : string) (acc : list (string * json))
       {struct fuel} : option (list (string * json) * string) :=
  match fuel with
  | O => None
  | S fuel' =>
      match skip_ws s with
      | String q r =>
          if Ascii.eqb q quote then
            match parse_chars r with
            | Some (key, rest) =>
                match skip_ws rest with
                | String c r1 =>
                    if Ascii.eqb c ":" then
                      match parse_value fuel' r1 with
                      | Some (v, rest') =>
                          match skip_ws rest' with
                          | String d r2 =>
                              if Ascii.eqb d ","
                              then parse_members fuel' r2 (set acc key v)
                              else if Ascii.eqb d "}"
                              then Some (set acc key v, r2)
                              else None
                          | EmptyString => None
                          end
                      | None => None
                      end
                    else None
                | EmptyString => None
                end
            | None => None
            end
          else None
      | EmptyString => None
      end
  end.

(** [JSON.parse(text)]; [None] stands for the [SyntaxError] it throws. This
    reader runs the handlers on the text of a request; the general
    statements below take [JSON.parse] as a parameter instead. *)
Definition JSON_parse (text : string) : option json :=
  match parse_value (2 * String.length text + 2) text with
  | Some (v, rest) =>
      match skip_ws rest with
      | EmptyString => Some v
      | String _ _ => None
      end
  | None => None
  end.

(** *** Writing *)

Definition hex_digit (n : nat) : ascii :=
  if (n <? 10)%nat then ascii_of_nat (48 + n) else ascii_of_nat (87 + n).

Definition escape_char (c : ascii) : string :=
  let n := nat_of_ascii c in
  if Ascii.eqb c quote then String backslash (String quote "")
  else if Ascii.eqb c backslash then String backslash (String backslash "")
  else if (n =? 8)%nat then String backslash "b"
  else if (n =? 12)%nat then String backslash "f"
  else if (n =? 10)%nat then String backslash "n"
  else if (n =? 13)%nat then String backslash "r"
  else if (n =? 9)%nat then String backslash "t"
  else if (n <? 32)%nat then
    String backslash
      ("u00" ++ String (hex_digit (n / 16)) (String (hex_digit (n mod 16)) ""))
  else String c "".

Fixpoint escape (s : string) : string :=
  match s with
  | EmptyString => EmptyString
  | String c s' => escape_char c ++ escape s'
  end.

Definition quoted (s : string) : string :=
  String quote (escape s ++ String quote "").

(** [JSON.stringify(v)] without indentation. *)
Fixpoint JSON_stringify (v : json) : string :=
  match v with
  | JNull => "null"
  | JBool true => "true"
  | JBool false => "false"
  | JNumber lit => lit
  | JString s => quoted s
  | JArray xs => "[" ++ JS.join "," (List.map JSON_stringify xs) ++ "]"
  | JObject ms =>
      "{" ++ JS.join ","
               (List.map (fun kv => quoted (fst kv) ++ ":" ++ JSON_stringify (snd kv)) ms)
          ++ "}"
  end.

End Json.

(* ===================================================================== *)
(** ** Effects: exceptions, [process.exit] and a store                    *)
(* ===================================================================== *)

Module Eff.

(** What a [catch] block keeps of a thrown value:
    [error instanceof Error ? error.message : String(error)]. *)
Definition exn : Type := string.

(** The settlement of an awaited call: rejected or fulfilled. *)
Definition Result (A : Type) : Type := (exn + A)%type.

Inductive Outcome (A : Type) : Type :=
| Ok (a : A)
| Throw (e : exn)
| Exit (code : Z).
Arguments Ok {A} a.
Arguments Throw {A} e.
Arguments Exit {A} code.

(** A computation over a store [S]. *)
Definition M (S A : Type) : Type := S -> Outcome A * S.

Definition ret {S A} (a : A) : M S A := fun s => (Ok a, s).

Definition bind {S A B} (m : M S A) (k : A -> M S B) : M S B :=
  fun s =>
    match m s with
    | (Ok a, s') => k a s'
    | (Throw e, s') => (Throw e, s')
    | (Exit c, s') => (Exit c, s')
    end.

Definition throw {S A} (e : exn) : M S A := fun s => (Throw e, s).

(** [process.exit(code)]: no [catch] block sees it. *)
Definition exit {S A} (code : Z) : M S A := fun s => (Exit code, s).

(** [await] of a call whose settlement the environment fixes. *)
Definition settle {S A} (r : Result A) : M S A :=
  match r with
  | inl e => throw e
  | inr a => ret a
  end.

(** [try { body } catch (error) { handler }]. *)
Definition try_catch {S A} (body : M S A) (handler : exn -> M S A) : M S A :=
  fun s =>
    match body s with
    | (Throw e, s') => handler e s'
    | r => r
    end.

Definition modify {S} (f : S -> S) : M S unit := fun s => (Ok tt, f s).

Declare Scope eff_scope.
Delimit Scope eff_scope with eff.
Notation "x <- m ;; k" := (bind m (fun x => k))
  (at level 61, m at next level, right associativity) : eff_scope.
Notation "m ;;; k" := (bind m (fun _ => k))
  (at level 61, right associativity) : eff_scope.

End Eff.

(* ===================================================================== *)
(** ** The part of zod that the envelope schema uses                      *)
(* ===================================================================== *)

Module Zod.
Import Json.

Record ZodIssue : Type := { path : list string; message : string }.

(** The return of [_parse]: its status, its value and the issues it added.
    A dirty result keeps its value while the value still has the type of the
    schema; past a transform or a pipe that zod skips there is none. *)
Inductive ParseReturn (A : Type) : Type :=
| Valid (value : A)
| Dirty (value : option A) (issues : list ZodIssue)
| Aborted (issues : list ZodIssue)
| Threw (error : Eff.exn).
Arguments Valid {A} value.
Arguments Dirty {A} value issues.
Arguments Aborted {A} issues.
Arguments Threw {A} error.

Definition Schema (A : Type) : Type := list string -> jsval -> ParseReturn A.

Definition issues_of {A} (r : ParseReturn A) : list ZodIssue :=
  match r with
  | Valid _ => []
  | Dirty _ iss => iss
  | Aborted iss => iss
  | Threw _ => []
  end.

(** [getParsedType]. *)
Definition getParsedType (v : jsval) : string :=
  match v with
  | None => "undefined"
  | Some JNull => "null"
  | Some (JBool _) => "boolean"
  | Some (JNumber _) => "number"
  | Some (JString _) => "string"
  | Some (JArray _) => "array"
  | Some (JObject _) => "object"
  end.

(** [util.joinValues]. *)
Definition joinValues (values : list string) : string :=
  JS.join " | " (List.map (fun v => "'" ++ v ++ "'") values).

(** The default error map on [invalid_type]. *)
Definition invalid_type (p : list string) (expected : string) (v : jsval)
  : ZodIssue :=
  {| path := p;
     message := match v with
                | None => "Required"
                | Some _ => "Expected " ++ expected ++ ", received "
                              ++ getParsedType v
                end |}.

(** The default error map on [invalid_enum_value]. *)
Definition invalid_enum_value (p : list string) (options : list string)
           (received : string) : ZodIssue :=
  {| path := p;
     message := "Invalid enum value. Expected " ++ joinValues options
                  ++ ", received '" ++ received ++ "'" |}.

Definition custom (p : list string) (msg : string) : ZodIssue :=
  {| path := p; message := msg |}.

(** [z.string()]. *)
Definition string_ : Schema string := fun p v =>
  match v with
  | Some (JString s) => Valid s
  | _ => Aborted [invalid_type p "string" v]
  end.

(** [z.enum(values)]. *)
Definition enum (values : list string) : Schema string := fun p v =>
  match v with
  | Some (JString s) =>
      if JS.array_includes values s then Valid s
      else Aborted [invalid_enum_value p values s]
  | _ => Aborted [invalid_type p (joinValues values) v]
  end.

(** [inner.nullable()]. *)
Definition nullable {A} (inner : Schema A) : Schema (option A) := fun p v =>
  match v with
  | Some JNull => Valid None
  | _ =>
      match inner p v with
      | Valid a => Valid (Some a)
      | Dirty a iss => Dirty (option_map Some a) iss
      | Aborted iss => Aborted iss
      | Threw e => Threw e
      end
  end.

(** [inner.optional().default(d)]: the default takes the place of
    [undefined] before the optional wrapper sees the data, so the wrapper
    always hands the data on to [inner]. *)
Definition optional_default {A} (inner : Schema A) (d : json) : Schema A :=
  fun p v =>
    match v with
    | None => inner p (Some d)
    | Some _ => inner p v
    end.

(** [inner.refine(check, { message })]: the check also runs on a dirty
    value; a failure adds a non-fatal issue. *)
Definition refine {A} (inner : Schema A) (check : A -> bool) (msg : string)
  : Schema A := fun p v =>
  match inner p v with
  | Valid a => if check a then Valid a else Dirty (Some a) [custom p msg]
  | Dirty (Some a) iss =>
      if check a then Dirty (Some a) iss
      else Dirty (Some a) (iss ++ [custom p msg])%list
  | r => r
  end.

(** [inner.transform(f)]: [f] runs on a valid value only. *)
Definition transform {A B} (inner : Schema A) (f : A -> Eff.Result B)
  : Schema B := fun p v =>
  match inner p v with
  | Valid a => match f a with inr b => Valid b | inl e => Threw e end
  | Dirty _ iss => Dirty None iss
  | Aborted iss => Aborted iss
  | Threw e => Threw e
  end.

(** [inp.pipe(out)]: [out] runs on a valid value only. *)
Definition pipe {B} (inp : Schema json) (out : Schema B) : Schema B :=
  fun p v =>
    match inp p v with
    | Valid a => out p (Some a)
    | Dirty _ iss => Dirty None iss
    | Aborted iss => Aborted iss
    | Threw e => Threw e
    end.

(** [ParseStatus.mergeObjectSync], one key at a time: every key of the shape
    is parsed, the issues add up in the order of the keys. *)
Definition ap {A B} (rf : ParseReturn (A -> B)) (ra : ParseReturn A)
  : ParseReturn B :=
  match rf, ra with
  | Threw e, _ => Threw e
  | _, Threw e => Threw e
  | Aborted i, r => Aborted (i ++ issues_of r)%list
  | l, Aborted j => Aborted (issues_of l ++ j)%list
  | Dirty f i, Dirty a j =>
      Dirty (match f, a with Some f', Some a' => Some (f' a') | _, _ => None end)
            (i ++ j)%list
  | Dirty f i, Valid a => Dirty (option_map (fun f' => f' a) f) i
  | Valid f, Dirty a j => Dirty (option_map f a) j
  | Valid f, Valid a => Valid (f a)
  end.

(** A result that is not valid carries at least one issue, and nothing was
    thrown. *)
Inductive well_reported {A} : ParseReturn A -> Prop :=
| wr_valid (a : A) : well_reported (Valid a)
| wr_dirty (v : option A) (i : ZodIssue) (iss : list ZodIssue) :
    well_reported (Dirty v (i :: iss))
| wr_aborted (i : ZodIssue) (iss : list ZodIssue) :
    well_reported (Aborted (i :: iss)).

Inductive SafeParseReturn (A : Type) : Type :=
| success (data : A)
| failure (errors : list ZodIssue).
Arguments success {A} data.
Arguments failure {A} errors.

(** [schema.safeParse(data)], from the return of [_parseSync]. *)
Definition safeParse {A} (r : ParseReturn A) : Eff.Result (SafeParseReturn A) :=
  match r with
  | Valid a => inr (success a)
  | Dirty _ [] | Aborted [] => inl "Validation failed but no issues detected."
  | Dirty _ iss | Aborted iss => inr (failure iss)
  | Threw e => inl e
  end.

End Zod.

(* ===================================================================== *)
(** ** src/lambda/shared.ts (unnamed/part_010)                             *)
(* ===================================================================== *)

Module Shared.
Import Json Zod Constants.

Record BodyContent : Type :=
  { query : string; threadId : string; resourceId : string; agent : string }.

(** [BodyContentSchema]: unknown keys are stripped. *)
Definition BodyContentSchema : Schema BodyContent := fun p v =>
  match v with
  | Some (JObject ms) =>
      ap (ap (ap (ap (Valid Build_BodyContent)
                     (string_ (p ++ ["query"])%list (get ms "query")))
                 (string_ (p ++ ["threadId"])%list (get ms "threadId")))
             (string_ (p ++ ["resourceId"])%list (get ms "resourceId")))
         (optional_default (enum AWS_AGENT_NAMES_WITH_NETWORK)
            (JString AWS_AGENT) (p ++ ["agent"])%list (get ms "agent"))
  | _ => Aborted [invalid_type p "object" v]
  end.

Section WithJSON.
(** [JSON.parse]; [None] stands for a thrown [SyntaxError]. *)
Variable JSON_parse : string -> option json.

(** [JSON.parse(body)] where [body] may still be [null], which
    [JSON.parse] reads as the text [null]. *)
Definition parse_body (body : option string) : option json :=
  match body with
  | None => Some JNull
  | Some text => JSON_parse text
  end.

(** [EventBodySchema]. *)
Definition EventBodySchema : Schema BodyContent :=
  pipe
    (transform
       (refine
          (refine (nullable string_)
             (fun body => match body with None => false | Some _ => true end)
             "Missing request body")
          (fun body => match parse_body body with
                       | Some _ => true
                       | None => false
                       end)
          "Invalid JSON in request body")
       (fun body => match parse_body body with
                    | Some v => inr v
                    | None => inl "Unexpected token in JSON"
                    end))
    BodyContentSchema.

End WithJSON.

Definition ValidAgents : list string := AWS_AGENT_NAMES_WITH_NETWORK.

End Shared.

(* ===================================================================== *)
(** ** src/lib/index.ts (unnamed/part_007): the Mastra instance           *)
(* ===================================================================== *)

Module Lib.
Import Eff.

Record Message : Type := { role : string; content : string }.

(** The second argument of [generate] and [stream]. *)
Record Options : Type :=
  { threadId : string;
    resourceId : string;
    maxSteps : Z;
    maxRetries : Z;
    temperature : option Z }.

(** [stream.textStream]: the chunks the async iterator yields, and the error
    it throws after them if the stream fails. *)
Record TextStream : Type :=
  { chunks : list string; thrown : option exn }.

(** An agent (or the agent network), as far as the handlers call it:
    [generate] settles to [response.text], [stream] to [stream.textStream]. *)
Record Agent : Type :=
  { generate : list Message -> Options -> Result string;
    stream : list Message -> Options -> Result TextStream }.

(** [mastra.getAgent(name)] throws, or returns an agent or [undefined]. *)
Record Mastra : Type :=
  { getAgent : string -> Result (option Agent) }.

(** The environment of a Lambda process. *)
Record World : Type :=
  { (** what the promise of the [k]-th call of [initializeMastra] settles to *)
    initializeMastra : nat -> Result Mastra;
    (** [await createAwsAgentNetwork()] *)
    createAwsAgentNetwork : Result Agent }.

(** A promise of [initializeMastra], named by the call that made it. *)
Definition Promise : Type := nat.

(** What the process does that can be seen from outside, in order. *)
Inductive Effect : Type :=
| CallInitializeMastra
| CallGetAgent (name : string)
| CallGenerate (agent : string) (messages : list Message) (options : Options)
| CallStream (agent : string) (messages : list Message) (options : Options)
| CallCreateAwsAgentNetwork
| CallNetworkStream (messages : list Message) (options : Options)
| SetContentType (contentType : string)
| Write (chunk : string)
| End_.

(** The module-level state of src/lib/index.ts with the log of effects. *)
Record State : Type :=
  { mastraInstancePromise : option Promise;
    initializeMastra_calls : nat;
    trace : list Effect }.

Definition initial : State :=
  {| mastraInstancePromise := None; initializeMastra_calls := 0; trace := [] |}.

Definition emit (e : Effect) : M State unit :=
  modify (fun s => {| mastraInstancePromise := mastraInstancePromise s;
                      initializeMastra_calls := initializeMastra_calls s;
                      trace := (trace s ++ [e])%list |}).

(** [getMastraInstance]: synchronous, no [await] between the test and the
    assignment. *)
Definition getMastraInstance : M State Promise := fun s =>
  match mastraInstancePromise s with
  | None =>
      let p : Promise := initializeMastra_calls s in
      (Ok p, {| mastraInstancePromise := Some p;
                initializeMastra_calls := S (initializeMastra_calls s);
                trace := (trace s ++ [CallInitializeMastra])%list |})
  | Some p => (Ok p, s)
  end.

Section InWorld.
Variable w : World.

(** [await promise] for a promise of [initializeMastra]. *)
Definition await (p : Promise) : M State Mastra :=
  settle (initializeMastra w p).

End InWorld.

End Lib.

(* ===================================================================== *)
(** ** src/lambda/buffered.ts (unnamed/part_011)                           *)
(* ===================================================================== *)

Module Buffered.
Import Eff Json Zod Lib.
Local Open Scope eff_scope.

Record APIGatewayProxyEvent : Type := { body : jsval }.

Record APIGatewayProxyResult : Type :=
  { statusCode : Z; body_ : string }.

Record EventData : Type := { data_body : Shared.BodyContent }.

Section Handler.
Variable JSON_parse : string -> option json.
Variable w : World.

(** [EventSchema = z.object({ body: EventBodySchema })]. *)
Definition EventSchema (event : APIGatewayProxyEvent) : ParseReturn EventData :=
  ap (Valid Build_EventData)
     (Shared.EventBodySchema JSON_parse ["body"] (body event)).

Definition handler (event : APIGatewayProxyEvent) : M State APIGatewayProxyResult :=
  validationResult <- settle (safeParse (EventSchema event)) ;;
  match validationResult with
  | failure errors =>
      let errorMessages := List.map (fun e => JString (message e)) errors in
      ret {| statusCode := 400;
             body_ := JSON_stringify
                        (JObject [("message", JString "Invalid request");
                                  ("errors", JArray errorMessages)]) |}
  | success data =>
      let query := Shared.query (data_body data) in
      let threadId := Shared.threadId (data_body data) in
      let resourceId := Shared.resourceId (data_body data) in
      let agent := Shared.agent (data_body data) in
      try_catch
        (promise <- getMastraInstance ;;
         mastra <- await w promise ;;
         emit (CallGetAgent agent) ;;;
         selectedAgent <- settle (getAgent mastra agent) ;;
         match selectedAgent with
         | None =>
             throw "Cannot read properties of undefined (reading 'generate')"
         | Some selectedAgent =>
             let messages := [{| role := "user"; content := query |}] in
             let options := {| threadId := threadId;
                               resourceId := resourceId;
                               maxSteps := 5;
                               maxRetries := 2;
                               temperature := None |} in
             emit (CallGenerate agent messages options) ;;;
             text <- settle (generate selectedAgent messages options) ;;
             ret {| statusCode := 200;
                    body_ := JSON_stringify
                               (JObject [("message", JString text);
                                         ("agent", JString agent)]) |}
         end)
        (fun error =>
           ret {| statusCode := 500;
                  body_ := JSON_stringify
                             (JObject [("message", JString "Internal Server Error");
                                       ("error", JString error)]) |})
  end.

End Handler.

End Buffered.

(* ===================================================================== *)
(** ** src/lambda/streaming.ts                                            *)
(* ===================================================================== *)

Module Streaming.
Import Eff Json Zod Lib.
Local Open Scope eff_scope.

Record FunctionUrlEvent : Type := { body : jsval }.

Record EventData : Type := { data_body : Shared.BodyContent }.

(** [for await (const chunk of textStream) responseStream.write(chunk)]. *)
Fixpoint write_all (chunks : list string) : M State unit :=
  match chunks with
  | [] => ret tt
  | chunk :: rest => emit (Write chunk) ;;; write_all rest
  end.

Definition forward (ts : TextStream) : M State unit :=
  write_all (chunks ts) ;;;
  match thrown ts with
  | Some e => throw e
  | None => ret tt
  end.

Section Handler.
Variable JSON_parse : string -> option json.
Variable w : World.

Definition EventSchema (event : FunctionUrlEvent) : ParseReturn EventData :=
  ap (Valid Build_EventData)
     (Shared.EventBodySchema JSON_parse ["body"] (body event)).

Definition handler (event : FunctionUrlEvent) : M State unit :=
  validationResult <- settle (safeParse (EventSchema event)) ;;
  match validationResult with
  | failure errors =>
      let errorMessages := List.map (fun e => JString (message e)) errors in
      let error := JObject [("message", JString "Invalid request");
                            ("errors", JArray errorMessages)] in
      let errorResponse := JSON_stringify error in
      emit (Write errorResponse) ;;;
      emit End_
  | success data =>
      let query := Shared.query (data_body data) in
      let threadId := Shared.threadId (data_body data) in
      let resourceId := Shared.resourceId (data_body data) in
      let agent := Shared.agent (data_body data) in
      let namespacedThreadId := ThreadId.namespacedThreadId agent threadId in
      let messages := [{| role := "user"; content := query |}] in
      let options := {| threadId := namespacedThreadId;
                        resourceId := resourceId;
                        maxSteps := 10;
                        maxRetries := 2;
                        temperature := Some 0%Z |} in
      try_catch
        (emit (SetContentType "text/plain") ;;;
         (if String.eqb agent "awsAgentNetwork" then
            emit CallCreateAwsAgentNetwork ;;;
            network <- settle (createAwsAgentNetwork w) ;;
            emit (CallNetworkStream messages options) ;;;
            textStream <- settle (stream network messages options) ;;
            forward textStream
          else
            promise <- getMastraInstance ;;
            mastra <- await w promise ;;
            emit (CallGetAgent agent) ;;;
            selectedAgent <- settle (getAgent mastra agent) ;;
            match selectedAgent with
            | None =>
                let errorResponse :=
                  JSON_stringify
                    (JObject
                       [("message",
                         JString ("Agent " ++ String quote "" ++ agent
                                    ++ String quote ""
                                    ++ " not found. Valid agents are: "
                                    ++ JS.join ", " Constants.AWS_AGENT_NAMES
                                    ++ "."))]) in
                emit (Write errorResponse)
            | Some selectedAgent =>
                emit (CallStream agent messages options) ;;;
                textStream <- settle (stream selectedAgent messages options) ;;
                forward textStream
            end) ;;;
         emit End_)
        (fun error =>
           let errorResponse :=
             JSON_stringify
               (JObject [("message", JString "Internal Server Error");
                         ("error", JString error)]) in
           emit (Write errorResponse) ;;;
           emit End_)
  end.

End Handler.

End Streaming.

(* ===================================================================== *)
(** ** scripts/utils/invoke-api-utils.ts                                  *)
(* ===================================================================== *)

Module InvokeApiUtils.
Import Eff Json.
Local Open Scope eff_scope.

Record Credentials : Type :=
  { accessKeyId : string; secretAccessKey : string; sessionToken : option string }.

(** The part of a [DescribeStacks] response that the lookups read. *)
Record Output : Type :=
  { OutputKey : option string; OutputValue : option string }.
Record Stack : Type := { Outputs : option (list Output) }.
Record DescribeStacksOutput : Type := { Stacks : option (list Stack) }.

Record URL : Type := { hostname : string; pathname : string; protocol : string }.

Record HttpRequest : Type :=
  { method : string;
    req_hostname : string;
    path : string;
    req_protocol : string;
    headers : list (string * string);
    req_body : string }.

(** What [reader.read()] settles to while the stream has not ended:
    [{ done: false, value }] or a rejection. The end of the list of reads is
    [{ done: true }]. *)
Inductive ReadStep : Type :=
| ReadValue (value : option (list byte))
| ReadThrow (e : exn).

(** A [fetch] response. *)
Record Response : Type :=
  { status : Z;
    (** [await response.json()] *)
    json_ : Result json;
    (** [await response.text()] *)
    text : Result string;
    (** [response.body]: [null], or the reads of its reader *)
    body : option (list ReadStep) }.

(** [response.ok]. *)
Definition ok (r : Response) : bool :=
  (200 <=? status r)%Z && (status r <=? 299)%Z.

(** The environment of the client process. *)
Record Env : Type :=
  { (** [await fromNodeProviderChain({ profile })()] *)
    credentialProvider : option string -> Result (option Credentials);
    (** [await cfnClient.send(new DescribeStacksCommand({ StackName }))] *)
    describeStacks : string -> Credentials -> string -> Result DescribeStacksOutput;
    (** [new URL(endpoint)] *)
    newURL : string -> Result URL;
    (** [await signer.sign(request)] for a region and a service *)
    sign : Credentials -> string -> string -> HttpRequest -> Result HttpRequest;
    (** [await fetch(url, init)] *)
    fetch : string -> HttpRequest -> Result Response;
    (** [Date.now()] *)
    Date_now : Z }.

Inductive Effect : Type :=
| CallGetApiEndpoint (stackName region : string) (profile : option string)
| CallGetFunctionUrl (stackName region : string) (profile : option string)
| CallGetCfnOutput (stackName outputKey region : string)
| CallDescribeStacks (stackName region : string)
| CallFetch (url : string) (request : HttpRequest)
| CallOnChunk (chunk : string)
| StdoutWrite (text : string)
| ConsoleLog (line : string).

Definition Trace : Type := list Effect.

Definition emit (e : Effect) : M Trace unit :=
  modify (fun t => (t ++ [e])%list).

Record InvokeParams : Type :=
  { endpoint : string;
    region : string;
    profile : option string;
    ip_method : option string;
    ip_body : string }.

Record StreamingInvokeParams : Type :=
  { functionUrl : string;
    sp_region : string;
    sp_profile : option string;
    sp_body : string;
    onChunk : string -> M Trace unit }.

(** [response.Stacks?.[0]?.Outputs?.find((o) => o.OutputKey === key)
      ?.OutputValue]. *)
Definition findOutput (response : DescribeStacksOutput) (key : string)
  : option string :=
  match Stacks response with
  | Some (stack :: _) =>
      match Outputs stack with
      | Some outputs =>
          match List.find (fun o => match OutputKey o with
                                    | Some k => String.eqb k key
                                    | None => false
                                    end) outputs with
          | Some o => OutputValue o
          | None => None
          end
      | None => None
      end
  | _ => None
  end.

Section InEnv.
Variable env : Env.

(** The body shared by [getApiEndpoint] and [getFunctionUrl]: the whole of
    it runs inside [try], so the lookups never reject. A provider that
    yields no credentials makes the client constructor's first use throw,
    inside the same [try]. *)
Definition lookupOutput (key stackName region : string)
           (profile : option string) : M Trace (option string) :=
  try_catch
    (credentials <- settle (credentialProvider env profile) ;;
     match credentials with
     | None => throw "Credential is missing"
     | Some credentials =>
         emit (CallDescribeStacks stackName region) ;;;
         response <- settle (describeStacks env region credentials stackName) ;;
         ret (findOutput response key)
     end)
    (fun _ => ret None).

Definition getApiEndpoint (stackName region : string) (profile : option string)
  : M Trace (option string) :=
  emit (CallGetApiEndpoint stackName region profile) ;;;
  lookupOutput "ApiEndpoint" stackName region profile.

Definition getFunctionUrl (stackName region : string) (profile : option string)
  : M Trace (option string) :=
  emit (CallGetFunctionUrl stackName region profile) ;;;
  lookupOutput "StreamingFunctionUrlEndpoint" stackName region profile.

Definition prepare (url : URL) (meth body : string)
  : HttpRequest :=
  {| method := meth;
     req_hostname := hostname url;
     path := pathname url;
     req_protocol := protocol url;
     headers := [("Content-Type", "application/json"); ("host", hostname url)];
     req_body := body |}.

Definition invokeSignedApiRequest (params : InvokeParams) : M Trace json :=
  let meth := match ip_method params with Some m => m | None => "POST" end in
  credentials <- settle (credentialProvider env (profile params)) ;;
  url <- settle (newURL env (endpoint params)) ;;
  let request := prepare url meth (ip_body params) in
  match credentials with
  | None => throw "Credential is missing"  (* thrown by the signer *)
  | Some credentials =>
      signedRequest <-
        settle (sign env credentials (region params) "execute-api" request) ;;
      emit (CallFetch (endpoint params) signedRequest) ;;;
      response <- settle (fetch env (endpoint params) signedRequest) ;;
      responseBody <- settle (json_ response) ;;
      if negb (ok response) then
        throw ("Request failed with status " ++ JS.string_of_Z (status response))
      else ret responseBody
  end.

Section WithDecoder.
(** [new TextDecoder()] and [decoder.decode(value, { stream: true })]:
    the decoder keeps the bytes of an unfinished character from one call
    to the next. *)
Variable Decoder : Type.
Variable new_TextDecoder : Decoder.
Variable decode : Decoder -> list byte -> Decoder * string.

(** The [while (true)] loop over [reader.read()]. *)
Fixpoint read_loop (reads : list ReadStep) (decoder : Decoder)
         (onChunk : string -> M Trace unit) : M Trace unit :=
  match reads with
  | [] => ret tt
  | ReadThrow e :: _ => throw e
  | ReadValue None :: rest => read_loop rest decoder onChunk
  | ReadValue (Some value) :: rest =>
      let (decoder', text) := decode decoder value in
      emit (CallOnChunk text) ;;;
      onChunk text ;;;
      read_loop rest decoder' onChunk
  end.

(** The texts that the decoder gives for the values read, one after the
    other, a read without value giving none. *)
Fixpoint decode_all (decoder : Decoder) (values : list (option (list byte)))
  : list string :=
  match values with
  | [] => []
  | None :: rest => decode_all decoder rest
  | Some value :: rest =>
      let (decoder', text) := decode decoder value in
      text :: decode_all decoder' rest
  end.

Definition invokeStreamingRequest (params : StreamingInvokeParams)
  : M Trace unit :=
  credentials <- settle (credentialProvider env (sp_profile params)) ;;
  match credentials with
  | None =>
      throw ("Failed to load credentials for profile: "
               ++ JS.show_opt (sp_profile params))
  | Some credentials =>
      url <- settle (newURL env (functionUrl params)) ;;
      let request := prepare url "POST" (sp_body params) in
      signedRequest <-
        settle (sign env credentials (sp_region params) "lambda" request) ;;
      emit (CallFetch (functionUrl params) signedRequest) ;;;
      response <- settle (fetch env (functionUrl params) signedRequest) ;;
      if negb (ok response) then
        errorText <- settle (text response) ;;
        throw ("Streaming request failed with status "
                 ++ JS.string_of_Z (status response))
      else
        match body response with
        | None => throw "No response body received from the streaming request"
        | Some reads => read_loop reads new_TextDecoder (onChunk params)
        end
  end.

End WithDecoder.

End InEnv.

End InvokeApiUtils.

(* ===================================================================== *)
(** ** scripts/interactive-chat.ts (unnamed/part_012)                      *)
(* ===================================================================== *)

Module InteractiveChat.
Import Eff Json InvokeApiUtils.
Local Open Scope eff_scope.

(** ANSI colour codes. *)
Module colors.
Definition ESC : string := String (ascii_of_nat 27) "".
Definition reset := ESC ++ "[0m".
Definition cyan := ESC ++ "[36m".
Definition yellow := ESC ++ "[33m".
Definition brightYellow := ESC ++ "[93m".
Definition brightWhite := ESC ++ "[97m".
Definition bold := ESC ++ "[1m".
Definition dim := ESC ++ "[2m".
Definition red := ESC ++ "[31m".
Definition green := ESC ++ "[32m".
Definition blue := ESC ++ "[34m".
Definition magenta := ESC ++ "[35m".
Definition brightBlack := ESC ++ "[90m".
Definition brightRed := ESC ++ "[91m".
Definition brightGreen := ESC ++ "[92m".
Definition brightMagenta := ESC ++ "[95m".
Definition italic := ESC ++ "[3m".
End colors.

Definition NL : string := String (ascii_of_nat 10) "".

(** The options that yargs hands to the script, defaults applied. *)
Record Argv : Type :=
  { endpoint : option string;
    region : string;
    profile : string;
    sessionId : option string;
    stackName : string;
    agent : string;
    streaming : bool;
    debug : bool;
    query : option string }.

Record AppConfig : Type :=
  { cfg_region : string;
    cfg_profile : option string;
    cfg_stackName : string;
    initialAgent : string;
    initialUseStreaming : bool;
    cfg_debug : bool;
    singleQuery : option string;
    cfg_sessionId : string;
    apiGatewayEndpoint : option string;
    lambdaFunctionUrl : option string }.

Record ChatState : Type :=
  { currentAgent : string; useStreaming : bool }.

Section InEnv.
Variable env : Env.

(** [argv.sessionId || `chat-${Date.now()}`]. *)
Definition resolveSessionId (supplied : option string) : string :=
  JS.or_else supplied ("chat-" ++ JS.string_of_Z (Date_now env)).

(** [loadAndValidateConfig], without its diagnostic console output. *)
Definition loadAndValidateConfig (argv : Argv) : M Trace AppConfig :=
  let sessionId := resolveSessionId (sessionId argv) in
  (* Fetch Function URL *)
  lambdaFunctionUrl <-
    try_catch
      (getFunctionUrl env (stackName argv) (region argv) (Some (profile argv)))
      (fun _ => ret None) ;;
  (* Validate and potentially disable streaming *)
  let initialUseStreaming :=
    if streaming argv && negb (JS.truthy_opt lambdaFunctionUrl)
    then false else streaming argv in
  (* Fetch API Gateway endpoint if needed *)
  apiGatewayEndpoint <-
    (if negb (JS.truthy_opt (endpoint argv)) && negb initialUseStreaming then
       try_catch
         (found <- getApiEndpoint env (stackName argv) (region argv)
                     (Some (profile argv)) ;;
          if JS.truthy_opt found then ret found
          else throw "API Gateway endpoint not found in stack outputs.")
         (fun _ => exit 1)
     else ret (endpoint argv)) ;;
  (* Final check: need either a streaming setup or an API Gateway endpoint *)
  if negb (JS.truthy_opt lambdaFunctionUrl)
     && negb (JS.truthy_opt apiGatewayEndpoint)
  then exit 1
  else
    ret {| cfg_region := region argv;
           cfg_profile := Some (profile argv);
           cfg_stackName := stackName argv;
           initialAgent := agent argv;
           initialUseStreaming := initialUseStreaming;
           cfg_debug := debug argv;
           singleQuery := query argv;
           cfg_sessionId := sessionId;
           apiGatewayEndpoint := apiGatewayEndpoint;
           lambdaFunctionUrl := lambdaFunctionUrl |}.

End InEnv.

(** The request body of [invokeAgent] and [executeSingleQuery]. *)
Definition requestBody (query agent : string) (config : AppConfig) : string :=
  JSON_stringify
    (JObject [("query", JString query);
              ("threadId", JString ("thread-" ++ cfg_sessionId config));
              ("resourceId", JString ("resource-" ++ cfg_sessionId config));
              ("agent", JString agent)]).

Definition log (line : string) : M Trace unit := emit (ConsoleLog line).

Definition showSessionInfo (state : ChatState) (config : AppConfig)
  : M Trace unit :=
  log (NL ++ colors.brightYellow ++ "Session Information:" ++ colors.reset) ;;;
  log (colors.yellow ++ "Session ID: " ++ colors.brightWhite
         ++ cfg_sessionId config ++ colors.reset) ;;;
  log (colors.yellow ++ "Current Agent: " ++ colors.brightWhite
         ++ currentAgent state ++ colors.reset) ;;;
  log (colors.yellow ++ "Streaming Mode: " ++ colors.brightWhite
         ++ (if useStreaming state then "Enabled" else "Disabled")
         ++ colors.reset) ;;;
  (if useStreaming state then
     log (colors.yellow ++ "  Streaming Function URL: " ++ colors.brightWhite
            ++ JS.show_opt (lambdaFunctionUrl config) ++ colors.reset)
   else
     match apiGatewayEndpoint config with
     | Some e =>
         if JS.truthy e then
           log (colors.yellow ++ "  API Endpoint: " ++ colors.brightWhite
                  ++ e ++ colors.reset)
         else ret tt
     | None => ret tt
     end) ;;;
  log (colors.yellow ++ "Region: " ++ colors.brightWhite
         ++ cfg_region config ++ colors.reset) ;;;
  log (colors.yellow ++ "Profile: " ++ colors.brightWhite
         ++ match cfg_profile config with Some p => p | None => "(default)" end
         ++ colors.reset) ;;;
  log (colors.cyan ++ "---" ++ colors.reset).

(** [startInteractiveChat] up to the creation of the readline interface:
    the banner, the session information and the hint on how to resume. It
    returns the initial chat state of the read loop. *)
Definition startInteractiveChat (config : AppConfig) : M Trace ChatState :=
  log (colors.bold ++ colors.cyan ++ "--- Starting Interactive Chat ---"
         ++ colors.reset) ;;;
  let state := {| currentAgent := initialAgent config;
                  useStreaming := initialUseStreaming config |} in
  showSessionInfo state config ;;;
  (if negb (JS.startsWith (cfg_sessionId config) "chat-") then
     log (colors.dim ++ "(Resuming session with ID: " ++ cfg_sessionId config
            ++ ")" ++ colors.reset)
   else
     log (colors.dim ++ "(Use --session-id " ++ cfg_sessionId config
            ++ " to resume later.)" ++ colors.reset)) ;;;
  log (colors.dim ++ "Type /help for available commands." ++ colors.reset) ;;;
  ret state.

End InteractiveChat.

(* ===================================================================== *)
(** ** The MCP server: the remote agent proxy                             *)
(* ===================================================================== *)

Module McpServer.
Import Eff Json InvokeApiUtils.
Local Open Scope eff_scope.

(** The input of the tool after [remoteAgentProxyInputSchema.parse]. *)
Record RemoteAgentProxyInput : Type :=
  { query : string;
    profile : option string;
    agent : string;
    stackName : string;
    region : string;
    sessionId : string;
    lambdaFunctionUrlOverride : option string }.

Record ProxyResult : Type := { output : string; result_sessionId : string }.

(** [sessionId: z.string().default(() => nanoid())]: the default stands in for
    a missing session id, and for nothing else. *)
Definition sessionId_default (supplied : option string) (nanoid : string)
  : string :=
  match supplied with
  | Some s => s
  | None => nanoid
  end.

Section InEnv.
Variable env : Env.

Definition getCfnOutput (stackName outputKey region : string)
           (credentials : option Credentials) : M Trace (option string) :=
  emit (CallGetCfnOutput stackName outputKey region) ;;;
  try_catch
    (match credentials with
     | None => throw "Credential is missing"
     | Some credentials =>
         emit (CallDescribeStacks stackName region) ;;;
         response <- settle (describeStacks env region credentials stackName) ;;
         ret (findOutput response outputKey)
     end)
    (fun message =>
       throw ("Failed to retrieve " ++ outputKey ++ " from CloudFormation stack "
                ++ stackName ++ ": " ++ message)).

Definition signRequest (requestUrl region service body : string)
           (credentials : option Credentials) : M Trace HttpRequest :=
  url <- settle (newURL env requestUrl) ;;
  match credentials with
  | None => throw "Credential is missing"
  | Some credentials =>
      settle (sign env credentials region service (prepare url "POST" body))
  end.

Section WithDecoder.
Variable Decoder : Type.
Variable new_TextDecoder : Decoder.
Variable decode : Decoder -> list byte -> Decoder * string.

(** The loop that appends every decoded chunk to [accumulatedResponse]. *)
Fixpoint accumulate (reads : list ReadStep) (decoder : Decoder)
         (accumulatedResponse : string) : M Trace string :=
  match reads with
  | [] => ret accumulatedResponse
  | ReadThrow e :: _ => throw e
  | ReadValue None :: rest => accumulate rest decoder accumulatedResponse
  | ReadValue (Some value) :: rest =>
      let (decoder', chunk) := decode decoder value in
      accumulate rest decoder' (accumulatedResponse ++ chunk)
  end.

Definition invokeStreamingRequest (functionUrl region body : string)
           (credentials : option Credentials) : M Trace string :=
  signedRequest <- signRequest functionUrl region "lambda" body credentials ;;
  emit (CallFetch functionUrl signedRequest) ;;;
  response <- settle (fetch env functionUrl signedRequest) ;;
  match (if ok response then InvokeApiUtils.body response else None) with
  | None =>
      errorText <- settle (text response) ;;
      throw ("Streaming request failed with status "
               ++ JS.string_of_Z (status response) ++ ": " ++ errorText)
  | Some reads => accumulate reads new_TextDecoder ""
  end.

Definition runRemoteAgentProxy (input : RemoteAgentProxyInput)
  : M Trace ProxyResult :=
  originalCredentials <- settle (credentialProvider env (profile input)) ;;
  try_catch
    (if JS.blank (query input) then
       ret {| output := "Please provide a query to send to the remote agent.";
              result_sessionId := sessionId input |}
     else
       (* Get Lambda Function URL *)
       functionUrl <-
         (if negb (JS.truthy_opt (lambdaFunctionUrlOverride input)) then
            try_catch
              (getCfnOutput (stackName input) "StreamingFunctionUrlEndpoint"
                 (region input) originalCredentials)
              (fun message =>
                 throw ("Failed to get Lambda Function URL: " ++ message))
          else ret (lambdaFunctionUrlOverride input)) ;;
       match functionUrl with
       | Some functionUrl =>
           if JS.truthy functionUrl then
             (* Prepare the request body *)
             let requestBody :=
               JObject [("query", JString (query input));
                        ("agent", JString (agent input));
                        ("threadId", JString (sessionId input));
                        ("resourceId",
                         JString ("remoteProxy-tool-" ++ sessionId input))] in
             let stringifiedBody := JSON_stringify requestBody in
             responseText <-
               invokeStreamingRequest functionUrl (region input) stringifiedBody
                 originalCredentials ;;
             ret {| output := responseText; result_sessionId := sessionId input |}
           else throw "Lambda Function URL not found and not provided in override."
       | None => throw "Lambda Function URL not found and not provided in override."
       end)
    (fun message =>
       ret {| output := "Error invoking remote agent: " ++ message;
              result_sessionId := sessionId input |}).

End WithDecoder.

End InEnv.

End McpServer.

(* ===================================================================== *)
(** ** [TextDecoder]                                                      *)
(* ===================================================================== *)

Module TextDecoder.
Local Open Scope N_scope.

(** [new TextDecoder()] with [decode(value, { stream: true })], after the
    UTF-8 decoder of the Encoding Standard. A string holds the UTF-8 bytes
    of its text, so a character that the decoder gives is written as the
    bytes of its sequence, and U+FFFD as EF BF BD.

    The state between two calls: the bytes seen of the character under way
    and the number of bytes it still needs, the bounds for the next byte,
    and whether a first character has been given (the BOM seen flag). *)
Record t : Type :=
  { pending : list byte;
    needed : nat;
    lower : N;
    upper : N;
    BOM_seen : bool }.

Definition new : t :=
  {| pending := []; needed := 0; lower := 0x80; upper := 0xBF;
     BOM_seen := false |}.

(** No character is under way, and a first character has been given. *)
Definition idle : t :=
  {| pending := []; needed := 0; lower := 0x80; upper := 0xBF;
     BOM_seen := true |}.

(** U+FFFD, which stands for bytes that are no character. *)
Definition REPLACEMENT : list byte := [xef; xbf; xbd].

(** U+FEFF. *)
Definition is_BOM (character : list byte) : bool :=
  match character with
  | [b1; b2; b3] => Byte.eqb b1 xef && Byte.eqb b2 xbb && Byte.eqb b3 xbf
  | _ => false
  end.

(** What goes to the output for a character: everything, but for a U+FEFF
    that is the first character of the stream. *)
Definition put (seen : bool) (character : list byte) : list byte :=
  if seen then character
  else if is_BOM character then [] else character.

(** A byte read while no character is under way. *)
Definition first (seen : bool) (b : byte) : t * list byte :=
  let n := Byte.to_N b in
  if n <=? 0x7F then (idle, put seen [b])
  else if (0xC2 <=? n) && (n <=? 0xDF) then
    ({| pending := [b]; needed := 1; lower := 0x80; upper := 0xBF;
        BOM_seen := seen |}, [])
  else if (0xE0 <=? n) && (n <=? 0xEF) then
    ({| pending := [b]; needed := 2;
        lower := if n =? 0xE0 then 0xA0 else 0x80;
        upper := if n =? 0xED then 0x9F else 0xBF;
        BOM_seen := seen |}, [])
  else if (0xF0 <=? n) && (n <=? 0xF4) then
    ({| pending := [b]; needed := 3;
        lower := if n =? 0xF0 then 0x90 else 0x80;
        upper := if n =? 0xF4 then 0x8F else 0xBF;
        BOM_seen := seen |}, [])
  else (idle, put seen REPLACEMENT).

(** One byte. A byte outside the bounds ends the character under way with
    U+FFFD and is then read again as the first byte of a character. *)
Definition step (d : t) (b : byte) : t * list byte :=
  match needed d with
  | O => first (BOM_seen d) b
  | S k =>
      let n := Byte.to_N b in
      if (lower d <=? n) && (n <=? upper d) then
        match k with
        | O => (idle, put (BOM_seen d) (pending d ++ [b])%list)
        | S _ =>
            ({| pending := (pending d ++ [b])%list; needed := k;
                lower := 0x80; upper := 0xBF; BOM_seen := BOM_seen d |}, [])
        end
      else
        let (d', out) := first true b in
        (d', (put (BOM_seen d) REPLACEMENT ++ out)%list)
  end.

Fixpoint run (d : t) (bytes : list byte) : t * list byte :=
  match bytes with
  | [] => (d, [])
  | b :: rest =>
      let (d1, out1) := step d b in
      let (d2, out2) := run d1 rest in
      (d2, (out1 ++ out2)%list)
  end.

(** [decoder.decode(value, { stream: true })]: the end of [value] is not
    the end of the stream, and the bytes of an unfinished character wait
    for the next call. *)
Definition decode (d : t) (value : list byte) : t * string :=
  let (d', out) := run d value in (d', string_of_list_byte out).

(** Well-formed UTF-8, after table 3-7 of the Unicode Standard. *)
Definition continuation (b : byte) : bool :=
  (0x80 <=? Byte.to_N b) && (Byte.to_N b <=? 0xBF).

Fixpoint well_formed (bytes : list byte) : bool :=
  match bytes with
  | [] => true
  | b1 :: r1 =>
      let n1 := Byte.to_N b1 in
      if n1 <=? 0x7F then well_formed r1
      else
        match r1 with
        | [] => false
        | b2 :: r2 =>
            let n2 := Byte.to_N b2 in
            if (0xC2 <=? n1) && (n1 <=? 0xDF) then
              continuation b2 && well_formed r2
            else
              match r2 with
              | [] => false
              | b3 :: r3 =>
                  if ((n1 =? 0xE0) && (0xA0 <=? n2) && (n2 <=? 0xBF)
                      || (0xE1 <=? n1) && (n1 <=? 0xEC) && continuation b2
                      || (n1 =? 0xED) && (0x80 <=? n2) && (n2 <=? 0x9F)
                      || (0xEE <=? n1) && (n1 <=? 0xEF) && continuation b2)
                  then continuation b3 && well_formed r3
                  else
                    match r3 with
                    | [] => false
                    | b4 :: r4 =>
                        ((n1 =? 0xF0) && (0x90 <=? n2) && (n2 <=? 0xBF)
                         || (0xF1 <=? n1) && (n1 <=? 0xF3) && continuation b2
                         || (n1 =? 0xF4) && (0x80 <=? n2) && (n2 <=? 0x8F))
                        && continuation b3 && continuation b4
                        && well_formed r4
                    end
              end
        end
  end.

(** The text without the U+FEFF that it may start with. *)
Definition strip_BOM (bytes : list byte) : list byte :=
  match bytes with
  | b1 :: b2 :: b3 :: rest => if is_BOM [b1; b2; b3] then rest else bytes
  | _ => bytes
  end.

End TextDecoder.

(* ===================================================================== *)
(** ** Observations on traces, and a concrete environment                 *)
(* ===================================================================== *)

Module Observe.

(** The thread id that an effect hands to an agent or to the network. *)
Definition dispatch_threadId (e : Lib.Effect) : option string :=
  match e with
  | Lib.CallGenerate _ _ o
  | Lib.CallStream _ _ o
  | Lib.CallNetworkStream _ o => Some (Lib.threadId o)
  | _ => None
  end.

(** The thread ids that reached an agent or the network, in order. *)
Fixpoint dispatched_threadIds (t : list Lib.Effect) : list string :=
  match t with
  | [] => []
  | e :: t' =>
      match dispatch_threadId e with
      | Some id => id :: dispatched_threadIds t'
      | None => dispatched_threadIds t'
      end
  end.

(** The chunks written to the response stream, in order. *)
Fixpoint written (t : list Lib.Effect) : list string :=
  match t with
  | [] => []
  | Lib.Write c :: t' => c :: written t'
  | _ :: t' => written t'
  end.

(** The number of times the response stream was ended. *)
Fixpoint ends (t : list Lib.Effect) : nat :=
  match t with
  | [] => 0
  | Lib.End_ :: t' => S (ends t')
  | _ :: t' => ends t'
  end.

(** The number of calls of [generate], [stream] and the network's [stream]. *)
Definition dispatches (t : list Lib.Effect) : nat :=
  List.length (dispatched_threadIds t).

(** What [getMastraInstance] adds to the trace in the state [st]: the call
    of [initializeMastra] when no promise is held, nothing otherwise. *)
Definition initialising (st : Lib.State) : list Lib.Effect :=
  match Lib.mastraInstancePromise st with
  | None => [Lib.CallInitializeMastra]
  | Some _ => []
  end.

(** What the promise that [getMastraInstance] returns in the state [st]
    settles to. *)
Definition instance (w : Lib.World) (st : Lib.State) : Eff.Result Lib.Mastra :=
  match Lib.mastraInstancePromise st with
  | None => Lib.initializeMastra w (Lib.initializeMastra_calls st)
  | Some p => Lib.initializeMastra w p
  end.

(** The arguments of the calls of [onChunk], in order. *)
Fixpoint delivered (t : InvokeApiUtils.Trace) : list string :=
  match t with
  | [] => []
  | InvokeApiUtils.CallOnChunk c :: t' => c :: delivered t'
  | _ :: t' => delivered t'
  end.

(** The trace after the transport has called [onChunk] on the chunks, one
    after the other: each call is noted and then made, and leaves the trace
    that the callback leaves. *)
Fixpoint calls (onChunk : string -> Eff.M InvokeApiUtils.Trace unit)
         (chunks : list string) (t : InvokeApiUtils.Trace)
  : InvokeApiUtils.Trace :=
  match chunks with
  | [] => t
  | chunk :: rest =>
      calls onChunk rest
            (snd (onChunk chunk (t ++ [InvokeApiUtils.CallOnChunk chunk])%list))
  end.

(** The bytes of the reads, one read after the other. *)
Fixpoint bytes_read (values : list (option (list byte))) : list byte :=
  match values with
  | [] => []
  | Some value :: rest => (value ++ bytes_read rest)%list
  | None :: rest => bytes_read rest
  end.

(** The number of reads that have a value. *)
Fixpoint reads_with_value (values : list (option (list byte))) : nat :=
  match values with
  | [] => 0
  | Some _ :: rest => S (reads_with_value rest)
  | None :: rest => reads_with_value rest
  end.

(** The text begins with U+FEFF. *)
Definition begins_with_BOM (text : string) : bool :=
  match list_byte_of_string text with
  | b1 :: b2 :: b3 :: _ => TextDecoder.is_BOM [b1; b2; b3]
  | _ => false
  end.

(** The number of calls of [getApiEndpoint]. *)
Fixpoint calls_getApiEndpoint (t : InvokeApiUtils.Trace) : nat :=
  match t with
  | [] => 0
  | InvokeApiUtils.CallGetApiEndpoint _ _ _ :: t' => S (calls_getApiEndpoint t')
  | _ :: t' => calls_getApiEndpoint t'
  end.

(** The number of calls of [getCfnOutput]. *)
Fixpoint calls_getCfnOutput (t : InvokeApiUtils.Trace) : nat :=
  match t with
  | [] => 0
  | InvokeApiUtils.CallGetCfnOutput _ _ _ :: t' => S (calls_getCfnOutput t')
  | _ :: t' => calls_getCfnOutput t'
  end.

(** The number of [DescribeStacks] requests sent. *)
Fixpoint calls_describeStacks (t : InvokeApiUtils.Trace) : nat :=
  match t with
  | [] => 0
  | InvokeApiUtils.CallDescribeStacks _ _ :: t' => S (calls_describeStacks t')
  | _ :: t' => calls_describeStacks t'
  end.

(** The number of calls of [getFunctionUrl]. *)
Fixpoint calls_getFunctionUrl (t : InvokeApiUtils.Trace) : nat :=
  match t with
  | [] => 0
  | InvokeApiUtils.CallGetFunctionUrl _ _ _ :: t' => S (calls_getFunctionUrl t')
  | _ :: t' => calls_getFunctionUrl t'
  end.

(** The configuration that a run of [loadAndValidateConfig] returned. *)
Definition config_of (r : Eff.Outcome InteractiveChat.AppConfig * InvokeApiUtils.Trace)
  : option InteractiveChat.AppConfig :=
  match fst r with
  | Eff.Ok config => Some config
  | _ => None
  end.

(** The characters that need no escaping in a URL (RFC 3986, unreserved). *)
Definition unreserved (c : ascii) : bool :=
  let n := nat_of_ascii c in
  ((48 <=? n) && (n <=? 57) || (65 <=? n) && (n <=? 90)
   || (97 <=? n) && (n <=? 122))%nat
  || Ascii.eqb c "-" || Ascii.eqb c "_" || Ascii.eqb c "." || Ascii.eqb c "~".

Fixpoint url_safe (s : string) : bool :=
  match s with
  | EmptyString => true
  | String c s' => unreserved c && url_safe s'
  end.

End Observe.

(* ===================================================================== *)
(** ** The life of a Lambda process                                       *)
(* ===================================================================== *)

Module Process.
Import Eff Json Lib.

(** A computation moves every state it starts in to a state related to it. *)
Definition steps (R : State -> State -> Prop) {A} (m : M State A) : Prop :=
  forall st, R st (snd (m st)).

(** The promise, once made, is that of the first call of
    [initializeMastra], and there was no other call. *)
Definition initialized_once (st : State) : Prop :=
  match mastraInstancePromise st with
  | None => initializeMastra_calls st = 0
  | Some p => p = 0 /\ initializeMastra_calls st = 1
  end.

(** A step keeps the single initialisation. *)
Definition keeps_once (st st' : State) : Prop :=
  initialized_once st -> initialized_once st'.

(** What is added to the trace lies within [allowed]. *)
Definition extends (allowed : Effect -> Prop) (st st' : State) : Prop :=
  exists added, trace st' = (trace st ++ added)%list /\ Forall allowed added.

Section InWorld.
Variable JSON_parse : string -> option json.
Variable w : World.

(** The states of a process: it starts in [initial]; it serves one
    invocation after the other, buffered or streaming, and any caller may
    ask for the Mastra instance in between. *)
Inductive Reachable : State -> Prop :=
| reach_initial : Reachable initial
| reach_getMastraInstance (st : State) :
    Reachable st -> Reachable (snd (getMastraInstance st))
| reach_buffered (st : State) (event : Buffered.APIGatewayProxyEvent) :
    Reachable st -> Reachable (snd (Buffered.handler JSON_parse w event st))
| reach_streaming (st : State) (event : Streaming.FunctionUrlEvent) :
    Reachable st -> Reachable (snd (Streaming.handler JSON_parse w event st)).

End InWorld.

End Process.

Module Demo.
Import Eff Json.

(** An agent that answers [pong] and streams three fragments. *)
Definition agent : Lib.Agent :=
  {| Lib.generate := fun _ _ => inr "pong";
     Lib.stream := fun _ _ =>
       inr {| Lib.chunks := ["Hel"; "lo "; "World"]; Lib.thrown := None |} |}.

(** A Mastra instance with the seven registered agents; [getAgent] throws on
    any other name, as that of [@mastra/core] does. *)
Definition mastra : Lib.Mastra :=
  {| Lib.getAgent := fun name =>
       if JS.array_includes Constants.AWS_AGENT_NAMES name
       then inr (Some agent)
       else inl ("Agent with name " ++ name ++ " not found") |}.

Definition world : Lib.World :=
  {| Lib.initializeMastra := fun _ => inr mastra;
     Lib.createAwsAgentNetwork := inr agent |}.

Definition event (text : string) : Buffered.APIGatewayProxyEvent :=
  {| Buffered.body := Some (JString (wire text)) |}.

Definition url_event (text : string) : Streaming.FunctionUrlEvent :=
  {| Streaming.body := Some (JString (wire text)) |}.

Import InvokeApiUtils.

Definition credentials : Credentials :=
  {| accessKeyId := "AKIDEXAMPLE"; secretAccessKey := "secret";
     sessionToken := None |}.

Definition stacks : DescribeStacksOutput :=
  {| Stacks :=
       Some [ {| Outputs :=
                   Some [ {| OutputKey := Some "ApiEndpoint";
                             OutputValue := Some "https://api.example/prod/chat" |};
                          {| OutputKey := Some "StreamingFunctionUrlEndpoint";
                             OutputValue := Some "https://fn.example/" |} ] |} ] |}.

(** A response with the status and the body text given, delivered as the
    chunks given. *)
Definition response (status : Z) (raw : string) (chunks : list string)
  : Response :=
  {| InvokeApiUtils.status := status;
     json_ := match JSON_parse raw with
              | Some v => inr v
              | None => inl "Unexpected token in JSON"
              end;
     text := inr raw;
     body := Some (List.map (fun c => ReadValue (Some (list_byte_of_string c)))
                            chunks) |}.

Definition url : URL :=
  {| hostname := "fn.example"; pathname := "/"; protocol := "https:" |}.

(** An environment in which every call succeeds and [fetch] answers with
    [r]. *)
Definition env (r : Response) : Env :=
  {| credentialProvider := fun _ => inr (Some credentials);
     describeStacks := fun _ _ _ => inr stacks;
     newURL := fun u => inr url;
     sign := fun _ _ _ request => inr request;
     fetch := fun _ _ => inr r;
     Date_now := 1747616836147 |}.

(** A decoder for texts of one-byte characters: nothing is ever held back. *)
Definition decode (d : unit) (value : list byte) : unit * string :=
  (d, string_of_list_byte value).

(** A callback that prints what it is given. *)
Definition print (chunk : string) : M Trace unit := emit (StdoutWrite chunk).

Definition streaming_params : StreamingInvokeParams :=
  {| functionUrl := "https://fn.example/";
     sp_region := "us-east-1";
     sp_profile := None;
     sp_body := "{}";
     onChunk := print |}.

Definition buffered_params : InvokeParams :=
  {| InvokeApiUtils.endpoint := "https://api.example/prod/chat";
     InvokeApiUtils.region := "us-east-1";
     InvokeApiUtils.profile := None;
     ip_method := Some "POST";
     ip_body := "{}" |}.

Definition request : HttpRequest := prepare url "POST" "{}".

Definition bad_gateway : Response :=
  response 502 "<html>Bad Gateway</html>" ["<html>Bad Gateway</html>"].

Definition hello : Response :=
  response 200 "Hello World" ["Hel"; "lo "; "World"].

Definition argv (endpoint sessionId : option string) (agent : string)
  : InteractiveChat.Argv :=
  {| InteractiveChat.endpoint := endpoint;
     InteractiveChat.region := "us-east-1";
     InteractiveChat.profile := "default";
     InteractiveChat.sessionId := sessionId;
     InteractiveChat.stackName := "ServerlessAgentPatternStack";
     InteractiveChat.agent := agent;
     InteractiveChat.streaming := true;
     InteractiveChat.debug := false;
     InteractiveChat.query := None |}.

(** A call of the proxy tool with the URL given or not. *)
Definition proxy_input (override : option string) : McpServer.RemoteAgentProxyInput :=
  {| McpServer.query := "list my buckets";
     McpServer.profile := None;
     McpServer.agent := "s3Agent";
     McpServer.stackName := "ServerlessAgentPatternStack";
     McpServer.region := "us-east-1";
     McpServer.sessionId := "V1StGXR8_Z5jdHi6B-myT";
     McpServer.lambdaFunctionUrlOverride := override |}.

(** The configuration that the chat client resolves in [env hello] when
    neither an endpoint nor a session id is given, and the trace of its
    resolution. *)
Definition config : InteractiveChat.AppConfig :=
  {| InteractiveChat.cfg_region := "us-east-1";
     InteractiveChat.cfg_profile := Some "default";
     InteractiveChat.cfg_stackName := "ServerlessAgentPatternStack";
     InteractiveChat.initialAgent := "awsAgent";
     InteractiveChat.initialUseStreaming := true;
     InteractiveChat.cfg_debug := false;
     InteractiveChat.singleQuery := None;
     InteractiveChat.cfg_sessionId := "chat-1747616836147";
     InteractiveChat.apiGatewayEndpoint := None;
     InteractiveChat.lambdaFunctionUrl := Some "https://fn.example/" |}.

Definition config_trace : Trace :=
  [CallGetFunctionUrl "ServerlessAgentPatternStack" "us-east-1" (Some "default");
   CallDescribeStacks "ServerlessAgentPatternStack" "us-east-1"].

End Demo.

(* ===================================================================== *)
(** ** scripts/interactive-chat.ts: commands and the chat loop            *)
(* ===================================================================== *)

Module Chat.
Import Eff Json InvokeApiUtils InteractiveChat.
Local Open Scope eff_scope.

(** *** Strings

    A string holds the UTF-8 bytes of its text. [toLowerCase] maps the
    letters [A-Z] and leaves every other byte as it is, which is what
    JavaScript does to a string of ASCII characters. *)

Definition lower (c : ascii) : ascii :=
  let n := nat_of_ascii c in
  if ((65 <=? n) && (n <=? 90))%nat then ascii_of_nat (n + 32) else c.

(** [s.toLowerCase()]. *)
Fixpoint toLowerCase (s : string) : string :=
  match s with
  | EmptyString => EmptyString
  | String c s' => String (lower c) (toLowerCase s')
  end.

(** [s.trimStart()]. *)
Fixpoint trimStart (s : string) : string :=
  match s with
  | EmptyString => EmptyString
  | String c1 s1 =>
      if JS.is_space c1 then trimStart s1
      else
        match s1 with
        | EmptyString => s
        | String c2 s2 =>
            if JS.space2 c1 c2 then trimStart s2
            else
              match s2 with
              | EmptyString => s
              | String c3 s3 =>
                  if JS.space3 c1 c2 c3 then trimStart s3 else s
              end
        end
  end.

(** [s.trimEnd()]: the string is cut where what is left of it is white
    space. *)
Fixpoint trimEnd (s : string) : string :=
  match s with
  | EmptyString => EmptyString
  | String c s' => if JS.blank s then EmptyString else String c (trimEnd s')
  end.

(** [s.trim()]. *)
Definition trim (s : string) : string := trimEnd (trimStart s).

(** [s.split(/\s+/)]: the pieces between the runs of white space; a run at
    the start or at the end leaves an empty piece there, and the empty
    string gives one empty piece. [skipping] says that the last character
    read was white space. *)
Fixpoint split_spaces (skipping : bool) (current s : string) : list string :=
  match s with
  | EmptyString => [current]
  | String c1 s1 =>
      if JS.is_space c1 then
        if skipping then split_spaces true current s1
        else current :: split_spaces true EmptyString s1
      else
        match s1 with
        | EmptyString => [current ++ String c1 EmptyString]
        | String c2 s2 =>
            if JS.space2 c1 c2 then
              if skipping then split_spaces true current s2
              else current :: split_spaces true EmptyString s2
            else
              match s2 with
              | EmptyString =>
                  split_spaces false (current ++ String c1 EmptyString) s1
              | String c3 s3 =>
                  if JS.space3 c1 c2 c3 then
                    if skipping then split_spaces true current s3
                    else current :: split_spaces true EmptyString s3
                  else split_spaces false (current ++ String c1 EmptyString) s1
              end
        end
  end.

Definition split (s : string) : list string := split_spaces false EmptyString s.

(** Every character of the string is an ASCII character. *)
Fixpoint ascii_only (s : string) : bool :=
  match s with
  | EmptyString => true
  | String c s' => (nat_of_ascii c <? 128)%nat && ascii_only s'
  end.

(** [' '.repeat(n)]. *)
Fixpoint spaces (n : nat) : string :=
  match n with
  | O => EmptyString
  | S n' => String " " (spaces n')
  end.

(** [s.padEnd(n)]. *)
Definition padEnd (n : nat) (s : string) : string :=
  s ++ spaces (n - String.length s).

(** *** The tables of aliases

    An object used as a table is a list of pairs. A key that the table does
    not have but that every object inherits, [constructor] for one, gives a
    function where the list gives nothing; in [processCommand] both end in
    the same error, as no agent has such a name. *)

Fixpoint lookup (table : list (string * string)) (key : string) : option string :=
  match table with
  | [] => None
  | (k, v) :: rest => if String.eqb k key then Some v else lookup rest key
  end.

Definition aliasToAgent : list (string * string) :=
  [ ("cf", Constants.CLOUDFORMATION_AGENT);
    ("cfn", Constants.CLOUDFORMATION_AGENT);
    ("cloudformation", Constants.CLOUDFORMATION_AGENT);
    ("cp", Constants.CODEPIPELINE_AGENT);
    ("codepipeline", Constants.CODEPIPELINE_AGENT);
    ("cw", Constants.CLOUDWATCHLOGS_AGENT);
    ("cwl", Constants.CLOUDWATCHLOGS_AGENT);
    ("logs", Constants.CLOUDWATCHLOGS_AGENT);
    ("cloudwatch", Constants.CLOUDWATCHLOGS_AGENT);
    ("lambda", Constants.LAMBDA_AGENT);
    ("dynamodb", Constants.DYNAMODB_AGENT);
    ("s3", Constants.S3_AGENT);
    ("net", Constants.AWS_AGENT_NETWORK);
    ("network", Constants.AWS_AGENT_NETWORK);
    ("aws", Constants.AWS_AGENT) ].

Definition agentToAlias : list (string * string) :=
  [ (Constants.CLOUDFORMATION_AGENT, "cfn");
    (Constants.CODEPIPELINE_AGENT, "cp");
    (Constants.CLOUDWATCHLOGS_AGENT, "cwl");
    (Constants.LAMBDA_AGENT, "lambda");
    (Constants.DYNAMODB_AGENT, "dynamodb");
    (Constants.S3_AGENT, "s3");
    (Constants.AWS_AGENT_NETWORK, "network");
    (Constants.AWS_AGENT, "aws") ].

(** *** [processCommand] *)

Inductive CommandResult : Type :=
| Continue
| ExitChat
| Query (query : string)
| SwitchAgent (agent : string)
| ToggleStreaming (enabled : bool)
| ShowHelp
| ShowSession
| Error (message : string).

(** The lines that [processCommand] has twice, once for [/agent] and once
    for the old [agent:] form:
    [const newAgent = aliasToAgent[agentName] || agentName] and what
    follows. *)
Definition switchTo (agentName : string) (currentState : ChatState)
  : CommandResult :=
  let newAgent := JS.or_else (lookup aliasToAgent agentName) agentName in
  if JS.array_includes Constants.AWS_AGENT_NAMES_WITH_NETWORK newAgent then
    if negb (String.eqb newAgent (currentAgent currentState)) then
      SwitchAgent newAgent
    else Continue
  else
    Error ("Invalid agent " ++ String quote "" ++ agentName ++ String quote ""
             ++ ". Available agents: "
             ++ JS.join ", " Constants.AWS_AGENT_NAMES_WITH_NETWORK ++ ".").

(** [const [commandInput, ...commandArgs] =
       input.substring(1).trim().split(/\s+/)]. *)
Definition commandWords (input : string) : list string :=
  split (trim (JS.slice_from 1 input)).

Definition processCommand (input : string) (currentState : ChatState)
           (config : AppConfig) : CommandResult :=
  if negb (JS.startsWith input "/") then Query (trim input)
  else
    let commandInput := List.hd "" (commandWords input) in
    let commandArgs := List.tl (commandWords input) in
    let command := toLowerCase commandInput in
    if String.eqb command "q" || String.eqb command "quit"
       || String.eqb command "exit" then ExitChat
    else if String.eqb command "a" || String.eqb command "agent" then
      let agentName := trim (JS.join " " commandArgs) in
      if negb (JS.truthy agentName) then
        Error ("Current agent is " ++ colors.yellow ++ currentAgent currentState
                 ++ colors.reset ++ ". Usage: /agent <agent_name>")
      else switchTo agentName currentState
    else if String.eqb command "capabilities" then
      Query "What are your capabilities?"
    else if String.eqb command "help" then ShowHelp
    else if String.eqb command "session" then ShowSession
    else if String.eqb command "streaming" then
      if negb (JS.truthy_opt (lambdaFunctionUrl config)) then
        Error "Streaming mode cannot be toggled: Function URL is missing."
      else ToggleStreaming (negb (useStreaming currentState))
    else
      (* default *)
      if String.eqb (toLowerCase input) "exit"
         || String.eqb (toLowerCase input) "quit" then ExitChat
      else if JS.startsWith (toLowerCase input) "agent:" then
        switchTo (trim (JS.slice_from 6 input)) currentState
      else if negb (JS.startsWith input "/") && JS.truthy (trim input) then
        Query (trim input)
      else
        Error ("Unknown command: " ++ commandInput
                 ++ ". Type /help for available commands.").

(** *** Output *)

Definition separator : string := colors.cyan ++ "---" ++ colors.reset.

Definition agentDescriptions : list (string * string) :=
  [ (Constants.CLOUDFORMATION_AGENT, "AWS CloudFormation stack expert");
    (Constants.CODEPIPELINE_AGENT, "AWS CodePipeline expert");
    (Constants.CLOUDWATCHLOGS_AGENT, "AWS CloudWatch Logs expert");
    (Constants.LAMBDA_AGENT, "AWS Lambda functions expert");
    (Constants.DYNAMODB_AGENT, "AWS DynamoDB tables expert");
    (Constants.S3_AGENT, "AWS S3 buckets and objects expert");
    (Constants.AWS_AGENT, "AWS general expert");
    (Constants.AWS_AGENT_NETWORK, "Coordinating network of all AWS agents") ].

(** The loop of [showHelp] over the agent names. *)
Fixpoint agentHelpText (names : list string) : string :=
  match names with
  | [] => ""
  | agentName :: rest =>
      let description := JS.or_else (lookup agentDescriptions agentName) "" in
      let agentNameWithAlias :=
        agentName ++ " (" ++ JS.or_else (lookup agentToAlias agentName) "" ++ ")" in
      "  " ++ colors.yellow ++ padEnd 25 agentNameWithAlias ++ colors.reset
        ++ " " ++ description ++ NL ++ agentHelpText rest
  end.

Definition showHelp : M Trace unit :=
  log (NL
       ++ colors.bold ++ colors.brightGreen ++ "Interactive Chat Client"
       ++ colors.reset ++ NL
       ++ colors.dim
       ++ "This client lets you interact with the remote Mastra agents."
       ++ colors.reset ++ NL
       ++ NL
       ++ colors.bold ++ "Available Commands:" ++ colors.reset ++ NL
       ++ "  " ++ colors.cyan ++ "/help" ++ colors.reset
       ++ "                 Show this help message" ++ NL
       ++ "  " ++ colors.cyan ++ "/exit" ++ colors.reset
       ++ "                 Exit the chat session" ++ NL
       ++ "  " ++ colors.cyan ++ "/session" ++ colors.reset
       ++ "              Show current session info" ++ NL
       ++ "  " ++ colors.cyan ++ "/agent" ++ colors.reset
       ++ " <agent_name>   Switch to a different agent" ++ NL
       ++ "  " ++ colors.cyan ++ "/streaming" ++ colors.reset
       ++ " <on|off>   Toggle streaming mode" ++ NL
       ++ NL
       ++ colors.bold ++ "Available Agents:" ++ colors.reset ++ NL
       ++ agentHelpText Constants.AWS_AGENT_NAMES_WITH_NETWORK ++ NL
       ++ colors.italic ++ colors.dim
       ++ "Note: Your sessionId is preserved during the chat session to maintain conversation context."
       ++ colors.reset ++ NL).

(** [indicator.stop()]: the line of the spinner is cleared. The frames of
    the spinner, which a timer writes, are not part of the trace. *)
Definition stop (message : string) : M Trace unit :=
  let CR := String (ascii_of_nat 13) "" in
  emit (StdoutWrite (CR ++ spaces (String.length message + 2) ++ CR)).

Section InEnv.
Variable env : Env.
Variable Decoder : Type.
Variable new_TextDecoder : Decoder.
Variable decode : Decoder -> list byte -> Decoder * string.

(** [handleStreamingChunk], the callback that prints what the streaming
    transport delivers. *)
Variable handleStreamingChunk : string -> M Trace unit.

(** [JSON.stringify] of a parsed response, and the conversion to a string
    that a template literal applies to a value that is no string. Both
    depend on how JavaScript prints numbers. *)
Variable stringify : json -> string.
Variable String_ : json -> string.

(** [responseBody.message ?? JSON.stringify(responseBody)], as the template
    literal prints it; the property of [null] cannot be read. *)
Definition agentResponse (responseBody : json) : M Trace string :=
  match responseBody with
  | JNull => throw "Cannot read properties of null (reading 'message')"
  | JObject members =>
      match get members "message" with
      | None | Some JNull => ret (stringify responseBody)
      | Some (JString message) => ret message
      | Some message => ret (String_ message)
      end
  | _ => ret (stringify responseBody)
  end.

(** [invokeAgent]. What goes to [console.error] is not part of the trace.
    [canStream] is [state.useStreaming && config.lambdaFunctionUrl]. The
    variable [indicator] is set in the branch of the API Gateway alone, so
    the [indicator?.stop()] of the handler is written in that branch, before
    the error goes on to the handler. *)
Definition invokeAgent (query : string) (state : ChatState) (config : AppConfig)
  : M Trace unit :=
  let requestBody := requestBody query (currentAgent state) config in
  let canStream :=
    if useStreaming state then lambdaFunctionUrl config else None in
  let message := "Processing with " ++ currentAgent state ++ "..." in
  let standard : M Trace unit :=
    match apiGatewayEndpoint config with
    | Some apiGatewayEndpoint =>
        if JS.truthy apiGatewayEndpoint then
          try_catch
            (responseBody <-
               invokeSignedApiRequest env
                 {| InvokeApiUtils.endpoint := apiGatewayEndpoint;
                    InvokeApiUtils.region := cfg_region config;
                    InvokeApiUtils.profile := cfg_profile config;
                    ip_method := Some "POST";
                    ip_body := requestBody |} ;;
             stop message ;;;
             shown <- agentResponse responseBody ;;
             log (colors.bold ++ colors.blue ++ "Agent (" ++ currentAgent state
                    ++ "):" ++ colors.reset ++ " " ++ shown))
            (fun error => stop message ;;; throw error)
        else ret tt
    | None => ret tt
    end in
  try_catch
    (match canStream with
     | Some functionUrl =>
         if JS.truthy functionUrl then
           log (colors.bold ++ colors.blue ++ "Agent (" ++ currentAgent state
                  ++ "):" ++ colors.reset) ;;;
           invokeStreamingRequest env Decoder new_TextDecoder decode
             {| functionUrl := functionUrl;
                sp_region := cfg_region config;
                sp_profile := cfg_profile config;
                sp_body := requestBody;
                onChunk := handleStreamingChunk |} ;;;
           log NL
         else standard
     | None => standard
     end)
    (fun error =>
       log (colors.yellow ++ "Please try again or type " ++ String quote ""
              ++ "/exit" ++ String quote "" ++ " to quit." ++ colors.reset)) ;;;
  log separator.

(** The body of the read loop of [startInteractiveChat] for one line read:
    the command is worked out and acted on, and the state of the chat is
    the state for the next line. With [/exit] the readline interface is
    closed, whose handler ends the process. *)
Definition turn (userInput : string) (state : ChatState) (config : AppConfig)
  : M Trace ChatState :=
  match processCommand userInput state config with
  | Continue => ret state
  | ExitChat =>
      log (NL ++ colors.bold ++ colors.cyan
             ++ "--- Chat Session Ended (EOF/Close) ---" ++ colors.reset) ;;;
      exit 0
  | Query query => invokeAgent query state config ;;; ret state
  | SwitchAgent agent =>
      let state := {| currentAgent := agent; useStreaming := useStreaming state |} in
      log (colors.magenta ++ "Switched to agent: " ++ colors.brightMagenta
             ++ currentAgent state ++ colors.reset) ;;;
      log separator ;;;
      ret state
  | ToggleStreaming enabled =>
      let state := {| currentAgent := currentAgent state; useStreaming := enabled |} in
      log (colors.magenta ++ "Streaming mode "
             ++ (if useStreaming state then "enabled" else "disabled")
             ++ "." ++ colors.reset) ;;;
      showSessionInfo state config ;;;
      ret state
  | ShowHelp => showHelp ;;; ret state
  | ShowSession => showSessionInfo state config ;;; ret state
  | Error message =>
      log (colors.red ++ "Error: " ++ message ++ colors.reset) ;;;
      log separator ;;;
      ret state
  end.

(** The loop over the lines read, one [turn] after the other. *)
Fixpoint turns (inputs : list string) (state : ChatState) (config : AppConfig)
  : M Trace ChatState :=
  match inputs with
  | [] => ret state
  | userInput :: rest =>
      state' <- turn userInput state config ;;
      turns rest state' config
  end.

(** [executeSingleQuery]. A query that is [undefined] leaves no key in the
    request body; [indicator?.stop()] is placed as in [invokeAgent]. *)
Definition executeSingleQuery (config : AppConfig) : M Trace unit :=
  log (colors.bold ++ colors.cyan ++ "--- Executing Single Query ---"
         ++ colors.reset) ;;;
  log (colors.brightBlack ++ "Mode: " ++ colors.brightGreen
         ++ (if initialUseStreaming config then "Streaming" else "Standard API")
         ++ colors.reset) ;;;
  log (colors.brightBlack ++ "Agent: " ++ colors.brightWhite
         ++ initialAgent config ++ colors.reset) ;;;
  log (colors.brightBlack ++ "Query: " ++ colors.brightWhite
         ++ JS.show_opt (singleQuery config) ++ colors.reset) ;;;
  log separator ;;;
  let requestBody :=
    JSON_stringify
      (JObject
         ((match singleQuery config with
           | Some query => [("query", JString query)]
           | None => []
           end)
            ++ [("threadId", JString ("thread-" ++ cfg_sessionId config));
                ("resourceId", JString ("resource-" ++ cfg_sessionId config));
                ("agent", JString (initialAgent config))])%list) in
  let message := "Processing query with " ++ initialAgent config ++ "..." in
  let standard : M Trace unit :=
    match apiGatewayEndpoint config with
    | Some apiGatewayEndpoint =>
        if JS.truthy apiGatewayEndpoint then
          try_catch
            (responseBody <-
               invokeSignedApiRequest env
                 {| InvokeApiUtils.endpoint := apiGatewayEndpoint;
                    InvokeApiUtils.region := cfg_region config;
                    InvokeApiUtils.profile := cfg_profile config;
                    ip_method := Some "POST";
                    ip_body := requestBody |} ;;
             stop message ;;;
             shown <- agentResponse responseBody ;;
             log (colors.bold ++ colors.blue ++ "Agent (" ++ initialAgent config
                    ++ "):" ++ colors.reset ++ " " ++ shown))
            (fun error => stop message ;;; throw error)
        else exit 1
    | None => exit 1
    end in
  try_catch
    (match (if initialUseStreaming config then lambdaFunctionUrl config
            else None) with
     | Some functionUrl =>
         if JS.truthy functionUrl then
           log (colors.bold ++ colors.blue ++ "Agent (" ++ initialAgent config
                  ++ "):" ++ colors.reset) ;;;
           invokeStreamingRequest env Decoder new_TextDecoder decode
             {| functionUrl := functionUrl;
                sp_region := cfg_region config;
                sp_profile := cfg_profile config;
                sp_body := requestBody;
                onChunk := handleStreamingChunk |} ;;;
           log NL
         else standard
     | None => standard
     end ;;;
     log (colors.cyan ++ "--- Query Complete ---" ++ colors.reset) ;;;
     exit 0)
    (fun error => exit 1).

End InEnv.

End Chat.

(* ===================================================================== *)
(** ** scripts/interactive-chat.ts (unnamed/part_012): the command line    *)
(* ===================================================================== *)

Module Cli.
Import Eff InvokeApiUtils InteractiveChat.
Local Open Scope eff_scope.

(** What [yargs(processedArgs)...help().alias('help', 'h').argv] makes of
    the arguments. With [.help()], [--help] and [--version] print a text and
    end the process with status 0; an option that fails its validation, as a
    value of [--agent] outside [choices] does, prints the error and ends the
    process with status 1; otherwise the options are returned, defaults
    applied. *)
Inductive YargsOutcome : Type :=
| Parsed (argv : Argv)
| HelpShown
| VersionShown
| ValidationFailed.

(** [args[0] === '--' ? args.slice(1) : args]. *)
Definition processedArgs (args : list string) : list string :=
  match args with
  | first :: rest => if String.eqb first "--" then rest else args
  | [] => args
  end.

(** [loadCliArgs], for the arguments [hideBin(process.argv)]. *)
Definition loadCliArgs (yargs : list string -> YargsOutcome) (args : list string)
  : M Trace Argv :=
  match yargs (processedArgs args) with
  | Parsed argv => ret argv
  | HelpShown | VersionShown => exit 0
  | ValidationFailed => exit 1
  end.

(** [loadAndValidateConfig] as a whole: [const argv = await loadCliArgs()]
    and what follows it. *)
Definition loadAndValidateConfig (env : Env)
           (yargs : list string -> YargsOutcome) (args : list string)
  : M Trace AppConfig :=
  argv <- loadCliArgs yargs args ;;
  InteractiveChat.loadAndValidateConfig env argv.

End Cli.

(* ===================================================================== *)
(** ** src/lib/index.ts (unnamed/part_007): [getAgent]                     *)
(* ===================================================================== *)

Module Index.
Import Eff Lib.
Local Open Scope eff_scope.

(** [getAgent]. Every Mastra instance has the method [getAgent], so the
    test of the type guard holds; the branch that warns and returns
    [undefined] is for a value without the method. *)
Definition getAgent (w : World) (agentName : string) : M State (option Agent) :=
  promise <- getMastraInstance ;;
  mastraInstance <- await w promise ;;
  emit (CallGetAgent agentName) ;;;
  settle (Lib.getAgent mastraInstance agentName).

End Index.

(* ===================================================================== *)
(** ** src/lib/aws-network-client.ts                                      *)
(* ===================================================================== *)

Module AwsNetworkClient.
Import Eff.
Local Open Scope eff_scope.

Record Options : Type := { resourceId : string; threadId : string }.

(** The agent network: [generate] gives [result.text]. *)
Record Network : Type :=
  { generate : string -> Options -> Result string }.

(** [Date_now n] is what the clock shows when it is read for the [n]th
    time. *)
Record Env : Type :=
  { createAwsAgentNetwork : Result Network;
    Date_now : nat -> Z }.

Inductive Effect : Type :=
| CallGenerate (prompt : string) (options : Options).

Record State : Type := { clock_reads : nat; trace : list Effect }.

Definition emit (e : Effect) : M State unit :=
  modify (fun s => {| clock_reads := clock_reads s;
                      trace := (trace s ++ [e])%list |}).

Record Generated : Type := { text : string; generated_threadId : string }.

Section InEnv.
Variable env : Env.

(** [Date.now()]. *)
Definition now : M State Z := fun s =>
  (Ok (Date_now env (clock_reads s)),
   {| clock_reads := S (clock_reads s); trace := trace s |}).

(** [threadId || `aws-thread-${Date.now()}`]: the clock is read only when
    no thread id was given. *)
Definition orFreshThread (threadId : option string) : M State string :=
  if JS.truthy_opt threadId then ret (JS.show_opt threadId)
  else n <- now ;; ret ("aws-thread-" ++ JS.string_of_Z n).

(** [generateWithAwsNetwork], without the line it logs. *)
Definition generateWithAwsNetwork (prompt : string) (threadId : option string)
  : M State Generated :=
  awsAgentNetwork <- settle (createAwsAgentNetwork env) ;;
  used <- orFreshThread threadId ;;
  let options := {| resourceId := "aws-client"; threadId := used |} in
  emit (CallGenerate prompt options) ;;;
  result <- settle (generate awsAgentNetwork prompt options) ;;
  returned <- orFreshThread threadId ;;
  ret {| text := result; generated_threadId := returned |}.

End InEnv.

End AwsNetworkClient.

(* ===================================================================== *)
(** ** src/lib/utils.ts, src/lib/memory (unnamed/part_008) and the tables
       of the stack (src/cdk/lib/serverless-agent-stack.ts)              *)
(* ===================================================================== *)

Module Memory.
Import Eff.
Local Open Scope eff_scope.

Definition upper (c : ascii) : ascii :=
  let n := nat_of_ascii c in
  if ((97 <=? n) && (n <=? 122))%nat then ascii_of_nat (n - 32) else c.

(** [s.toUpperCase()], for ASCII. *)
Fixpoint toUpperCase (s : string) : string :=
  match s with
  | EmptyString => EmptyString
  | String c s' => String (upper c) (toUpperCase s')
  end.

(** [process.env], and an object of strings built key by key. *)
Definition Vars : Type := list (string * string).

(** [vars[key] = value]. *)
Fixpoint assign (vars : Vars) (key value : string) : Vars :=
  match vars with
  | [] => [(key, value)]
  | (k, v) :: rest =>
      if String.eqb k key then (k, value) :: rest
      else (k, v) :: assign rest key value
  end.

(** [{ ...vars, ...more }]. *)
Fixpoint spread (vars more : Vars) : Vars :=
  match more with
  | [] => vars
  | (k, v) :: rest => spread (assign vars k v) rest
  end.

Record Env : Type :=
  { process_env : Vars;
    (** [(await secretsManager.send(new GetSecretValueCommand({ SecretId })))
        .SecretString] *)
    send : string -> Result (option string) }.

Inductive Effect : Type :=
| GetSecretValue (SecretId : string).

Definition Trace : Type := list Effect.

Definition emit (e : Effect) : M Trace unit :=
  modify (fun t => (t ++ [e])%list).

(** What [createMemory] hands to [new Memory]: the key of the Pinecone
    client, or [None] for [vector: false], the name of the store and the
    name of its table. *)
Record MemoryConfig : Type :=
  { vector : option string;
    storage_name : string;
    tableName : string }.

Section InEnv.
Variable env : Env.

(** [getPineconeKey] of src/lib/utils.ts. *)
Definition getPineconeKey : M Trace string :=
  match Chat.lookup (process_env env) "PINECONE_API_KEY_SECRET_NAME" with
  | Some secretName =>
      if JS.truthy secretName then
        emit (GetSecretValue secretName) ;;;
        SecretString <- settle (send env secretName) ;;
        if JS.truthy_opt SecretString then ret (JS.show_opt SecretString)
        else throw "Pinecone secret value is empty"
      else throw "PINECONE_API_KEY_SECRET_NAME environment variable is not set"
  | None => throw "PINECONE_API_KEY_SECRET_NAME environment variable is not set"
  end.

(** [createMemory]. *)
Definition createMemory (agentIdentifier : string) : M Trace MemoryConfig :=
  vector <-
    (if JS.truthy_opt
          (Chat.lookup (process_env env) "PINECONE_API_KEY_SECRET_NAME")
     then key <- getPineconeKey ;; ret (Some key)
     else ret None) ;;
  let tableNameEnvVar := "MEMORY_TABLE_NAME_" ++ toUpperCase agentIdentifier in
  let tableName :=
    JS.or_else (Chat.lookup (process_env env) tableNameEnvVar)
               ("mastra-memory-" ++ Chat.toLowerCase agentIdentifier) in
  ret {| vector := vector;
         storage_name := "dynamodb-memory-" ++ Chat.toLowerCase agentIdentifier;
         tableName := tableName |}.

End InEnv.

(** The loop of the stack over [AWS_AGENT_NAMES]:
    [agentMemoryTableEnvVars[`MEMORY_TABLE_NAME_${agentId.toUpperCase()}`] =
       table.tableName], where [table_name agentId] stands for the name that
    CloudFormation gives to the table created for [agentId]. *)
Fixpoint agentMemoryTableEnvVars (table_name : string -> string)
         (agentIds : list string) (vars : Vars) : Vars :=
  match agentIds with
  | [] => vars
  | agentId :: rest =>
      agentMemoryTableEnvVars table_name rest
        (assign vars ("MEMORY_TABLE_NAME_" ++ toUpperCase agentId)
                (table_name agentId))
  end.

(** [pineconeEnv]: empty, or the name of the secret. *)
Definition pineconeEnv (secretName : option string) : Vars :=
  match secretName with
  | Some name => [("PINECONE_API_KEY_SECRET_NAME", name)]
  | None => []
  end.

(** The [environment] of the functions:
    [{ ...agentMemoryTableEnvVars, ...pineconeEnv }]. *)
Definition environment (table_name : string -> string)
           (secretName : option string) : Vars :=
  spread (agentMemoryTableEnvVars table_name Constants.AWS_AGENT_NAMES [])
         (pineconeEnv secretName).

End Memory.

(* ===================================================================== *)
(** ** Observations on the state of the chat                              *)
(* ===================================================================== *)

Module ChatObserve.
Import InteractiveChat.

(** The command words that [processCommand] has a case for. *)
Definition commands : list string :=
  ["q"; "quit"; "exit"; "a"; "agent"; "capabilities"; "help"; "session";
   "streaming"].

(** The current agent is one of the enumeration. *)
Definition known_agent (state : ChatState) : bool :=
  JS.array_includes Constants.AWS_AGENT_NAMES_WITH_NETWORK (currentAgent state).

(** Streaming is on only when there is a Function URL to stream from. *)
Definition can_stream (config : AppConfig) (state : ChatState) : bool :=
  implb (useStreaming state) (JS.truthy_opt (lambdaFunctionUrl config)).

(** The mode of the chat has the address it needs: the Function URL when
    streaming is on, the API Gateway endpoint when it is off. *)
Definition has_transport (config : AppConfig) (state : ChatState) : bool :=
  if useStreaming state then JS.truthy_opt (lambdaFunctionUrl config)
  else JS.truthy_opt (apiGatewayEndpoint config).

End ChatObserve.

(* ===================================================================== *)
(** ** The ways a computation can end                                     *)
(* ===================================================================== *)

Module Outcomes.
Import Eff.

(** From whatever state it starts, the computation returns only if
    [returns] allows it, throws only if [throws] allows it, and ends the
    process only with one of the [codes]. *)
Definition ends_within {S A} (returns throws : bool) (codes : list Z)
           (m : M S A) : Prop :=
  forall s,
    match fst (m s) with
    | Ok _ => returns = true
    | Throw _ => throws = true
    | Exit code => In code codes
    end.

End Outcomes.

(* ===================================================================== *)
(** ** Further concrete worlds                                            *)
(* ===================================================================== *)

Module Cases.
Import Eff Json.

(** A chat that starts with [awsAgent] in streaming mode, and three lines
    typed into it. *)
Definition chat_start : InteractiveChat.ChatState :=
  {| InteractiveChat.currentAgent := "awsAgent";
     InteractiveChat.useStreaming := true |}.

Definition chat_lines : list string :=
  ["/agent s3"; "/streaming"; "/agent nope"].

Definition chat_end : InteractiveChat.ChatState :=
  {| InteractiveChat.currentAgent := "s3Agent";
     InteractiveChat.useStreaming := false |}.

(** The text [Hi] with U+FEFF before it, a response that carries it in one
    read, and an agent that streams it in one chunk. *)
Definition with_BOM : string :=
  string_of_list_byte [xef; xbb; xbf; x48; x69].

Definition BOM_response : InvokeApiUtils.Response :=
  Demo.response 200 with_BOM [with_BOM].

Definition BOM_world : Lib.World :=
  let agent :=
    {| Lib.generate := fun _ _ => inr with_BOM;
       Lib.stream := fun _ _ =>
         inr {| Lib.chunks := [with_BOM]; Lib.thrown := None |} |} in
  {| Lib.initializeMastra := fun _ =>
       inr {| Lib.getAgent := fun _ => inr (Some agent) |};
     Lib.createAwsAgentNetwork := inr agent |}.

(** The bytes of [Hé!] in two reads that cut the two bytes of [é] apart,
    with a read without value in between. *)
Definition cut_reads : list (option (list byte)) :=
  [Some [x48; xc3]; None; Some [xa9; x21]].

(** A network that answers, and a clock that moves by a second between two
    readings. *)
Definition network : AwsNetworkClient.Network :=
  {| AwsNetworkClient.generate := fun _ _ => inr "pong" |}.

Definition network_env : AwsNetworkClient.Env :=
  {| AwsNetworkClient.createAwsAgentNetwork := inr network;
     AwsNetworkClient.Date_now := fun n => (1747616836147 + 1000 * Z.of_nat n)%Z |}.

Definition network_start : AwsNetworkClient.State :=
  {| AwsNetworkClient.clock_reads := 0; AwsNetworkClient.trace := [] |}.

(** The name that CloudFormation gives to the table of an agent, and the
    secrets of the account. *)
Definition table_name (agentId : string) : string :=
  "Stack-MastraMemory" ++ agentId ++ "1A2B3C".

Definition memory_env (secretName : option string) : Memory.Env :=
  {| Memory.process_env := Memory.environment table_name secretName;
     Memory.send := fun SecretId =>
       if String.eqb SecretId "pinecone/key" then inr (Some "pc-key")
       else inl "ResourceNotFoundException" |}.

(** A process in which the initialisation of Mastra fails, as it does when
    the Pinecone key cannot be read. *)
Definition no_mastra : Lib.World :=
  {| Lib.initializeMastra := fun _ => inl "Failed to get Pinecone API Key";
     Lib.createAwsAgentNetwork := inr Demo.agent |}.

(** An agent whose stream breaks after two fragments. *)
Definition failing_agent : Lib.Agent :=
  {| Lib.generate := fun _ _ => inl "ThrottlingException";
     Lib.stream := fun _ _ =>
       inr {| Lib.chunks := ["Hel"; "lo "]; Lib.thrown := Some "socket hang up" |} |}.

Definition failing_mastra : Lib.Mastra :=
  {| Lib.getAgent := fun _ => inr (Some failing_agent) |}.

Definition failing_world : Lib.World :=
  {| Lib.initializeMastra := fun _ => inr failing_mastra;
     Lib.createAwsAgentNetwork := inr failing_agent |}.

(** The envelope of the examples, with the agent named or not. *)
Definition envelope (agent : option string) : string :=
  match agent with
  | Some a => "{'query':'hi','threadId':'t','resourceId':'r','agent':'" ++ a ++ "'}"
  | None => "{'query':'hi','threadId':'t','resourceId':'r'}"
  end.

Definition content (agent : string) : Shared.BodyContent :=
  {| Shared.query := "hi"; Shared.threadId := "t"; Shared.resourceId := "r";
     Shared.agent := agent |}.

(** A call of the proxy whose query is white space only: a space, a
    no-break space (U+00A0) and a thin space (U+2009). *)
Definition blank_input : McpServer.RemoteAgentProxyInput :=
  {| McpServer.query := string_of_list_byte [x20; xc2; xa0; xe2; x80; x89];
     McpServer.profile := None;
     McpServer.agent := "s3Agent";
     McpServer.stackName := "ServerlessAgentPatternStack";
     McpServer.region := "us-east-1";
     McpServer.sessionId := "V1StGXR8_Z5jdHi6B-myT";
     McpServer.lambdaFunctionUrlOverride := None |}.

(** The state of a process of the world [w] that has served one buffered
    request, for the default agent. *)
Definition warm (w : Lib.World) : Lib.State :=
  snd (Buffered.handler JSON_parse w (Demo.event (envelope None)) Lib.initial).

End Cases.

(* ===================================================================== *)
(** * Properties                                                          *)
(* ===================================================================== *)

Section ThreadIdFacts.
Import ThreadId.

Lemma startsWith_sep_cons (c : ascii) (s : string) :
  JS.startsWith (String c s) SEP = true ->
  c = ":"%char /\ JS.startsWith s ":" = true.
Proof.
  unfold SEP. cbn [JS.startsWith]. intros H.
  apply andb_prop in H. destruct H as [Hc Hs].
  apply Ascii.eqb_eq in Hc. auto.
Qed.

Lemma includes_tail (c : ascii) (s : string) :
  JS.includes (String c s) SEP = false -> JS.includes s SEP = false.
Proof.
  unfold JS.includes. cbn [JS.indexOf].
  destruct (JS.startsWith (String c s) SEP); [discriminate|].
  destruct (JS.indexOf SEP s); [discriminate | reflexivity].
Qed.

Lemma includes_head (c : ascii) (s : string) :
  JS.includes (String c s) SEP = false ->
  JS.startsWith (String c s) SEP = false.
Proof.
  unfold JS.includes. cbn [JS.indexOf].
  destruct (JS.startsWith (String c s) SEP); [discriminate | reflexivity].
Qed.

Lemma endsWith_tail (c d : ascii) (s p : string) :
  JS.endsWith (String c (String d s)) p = false ->
  JS.endsWith (String d s) p = false.
Proof.
  intros H. change (JS.endsWith (String c (String d s)) p)
    with (String.eqb (String c (String d s)) p || JS.endsWith (String d s) p) in H.
  apply orb_false_elim in H. destruct H as [_ H]. exact H.
Qed.

(** When the agent name neither contains the separator nor ends in a colon,
    the first separator of the derived id is the one the derivation put in. *)
Lemma splitFirst_namespaced (a s : string) :
  JS.includes a SEP = false ->
  JS.endsWith a ":" = false ->
  splitFirst SEP (namespacedThreadId a s) = Some (a, s).
Proof.
  unfold namespacedThreadId.
  induction a as [|c a IH]; intros Hinc Hend.
  - reflexivity.
  - assert (Hp : JS.startsWith (String c a ++ SEP ++ s) SEP = false).
    { destruct (JS.startsWith (String c a ++ SEP ++ s) SEP) eqn:E; [|reflexivity].
      exfalso. change (String c a ++ SEP ++ s) with (String c (a ++ SEP ++ s)) in E.
      apply startsWith_sep_cons in E. destruct E as [-> E].
      destruct a as [|d a].
      + discriminate Hend.
      + apply includes_head in Hinc.
        change (String d a ++ SEP ++ s) with (String d (a ++ SEP ++ s)) in E.
        cbn [JS.startsWith] in E. rewrite andb_true_r in E.
        apply Ascii.eqb_eq in E. subst d.
        discriminate Hinc. }
    change (String c a ++ SEP ++ s) with (String c (a ++ SEP ++ s)) in *.
    cbn [splitFirst]. rewrite Hp.
    rewrite IH.
    + reflexivity.
    + eapply includes_tail; eassumption.
    + destruct a as [|d a]; [reflexivity|].
      eapply endsWith_tail; eassumption.
Qed.

End ThreadIdFacts.

(* ===================================================================== *)
(** ** Thread ids: injectivity and recovery of the pair                   *)
(* ===================================================================== *)

Section ThreadIdClaims.
Import ThreadId.

(** C3, as stated, fails: neither ["a:"], ["b"], ["a"] nor [":b"] contains
    the separator, the two pairs differ, their thread ids are equal, and
    cutting the id of the first pair at the first separator gives the second
    pair. *)
Lemma C3_colon_boundary_collision :
  JS.includes "a:" SEP = false /\ JS.includes "b" SEP = false /\
  JS.includes "a" SEP = false /\ JS.includes ":b" SEP = false /\
  ("a:", "b") <> ("a", ":b") /\
  namespacedThreadId "a:" "b" = namespacedThreadId "a" ":b" /\
  splitFirst SEP (namespacedThreadId "a:" "b") = Some ("a", ":b").
Proof.
  repeat split; try reflexivity. discriminate.
Qed.

(** C3, amended: when moreover the agent name does not end in a colon, the
    derivation is injective over the pair and cutting the thread id at the
    first separator gives the pair back. *)
Theorem C3_thread_id_injective_and_split
        (agentName sessionId agentName' sessionId' : string) :
  JS.includes agentName SEP = false -> JS.includes sessionId SEP = false ->
  JS.endsWith agentName ":" = false ->
  JS.includes agentName' SEP = false -> JS.includes sessionId' SEP = false ->
  JS.endsWith agentName' ":" = false ->
  splitFirst SEP (namespacedThreadId agentName sessionId)
    = Some (agentName, sessionId) /\
  (namespacedThreadId agentName sessionId
     = namespacedThreadId agentName' sessionId' ->
   (agentName, sessionId) = (agentName', sessionId')).
Proof.
  intros Ha _ Hc Ha' _ Hc'. split.
  - apply splitFirst_namespaced; assumption.
  - intros E.
    pose proof (splitFirst_namespaced agentName sessionId Ha Hc) as H1.
    pose proof (splitFirst_namespaced agentName' sessionId' Ha' Hc') as H2.
    rewrite E in H1. rewrite H1 in H2. injection H2 as -> ->. reflexivity.
Qed.

Lemma C3_thread_id_injective_and_split_witness :
  splitFirst SEP (namespacedThreadId "s3Agent" "chat-1747616836147")
    = Some ("s3Agent", "chat-1747616836147") /\
  (namespacedThreadId "s3Agent" "chat-1747616836147"
     = namespacedThreadId "lambdaAgent" "chat-1747616836147" ->
   ("s3Agent", "chat-1747616836147") = ("lambdaAgent", "chat-1747616836147")).
Proof.
  apply (C3_thread_id_injective_and_split
           "s3Agent" "chat-1747616836147" "lambdaAgent" "chat-1747616836147");
    reflexivity.
Defined.

(** No enumerated agent name contains a colon, so the amended statement
    covers every envelope that passes validation. *)
Lemma enumerated_names_fit :
  List.forallb (fun a => negb (JS.includes a SEP) && negb (JS.endsWith a ":"))
               Constants.AWS_AGENT_NAMES_WITH_NETWORK = true.
Proof. reflexivity. Qed.

End ThreadIdClaims.

(* ===================================================================== *)
(** ** The envelope at the trust boundary                                 *)
(* ===================================================================== *)

Section EnvelopeFacts.
Import Eff Json Zod Shared.

Variable JSON_parse : string -> option json.

Lemma string__cases (p : list string) (v : jsval) :
  (exists s, v = Some (JString s) /\ string_ p v = Valid s)
  \/ string_ p v = Aborted [invalid_type p "string" v].
Proof.
  destruct v as [[| | | s | |]|]; simpl; auto.
  left. exists s. auto.
Qed.

(** A body that is a text of JSON goes through both refinements and the
    transform, and the content schema sees the parsed value. *)
Lemma EventBodySchema_text (p : list string) (raw : string) (v : json) :
  JSON_parse raw = Some v ->
  EventBodySchema JSON_parse p (Some (JString raw))
    = BodyContentSchema p (Some v).
Proof.
  intros H.
  unfold EventBodySchema, pipe, transform, refine, nullable, string_, parse_body.
  rewrite H. rewrite H. reflexivity.
Qed.

Lemma BodyContentSchema_never_throws (p : list string) (v : jsval) (e : exn) :
  BodyContentSchema p v <> Threw e.
Proof.
  unfold BodyContentSchema.
  destruct v as [[| | | | | ms]|]; try discriminate.
  destruct (string__cases (p ++ ["query"]) (get ms "query")) as [(q & _ & ->)| ->];
  destruct (string__cases (p ++ ["threadId"]) (get ms "threadId"))
    as [(t & _ & ->)| ->];
  destruct (string__cases (p ++ ["resourceId"]) (get ms "resourceId"))
    as [(r & _ & ->)| ->];
  unfold optional_default, enum;
  destruct (get ms "agent") as [[| | | a | |]|];
  try destruct (JS.array_includes Constants.AWS_AGENT_NAMES_WITH_NETWORK a);
  cbn; discriminate.
Qed.

(** The transform never throws: the second refinement has checked the very
    call it makes. *)
Lemma EventBodySchema_never_throws (p : list string) (v : jsval) (e : exn) :
  EventBodySchema JSON_parse p v <> Threw e.
Proof.
  destruct v as [[| | | raw | |]|];
    try (unfold EventBodySchema, pipe, transform, refine, nullable, string_,
           parse_body; cbn; discriminate).
  destruct (JSON_parse raw) as [j|] eqn:E.
  - rewrite (EventBodySchema_text _ _ _ E).
    apply BodyContentSchema_never_throws.
  - unfold EventBodySchema, pipe, transform, refine, nullable, string_,
      parse_body.
    rewrite E. discriminate.
Qed.

Lemma BodyContentSchema_well_reported (p : list string) (v : jsval) :
  well_reported (BodyContentSchema p v).
Proof.
  unfold BodyContentSchema.
  destruct v as [[| | | | | ms]|]; try constructor.
  destruct (string__cases (p ++ ["query"]) (get ms "query")) as [(q & _ & ->)| ->];
  destruct (string__cases (p ++ ["threadId"]) (get ms "threadId"))
    as [(t & _ & ->)| ->];
  destruct (string__cases (p ++ ["resourceId"]) (get ms "resourceId"))
    as [(r & _ & ->)| ->];
  unfold optional_default, enum;
  destruct (get ms "agent") as [[| | | a | |]|];
  try destruct (JS.array_includes Constants.AWS_AGENT_NAMES_WITH_NETWORK a);
  cbn; constructor.
Qed.

Lemma EventBodySchema_well_reported (p : list string) (v : jsval) :
  well_reported (EventBodySchema JSON_parse p v).
Proof.
  destruct v as [[| | | raw | |]|];
    try (unfold EventBodySchema, pipe, transform, refine, nullable, string_,
           parse_body; cbn; constructor).
  destruct (JSON_parse raw) as [j|] eqn:E.
  - rewrite (EventBodySchema_text _ _ _ E).
    apply BodyContentSchema_well_reported.
  - unfold EventBodySchema, pipe, transform, refine, nullable, string_,
      parse_body.
    rewrite E. constructor.
Qed.

Lemma unknown_agent_aborts (p : list string) (ms : list (string * json))
      (a : string) :
  get ms "agent" = Some (JString a) ->
  JS.array_includes Constants.AWS_AGENT_NAMES_WITH_NETWORK a = false ->
  exists iss,
    BodyContentSchema p (Some (JObject ms))
      = Aborted (iss ++ [invalid_enum_value (p ++ ["agent"])
                           Constants.AWS_AGENT_NAMES_WITH_NETWORK a])%list.
Proof.
  intros Hget Hout. unfold BodyContentSchema, optional_default, enum.
  rewrite Hget, Hout.
  destruct (string__cases (p ++ ["query"]) (get ms "query")) as [(q & _ & ->)| ->];
  destruct (string__cases (p ++ ["threadId"]) (get ms "threadId"))
    as [(t & _ & ->)| ->];
  destruct (string__cases (p ++ ["resourceId"]) (get ms "resourceId"))
    as [(r & _ & ->)| ->];
  cbn [ap issues_of app];
  match goal with
  | |- exists _, Aborted ?l = _ => exists (removelast l); reflexivity
  end.
Qed.


End EnvelopeFacts.

(* ===================================================================== *)
(** ** The buffered handler                                               *)
(* ===================================================================== *)

Section BufferedFacts.
Import Eff Json Zod Lib.

Variable JSON_parse : string -> option json.
Variable w : World.

Lemma safeParse_aborted_snoc {A} (iss : list ZodIssue) (i : ZodIssue) :
  @safeParse A (Aborted (iss ++ [i])) = inr (failure (iss ++ [i])).
Proof. destruct iss; reflexivity. Qed.

(** A validation failure is answered with status 400 and touches nothing. *)
Lemma buffered_failure_400 (event : Buffered.APIGatewayProxyEvent)
      (errors : list ZodIssue) (st : State) :
  safeParse (Buffered.EventSchema JSON_parse event) = inr (failure errors) ->
  Buffered.handler JSON_parse w event st
    = (Ok {| Buffered.statusCode := 400;
             Buffered.body_ :=
               JSON_stringify
                 (JObject [("message", JString "Invalid request");
                           ("errors",
                            JArray (List.map JString
                                      (List.map message errors)))]) |},
       st).
Proof.
  intros H. unfold Buffered.handler. rewrite H.
  rewrite List.map_map. reflexivity.
Qed.

(** The handler never rejects: whatever the event, it returns a response. *)
Lemma buffered_always_responds (event : Buffered.APIGatewayProxyEvent)
      (st : State) :
  exists response st',
    Buffered.handler JSON_parse w event st = (Ok response, st').
Proof.
  unfold Buffered.handler, Buffered.EventSchema.
  pose proof (EventBodySchema_well_reported JSON_parse ["body"]
                (Buffered.body event)) as Hwr.
  destruct Hwr as [d | v i iss | i iss].
  - cbn [ap safeParse settle bind ret].
    unfold try_catch, bind, getMastraInstance, await, settle, emit, modify,
      throw, ret.
    destruct (mastraInstancePromise st) as [pr|];
      cbn [fst snd];
      match goal with
      | |- context [initializeMastra w ?k] =>
          destruct (initializeMastra w k) as [err | m]
      end; cbn; eauto;
      destruct (getAgent m (Shared.agent d)) as [err | [ag|]]; cbn; eauto;
      match goal with
      | |- context [generate ag ?ms ?o] =>
          destruct (generate ag ms o) as [err | text]
      end; cbn; eauto.
  - destruct v; cbn -[JSON_stringify]; unfold ret; eauto.
  - cbn -[JSON_stringify]; unfold ret; eauto.
Qed.

(** C1, amended: a request whose body is a JSON object with an [agent]
    member that is a string outside the enumerated names is answered by the
    buffered handler with status 400 and the body
    [{ message: 'Invalid request', errors: string[] }], and the handler
    leaves the state and the trace as they were: nothing is initialised and
    nothing is dispatched. The emptiness of [query] plays no part. *)
Theorem C1_unknown_agent_rejected (event : Buffered.APIGatewayProxyEvent)
        (raw : string) (ms : list (string * json)) (a : string) (st : State) :
  Buffered.body event = Some (JString raw) ->
  JSON_parse raw = Some (JObject ms) ->
  get ms "agent" = Some (JString a) ->
  JS.array_includes Constants.AWS_AGENT_NAMES_WITH_NETWORK a = false ->
  exists errors : list string,
    Buffered.handler JSON_parse w event st
      = (Ok {| Buffered.statusCode := 400;
               Buffered.body_ :=
                 JSON_stringify
                   (JObject [("message", JString "Invalid request");
                             ("errors", JArray (List.map JString errors))]) |},
         st).
Proof.
  intros Hbody Hparse Hagent Hout.
  destruct (unknown_agent_aborts ["body"] ms a Hagent Hout) as [iss Hiss].
  eexists. apply buffered_failure_400.
  unfold Buffered.EventSchema. rewrite Hbody.
  rewrite (EventBodySchema_text JSON_parse _ _ _ Hparse), Hiss.
  cbn [ap issues_of app]. apply safeParse_aborted_snoc.
Qed.

End BufferedFacts.

(** C1, as stated, fails on its first disjunct: a request whose [query] is the
    empty string passes validation, the agent is asked to generate on the
    empty text, and the answer has status 200. *)
Lemma C1_empty_query_is_dispatched :
  Buffered.handler Json.JSON_parse Demo.world
    (Demo.event "{'query':'','threadId':'t','resourceId':'r','agent':'awsAgent'}")
    Lib.initial
  = (Eff.Ok {| Buffered.statusCode := 200;
               Buffered.body_ := Json.wire "{'message':'pong','agent':'awsAgent'}" |},
     {| Lib.mastraInstancePromise := Some 0;
        Lib.initializeMastra_calls := 1;
        Lib.trace :=
          [Lib.CallInitializeMastra; Lib.CallGetAgent "awsAgent";
           Lib.CallGenerate "awsAgent"
             [{| Lib.role := "user"; Lib.content := "" |}]
             {| Lib.threadId := "t"; Lib.resourceId := "r"; Lib.maxSteps := 5;
                Lib.maxRetries := 2; Lib.temperature := None |}] |}).
Proof. vm_compute. reflexivity. Qed.

Lemma C1_unknown_agent_rejected_witness :
  exists errors : list string,
    Buffered.handler Json.JSON_parse Demo.world
      (Demo.event "{'query':'hi','threadId':'t','resourceId':'r','agent':'weatherAgent'}")
      Lib.initial
    = (Eff.Ok {| Buffered.statusCode := 400;
                 Buffered.body_ :=
                   Json.JSON_stringify
                     (Json.JObject
                        [("message", Json.JString "Invalid request");
                         ("errors",
                          Json.JArray (List.map Json.JString errors))]) |},
       Lib.initial).
Proof.
  apply (C1_unknown_agent_rejected Json.JSON_parse Demo.world
           (Demo.event
              "{'query':'hi','threadId':'t','resourceId':'r','agent':'weatherAgent'}")
           (Json.wire
              "{'query':'hi','threadId':'t','resourceId':'r','agent':'weatherAgent'}")
           [("query", Json.JString "hi"); ("threadId", Json.JString "t");
            ("resourceId", Json.JString "r"); ("agent", Json.JString "weatherAgent")]
           "weatherAgent" Lib.initial);
    vm_compute; reflexivity.
Defined.

(** C2 on the code: the buffered handler hands the thread id on as it came.
    Two requests with the session [session-1], one for [s3Agent] and one for
    [lambdaAgent], both reach their agent with the thread id [session-1]; the
    streaming handler gives the same two requests the ids
    [s3Agent::session-1] and [lambdaAgent::session-1]. *)
Theorem C2_buffered_dispatch_not_namespaced :
  Observe.dispatched_threadIds
    (Lib.trace
       (snd (Buffered.handler Json.JSON_parse Demo.world
               (Demo.event
                  "{'query':'hi','threadId':'session-1','resourceId':'r','agent':'s3Agent'}")
               Lib.initial)))
  = ["session-1"]
  /\ Observe.dispatched_threadIds
       (Lib.trace
          (snd (Buffered.handler Json.JSON_parse Demo.world
                  (Demo.event
                     "{'query':'hi','threadId':'session-1','resourceId':'r','agent':'lambdaAgent'}")
                  Lib.initial)))
     = ["session-1"]
  /\ Observe.dispatched_threadIds
       (Lib.trace
          (snd (Streaming.handler Json.JSON_parse Demo.world
                  (Demo.url_event
                     "{'query':'hi','threadId':'session-1','resourceId':'r','agent':'s3Agent'}")
                  Lib.initial)))
     = ["s3Agent::session-1"]
  /\ Observe.dispatched_threadIds
       (Lib.trace
          (snd (Streaming.handler Json.JSON_parse Demo.world
                  (Demo.url_event
                     "{'query':'hi','threadId':'session-1','resourceId':'r','agent':'lambdaAgent'}")
                  Lib.initial)))
     = ["lambdaAgent::session-1"].
Proof. repeat split; vm_compute; reflexivity. Qed.

(* ===================================================================== *)
(** ** What a handler may do to the state of the process                  *)
(* ===================================================================== *)

Section Stepping.
Import Eff Json Zod Lib Process.

Variable R : State -> State -> Prop.
Variable allowed : Effect -> Prop.
Hypothesis R_refl : forall st, R st st.
Hypothesis R_trans : forall a b c, R a b -> R b c -> R a c.
Hypothesis R_emit : forall e, allowed e -> steps R (emit e).
Hypothesis R_init : steps R getMastraInstance.
Hypothesis allowed_other :
  forall e, Observe.dispatch_threadId e = None -> allowed e.

Lemma steps_ret {A} (a : A) : steps R (ret a).
Proof. intros st. apply R_refl. Qed.

Lemma steps_throw {A} (e : exn) : steps R (@throw State A e).
Proof. intros st. apply R_refl. Qed.

Lemma steps_settle {A} (r : Result A) : steps R (settle r).
Proof. destruct r; [apply steps_throw | apply steps_ret]. Qed.

Lemma steps_bind {A B} (m : M State A) (k : A -> M State B) :
  steps R m -> (forall a, steps R (k a)) -> steps R (bind m k).
Proof.
  intros Hm Hk st. specialize (Hm st). unfold bind.
  destruct (m st) as [[a | e | c] st1]; cbn [snd] in *; auto.
  eapply R_trans; [exact Hm | apply Hk].
Qed.

Lemma steps_try_catch {A} (m : M State A) (h : exn -> M State A) :
  steps R m -> (forall e, steps R (h e)) -> steps R (try_catch m h).
Proof.
  intros Hm Hh st. specialize (Hm st). unfold try_catch.
  destruct (m st) as [[a | e | c] st1]; cbn [snd] in *; auto.
  eapply R_trans; [exact Hm | apply Hh].
Qed.

Lemma steps_emit_other (e : Effect) :
  Observe.dispatch_threadId e = None -> steps R (emit e).
Proof. intros H. apply R_emit, allowed_other, H. Qed.

Lemma steps_write_all (chunks : list string) :
  steps R (Streaming.write_all chunks).
Proof.
  induction chunks as [|c cs IH]; cbn [Streaming.write_all].
  - apply steps_ret.
  - apply steps_bind; [apply steps_emit_other; reflexivity | intros _; exact IH].
Qed.

Lemma steps_forward (ts : TextStream) : steps R (Streaming.forward ts).
Proof.
  unfold Streaming.forward. apply steps_bind; [apply steps_write_all|].
  intros _. destruct (thrown ts); [apply steps_throw | apply steps_ret].
Qed.

Lemma steps_await (w : World) (p : Promise) : steps R (await w p).
Proof. apply steps_settle. Qed.

Variable JSON_parse : string -> option json.
Variable w : World.

Lemma bind_settle_inr {S A B} (a : A) (k : A -> M S B) :
  bind (settle (inr a)) k = k a.
Proof. reflexivity. Qed.

(** The buffered handler: its dispatch may carry the thread id of the
    envelope, and no other. *)
Lemma steps_buffered (event : Buffered.APIGatewayProxyEvent) :
  (forall d e,
      Shared.EventBodySchema JSON_parse ["body"] (Buffered.body event) = Valid d ->
      Observe.dispatch_threadId e = Some (Shared.threadId d) -> allowed e) ->
  steps R (Buffered.handler JSON_parse w event).
Proof.
  intros Hd. unfold Buffered.handler, Buffered.EventSchema.
  pose proof (EventBodySchema_well_reported JSON_parse ["body"]
                (Buffered.body event)) as Hwr.
  inversion Hwr as [d Hv | v i iss Hv | i iss Hv].
  - cbn [ap safeParse]. rewrite bind_settle_inr. cbn [Buffered.data_body].
    apply steps_try_catch; [|intros; apply steps_ret].
    apply steps_bind; [apply R_init|]. intros p.
    apply steps_bind; [apply steps_await|]. intros m.
    apply steps_bind; [apply steps_emit_other; reflexivity|]. intros _.
    apply steps_bind; [apply steps_settle|]. intros [ag|]; [|apply steps_throw].
    apply steps_bind.
    + apply R_emit. apply (Hd d); [symmetry; exact Hv | reflexivity].
    + intros _. apply steps_bind; [apply steps_settle | intros; apply steps_ret].
  - change (safeParse (ap (Valid Buffered.Build_EventData) (Dirty v (i :: iss))))
      with (@inr exn _ (@failure Buffered.EventData (i :: iss))).
    rewrite bind_settle_inr. apply steps_ret.
  - change (safeParse (ap (Valid Buffered.Build_EventData) (Aborted (i :: iss))))
      with (@inr exn _ (@failure Buffered.EventData (i :: iss))).
    rewrite bind_settle_inr. apply steps_ret.
Qed.

(** The streaming handler: its dispatch may carry the thread id of the
    envelope under the name of the agent, and no other. *)
Lemma steps_streaming (event : Streaming.FunctionUrlEvent) :
  (forall d e,
      Shared.EventBodySchema JSON_parse ["body"] (Streaming.body event) = Valid d ->
      Observe.dispatch_threadId e
        = Some (ThreadId.namespacedThreadId (Shared.agent d) (Shared.threadId d)) ->
      allowed e) ->
  steps R (Streaming.handler JSON_parse w event).
Proof.
  intros Hd. unfold Streaming.handler, Streaming.EventSchema.
  pose proof (EventBodySchema_well_reported JSON_parse ["body"]
                (Streaming.body event)) as Hwr.
  assert (Hfail : forall x, steps R (bind (emit (Write x)) (fun _ => emit End_))).
  { intros x. apply steps_bind; [|intros _]; apply steps_emit_other; reflexivity. }
  inversion Hwr as [d Hv | v i iss Hv | i iss Hv].
  - cbn [ap safeParse]. rewrite bind_settle_inr. cbn [Streaming.data_body].
    assert (Hok : forall e,
               Observe.dispatch_threadId e
                 = Some (ThreadId.namespacedThreadId (Shared.agent d)
                           (Shared.threadId d)) -> steps R (emit e)).
    { intros e He. apply R_emit. apply (Hd d); [symmetry; exact Hv | exact He]. }
    apply steps_try_catch; [|intros; apply Hfail].
    apply steps_bind; [apply steps_emit_other; reflexivity|]. intros _.
    apply steps_bind; [|intros _; apply steps_emit_other; reflexivity].
    destruct (String.eqb (Shared.agent d) "awsAgentNetwork").
    + apply steps_bind; [apply steps_emit_other; reflexivity|]. intros _.
      apply steps_bind; [apply steps_settle|]. intros network.
      apply steps_bind; [apply Hok; reflexivity|]. intros _.
      apply steps_bind; [apply steps_settle | intros ts; apply steps_forward].
    + apply steps_bind; [apply R_init|]. intros p.
      apply steps_bind; [apply steps_await|]. intros m.
      apply steps_bind; [apply steps_emit_other; reflexivity|]. intros _.
      apply steps_bind; [apply steps_settle|].
      intros [ag|]; [|apply steps_emit_other; reflexivity].
      apply steps_bind; [apply Hok; reflexivity|]. intros _.
      apply steps_bind; [apply steps_settle | intros ts; apply steps_forward].
  - change (safeParse (ap (Valid Streaming.Build_EventData) (Dirty v (i :: iss))))
      with (@inr exn _ (@failure Streaming.EventData (i :: iss))).
    rewrite bind_settle_inr. apply Hfail.
  - change (safeParse (ap (Valid Streaming.Build_EventData) (Aborted (i :: iss))))
      with (@inr exn _ (@failure Streaming.EventData (i :: iss))).
    rewrite bind_settle_inr. apply Hfail.
Qed.

End Stepping.

(* ===================================================================== *)
(** ** Thread ids at dispatch, and the single initialisation              *)
(* ===================================================================== *)

Section ProcessFacts.
Import Eff Json Zod Lib Process.

Lemma extends_refl (allowed : Effect -> Prop) (st : State) :
  extends allowed st st.
Proof. exists []. split; [symmetry; apply List.app_nil_r | constructor]. Qed.

Lemma extends_trans (allowed : Effect -> Prop) (a b c : State) :
  extends allowed a b -> extends allowed b c -> extends allowed a c.
Proof.
  intros (x & Hx & Fx) (y & Hy & Fy). exists (x ++ y)%list. split.
  - rewrite Hy, Hx. symmetry. apply List.app_assoc.
  - apply Forall_app. auto.
Qed.

Lemma extends_emit (allowed : Effect -> Prop) (e : Effect) :
  allowed e -> steps (extends allowed) (emit e).
Proof. intros H st. exists [e]. split; [reflexivity | repeat constructor; exact H]. Qed.

Lemma extends_getMastraInstance (allowed : Effect -> Prop) :
  allowed CallInitializeMastra -> steps (extends allowed) getMastraInstance.
Proof.
  intros H st. unfold getMastraInstance.
  destruct (mastraInstancePromise st); cbn [snd].
  - apply extends_refl.
  - exists [CallInitializeMastra]. split; [reflexivity | repeat constructor; exact H].
Qed.

(** The thread ids among effects that all stay with the id [id]. *)
Lemma dispatched_within (id : string) (added : list Effect) :
  Forall (fun e => forall x, Observe.dispatch_threadId e = Some x -> x = id) added ->
  Forall (eq id) (Observe.dispatched_threadIds added).
Proof.
  induction 1 as [|e t He _ IH]; cbn [Observe.dispatched_threadIds].
  - constructor.
  - destruct (Observe.dispatch_threadId e) as [x|] eqn:E; [|exact IH].
    constructor; [symmetry; apply He; reflexivity | exact IH].
Qed.

Variable JSON_parse : string -> option json.
Variable w : World.

(** On the streaming surface every dispatch, to an agent or to the network,
    carries the agent name, the separator and the thread id of the envelope. *)
Lemma streaming_dispatch_is_namespaced (event : Streaming.FunctionUrlEvent)
      (d : Shared.BodyContent) (st : State) :
  Shared.EventBodySchema JSON_parse ["body"] (Streaming.body event) = Valid d ->
  exists added,
    trace (snd (Streaming.handler JSON_parse w event st)) = (trace st ++ added)%list
    /\ Forall (eq (ThreadId.namespacedThreadId (Shared.agent d) (Shared.threadId d)))
              (Observe.dispatched_threadIds added).
Proof.
  intros Hv.
  set (id := ThreadId.namespacedThreadId (Shared.agent d) (Shared.threadId d)).
  set (allowed := fun e => forall x, Observe.dispatch_threadId e = Some x -> x = id).
  assert (Hsteps : steps (extends allowed) (Streaming.handler JSON_parse w event)).
  { apply steps_streaming with (allowed := allowed).
    - apply extends_refl.
    - apply extends_trans.
    - apply extends_emit.
    - apply extends_getMastraInstance. intros x Hx. discriminate Hx.
    - intros e He x Hx. congruence.
    - intros d' e Hv' He x Hx. rewrite Hv in Hv'. injection Hv' as <-.
      subst id. congruence. }
  destruct (Hsteps st) as (added & Htrace & Hall).
  exists added. split; [exact Htrace | apply dispatched_within, Hall].
Qed.

(** On the buffered surface every dispatch carries the thread id of the
    envelope as it came. *)
Lemma buffered_dispatch_is_raw (event : Buffered.APIGatewayProxyEvent)
      (d : Shared.BodyContent) (st : State) :
  Shared.EventBodySchema JSON_parse ["body"] (Buffered.body event) = Valid d ->
  exists added,
    trace (snd (Buffered.handler JSON_parse w event st)) = (trace st ++ added)%list
    /\ Forall (eq (Shared.threadId d)) (Observe.dispatched_threadIds added).
Proof.
  intros Hv.
  set (allowed := fun e => forall x, Observe.dispatch_threadId e = Some x
                                     -> x = Shared.threadId d).
  assert (Hsteps : steps (extends allowed) (Buffered.handler JSON_parse w event)).
  { apply steps_buffered with (allowed := allowed).
    - apply extends_refl.
    - apply extends_trans.
    - apply extends_emit.
    - apply extends_getMastraInstance. intros x Hx. discriminate Hx.
    - intros e He x Hx. congruence.
    - intros d' e Hv' He x Hx. rewrite Hv in Hv'. injection Hv' as <-.
      congruence. }
  destruct (Hsteps st) as (added & Htrace & Hall).
  exists added. split; [exact Htrace | apply dispatched_within, Hall].
Qed.

Lemma keeps_once_emit (e : Effect) : steps keeps_once (emit e).
Proof. intros st H. exact H. Qed.

Lemma keeps_once_getMastraInstance : steps keeps_once getMastraInstance.
Proof.
  intros st. unfold keeps_once, initialized_once, getMastraInstance.
  destruct (mastraInstancePromise st) as [p|] eqn:E; cbn [snd].
  - rewrite E. auto.
  - cbn. intros ->. auto.
Qed.

Lemma reachable_initialized_once (st : State) :
  Reachable JSON_parse w st -> initialized_once st.
Proof.
  assert (Hrefl : forall s, keeps_once s s) by (intros s H; exact H).
  assert (Htrans : forall a b c, keeps_once a b -> keeps_once b c -> keeps_once a c)
    by (unfold keeps_once; auto).
  induction 1 as [| st _ IH | st event _ IH | st event _ IH].
  - reflexivity.
  - apply keeps_once_getMastraInstance, IH.
  - exact (steps_buffered keeps_once (fun _ => True) Hrefl Htrans
             (fun e _ => keeps_once_emit e) keeps_once_getMastraInstance
             (fun _ _ => I) JSON_parse w event (fun _ _ _ _ => I) st IH).
  - exact (steps_streaming keeps_once (fun _ => True) Hrefl Htrans
             (fun e _ => keeps_once_emit e) keeps_once_getMastraInstance
             (fun _ _ => I) JSON_parse w event (fun _ _ _ _ => I) st IH).
Qed.

(** C7: in every state that a process can reach, serving buffered and
    streaming invocations and answering other callers in any order,
    [initializeMastra] has run at most once, and [getMastraInstance] returns
    the promise of that one run: two calls, at whatever two moments of the
    life of the process, return the same promise, and after a call the
    routine has run exactly once. *)
Theorem C7_mastra_initialized_once (st1 st2 : State) :
  Reachable JSON_parse w st1 -> Reachable JSON_parse w st2 ->
  fst (getMastraInstance st1) = fst (getMastraInstance st2)
  /\ initializeMastra_calls st1 <= 1
  /\ initializeMastra_calls (snd (getMastraInstance st1)) = 1.
Proof.
  intros H1 H2.
  apply reachable_initialized_once in H1, H2.
  unfold initialized_once, getMastraInstance in *.
  destruct (mastraInstancePromise st1) as [p1|], (mastraInstancePromise st2) as [p2|];
    cbn [fst snd initializeMastra_calls];
    repeat match goal with
           | H : _ /\ _ |- _ => destruct H
           end; subst; repeat split; try congruence; lia.
Qed.

End ProcessFacts.

Lemma C7_mastra_initialized_once_witness :
  fst (Lib.getMastraInstance Lib.initial)
  = fst (Lib.getMastraInstance
           (snd (Buffered.handler Json.JSON_parse Demo.world
                   (Demo.event "{'query':'hi','threadId':'t','resourceId':'r'}")
                   (snd (Lib.getMastraInstance Lib.initial)))))
  /\ Lib.initializeMastra_calls Lib.initial <= 1
  /\ Lib.initializeMastra_calls (snd (Lib.getMastraInstance Lib.initial)) = 1.
Proof.
  apply (C7_mastra_initialized_once Json.JSON_parse Demo.world).
  - apply Process.reach_initial.
  - apply Process.reach_buffered, Process.reach_getMastraInstance,
      Process.reach_initial.
Defined.

(* ===================================================================== *)
(** ** The write loop of the streaming handler                            *)
(* ===================================================================== *)

Section StreamingServerFacts.
Import Eff Json Zod Lib.

Lemma written_app (t t' : list Effect) :
  Observe.written (t ++ t')%list = (Observe.written t ++ Observe.written t')%list.
Proof.
  induction t as [|e t IH]; [reflexivity|].
  destruct e; simpl; rewrite IH; reflexivity.
Qed.

Lemma written_writes (chunks : list string) :
  Observe.written (List.map Write chunks) = chunks.
Proof. induction chunks as [|c cs IH]; simpl; [|rewrite IH]; reflexivity. Qed.

Lemma write_all_run (chunks : list string) (st : State) :
  Streaming.write_all chunks st
  = (Ok tt,
     {| mastraInstancePromise := mastraInstancePromise st;
        initializeMastra_calls := initializeMastra_calls st;
        trace := (trace st ++ List.map Write chunks)%list |}).
Proof.
  revert st. induction chunks as [|c cs IH]; intros st.
  - destruct st. cbn. rewrite List.app_nil_r. reflexivity.
  - cbn [Streaming.write_all]. unfold bind at 1. unfold emit, modify.
    rewrite IH. cbn. rewrite <- List.app_assoc. reflexivity.
Qed.

Variable JSON_parse : string -> option json.
Variable w : World.

(** On the streaming surface a validation failure is written to the
    response as [{ message: 'Invalid request', errors }] and the response is
    ended; nothing is initialised or dispatched, and no status is set. *)
Lemma streaming_failure_written (event : Streaming.FunctionUrlEvent)
      (errors : list ZodIssue) (st : State) :
  safeParse (Streaming.EventSchema JSON_parse event) = inr (failure errors) ->
  Streaming.handler JSON_parse w event st
  = (Ok tt,
     {| mastraInstancePromise := mastraInstancePromise st;
        initializeMastra_calls := initializeMastra_calls st;
        trace :=
          (trace st
             ++ [Write (JSON_stringify
                          (JObject [("message", JString "Invalid request");
                                    ("errors",
                                     JArray (List.map JString
                                               (List.map message errors)))]));
                 End_])%list |}).
Proof.
  intros H. unfold Streaming.handler. rewrite H. rewrite bind_settle_inr.
  unfold bind, emit, modify. cbn [fst snd trace mastraInstancePromise
                                    initializeMastra_calls].
  rewrite List.map_map, <- List.app_assoc. reflexivity.
Qed.

End StreamingServerFacts.

(* ===================================================================== *)
(** ** The streaming transport of the client                              *)
(* ===================================================================== *)

Section StreamingClientFacts.
Import Eff Json InvokeApiUtils.

Lemma delivered_app (t t' : Trace) :
  Observe.delivered (t ++ t')%list
  = (Observe.delivered t ++ Observe.delivered t')%list.
Proof.
  induction t as [|e t IH]; [reflexivity|].
  destruct e; simpl; rewrite IH; reflexivity.
Qed.

Variable env : Env.
Variable Decoder : Type.
Variable new_TextDecoder : Decoder.
Variable decode : Decoder -> list byte -> Decoder * string.

(** C4: when the request went out and the response has a status outside
    200..299, or has no body, the invocation throws, and the fetch is all it
    added to the trace: [onChunk] was not called. The error names the status,
    or the missing body. *)
Theorem C4_no_fragment_before_transport_error
        (params : StreamingInvokeParams) (c : Credentials) (url : URL)
        (signed : HttpRequest) (response : Response) (t : Trace) :
  credentialProvider env (sp_profile params) = inr (Some c) ->
  newURL env (functionUrl params) = inr url ->
  sign env c (sp_region params) "lambda" (prepare url "POST" (sp_body params))
    = inr signed ->
  fetch env (functionUrl params) signed = inr response ->
  ok response = false \/ body response = None ->
  exists e,
    invokeStreamingRequest env Decoder new_TextDecoder decode params t
      = (Throw e, (t ++ [CallFetch (functionUrl params) signed])%list)
    /\ Observe.delivered (t ++ [CallFetch (functionUrl params) signed])%list
       = Observe.delivered t
    /\ (ok response = false ->
        forall errorText, text response = inr errorText ->
        e = "Streaming request failed with status "
              ++ JS.string_of_Z (status response))
    /\ (ok response = true ->
        e = "No response body received from the streaming request").
Proof.
  intros Hc Hu Hs Hf Hbad.
  unfold invokeStreamingRequest, bind, settle, emit, modify, throw, ret.
  rewrite Hc, Hu, Hs, Hf. cbn [fst snd].
  rewrite delivered_app. cbn [Observe.delivered]. rewrite List.app_nil_r.
  destruct (ok response) eqn:Hok; cbn [negb].
  - destruct Hbad as [Hbad | Hbad]; [discriminate|]. rewrite Hbad.
    eexists. repeat split; try reflexivity. discriminate.
  - destruct (text response) as [err | errorText];
      eexists; (split; [reflexivity|]); (split; [reflexivity|]);
      split; try discriminate; intros _ x Hx; congruence.
Qed.

(** The read loop is the decoder run over the reads and the callback
    called on what it gives: for a callback that returns, the loop returns
    and leaves the trace of those calls. *)
Lemma read_loop_calls (values : list (option (list byte))) (d : Decoder)
      (onChunk : string -> M Trace unit) (t : Trace) :
  (forall chunk t0, fst (onChunk chunk t0) = Ok tt) ->
  read_loop Decoder decode (List.map ReadValue values) d onChunk t
  = (Ok tt, Observe.calls onChunk (decode_all Decoder decode d values) t).
Proof.
  intros Hcb. revert d t.
  induction values as [|[value|] rest IH]; intros d t;
    cbn [List.map read_loop decode_all].
  - reflexivity.
  - destruct (decode d value) as [d' chunk]. cbn [Observe.calls].
    unfold bind at 1. unfold emit at 1, modify. cbn [fst snd].
    unfold bind at 1.
    specialize (Hcb chunk (t ++ [CallOnChunk chunk])%list).
    destruct (onChunk chunk (t ++ [CallOnChunk chunk])%list) as [[[] | e | code] t1];
      cbn [fst snd] in *; try discriminate Hcb.
    apply IH.
  - apply IH.
Qed.

(** The same up to a read that fails. *)
Lemma read_loop_calls_until_error (values : list (option (list byte)))
      (e : exn) (rest : list ReadStep) (d : Decoder)
      (onChunk : string -> M Trace unit) (t : Trace) :
  (forall chunk t0, fst (onChunk chunk t0) = Ok tt) ->
  read_loop Decoder decode (List.map ReadValue values ++ ReadThrow e :: rest)%list
            d onChunk t
  = (Throw e, Observe.calls onChunk (decode_all Decoder decode d values) t).
Proof.
  intros Hcb. revert d t.
  induction values as [|[value|] more IH]; intros d t;
    cbn [List.map]; rewrite <- ?List.app_comm_cons;
    cbn [app read_loop decode_all].
  - reflexivity.
  - destruct (decode d value) as [d' chunk]. cbn [Observe.calls].
    unfold bind at 1. unfold emit at 1, modify. cbn [fst snd].
    unfold bind at 1.
    specialize (Hcb chunk (t ++ [CallOnChunk chunk])%list).
    destruct (onChunk chunk (t ++ [CallOnChunk chunk])%list) as [[[] | e' | code] t1];
      cbn [fst snd] in *; try discriminate Hcb.
    apply IH.
  - apply IH.
Qed.

(** The calls noted in the trace of the calls are the chunks, when the
    callback notes none itself. *)
Lemma delivered_calls (onChunk : string -> M Trace unit) (chunks : list string)
      (t : Trace) :
  (forall chunk t0, exists extra,
      onChunk chunk t0 = (Ok tt, (t0 ++ extra)%list)
      /\ Observe.delivered extra = []) ->
  Observe.delivered (Observe.calls onChunk chunks t)
  = (Observe.delivered t ++ chunks)%list.
Proof.
  intros Hcb. revert t. induction chunks as [|chunk rest IH]; intros t;
    cbn [Observe.calls].
  - symmetry. apply List.app_nil_r.
  - destruct (Hcb chunk (t ++ [CallOnChunk chunk])%list) as (extra & -> & Hex).
    cbn [snd]. rewrite IH, !delivered_app, Hex. cbn [Observe.delivered].
    rewrite List.app_nil_r, <- List.app_assoc. reflexivity.
Qed.

(** One chunk for each read that has a value. *)
Lemma decode_all_length (values : list (option (list byte))) (d : Decoder) :
  List.length (decode_all Decoder decode d values)
  = Observe.reads_with_value values.
Proof.
  revert d. induction values as [|[value|] rest IH]; intros d;
    cbn [decode_all Observe.reads_with_value].
  - reflexivity.
  - destruct (decode d value) as [d' chunk]. cbn [List.length].
    rewrite IH. reflexivity.
  - apply IH.
Qed.

(** Whatever the chunking of the bytes, the read loop calls the callback
    once for each read that has a value, in the order of the reads, with the
    successive outputs of the one decoder: it leaves the trace that these
    calls of the callback leave, one after the other, and the calls it notes
    are those outputs. *)
Theorem read_loop_delivers (values : list (option (list byte))) (d : Decoder)
      (onChunk : string -> M Trace unit) (t : Trace) :
  (forall chunk t0, exists extra,
      onChunk chunk t0 = (Ok tt, (t0 ++ extra)%list)
      /\ Observe.delivered extra = []) ->
  read_loop Decoder decode (List.map ReadValue values) d onChunk t
  = (Ok tt, Observe.calls onChunk (decode_all Decoder decode d values) t)
  /\ Observe.delivered (Observe.calls onChunk (decode_all Decoder decode d values) t)
     = (Observe.delivered t ++ decode_all Decoder decode d values)%list
  /\ List.length (decode_all Decoder decode d values)
     = Observe.reads_with_value values.
Proof.
  intros Hcb. split; [|split].
  - apply read_loop_calls. intros chunk t0.
    destruct (Hcb chunk t0) as (extra & -> & _). reflexivity.
  - apply delivered_calls, Hcb.
  - apply decode_all_length.
Qed.

(** When a read of the response body fails, the callback has been called
    on the fragments read before it, in order, and on nothing else, and the
    transport throws the error of the read; what would have come after is
    never asked for. *)
Theorem read_error_after_fragments (values : list (option (list byte)))
        (e : exn) (rest : list ReadStep) (d : Decoder)
        (onChunk : string -> M Trace unit) (t : Trace) :
  (forall chunk t0, exists extra,
      onChunk chunk t0 = (Ok tt, (t0 ++ extra)%list)
      /\ Observe.delivered extra = []) ->
  read_loop Decoder decode (List.map ReadValue values ++ ReadThrow e :: rest)%list
            d onChunk t
  = (Throw e, Observe.calls onChunk (decode_all Decoder decode d values) t)
  /\ Observe.delivered (Observe.calls onChunk (decode_all Decoder decode d values) t)
     = (Observe.delivered t ++ decode_all Decoder decode d values)%list.
Proof.
  intros Hcb. split.
  - apply read_loop_calls_until_error. intros chunk t0.
    destruct (Hcb chunk t0) as (extra & -> & _). reflexivity.
  - apply delivered_calls, Hcb.
Qed.

End StreamingClientFacts.

(* ===================================================================== *)
(** ** The decoder of the streaming transport                             *)
(* ===================================================================== *)

Section TextDecoderFacts.
Import TextDecoder.

Lemma run_app (d : t) (a b : list byte) :
  run d (a ++ b)%list
  = (fst (run (fst (run d a)) b),
     (snd (run d a) ++ snd (run (fst (run d a)) b))%list).
Proof.
  revert d. induction a as [|x a IH]; intros d.
  - change (([] ++ b)%list) with b. cbn [run fst snd].
    destruct (run d b); reflexivity.
  - change (((x :: a) ++ b)%list) with (x :: (a ++ b)%list). cbn [run].
    destruct (step d x) as [d1 o1]. rewrite IH.
    destruct (run d1 a) as [d2 o2]. cbn [fst snd].
    destruct (run d2 b) as [d3 o3]. cbn [fst snd].
    rewrite List.app_assoc. reflexivity.
Qed.

Lemma string_of_list_byte_app (a b : list byte) :
  string_of_list_byte (a ++ b)%list
  = string_of_list_byte a ++ string_of_list_byte b.
Proof.
  unfold string_of_list_byte.
  induction a as [|x a IH]; [reflexivity|].
  cbn [List.map List.app string_of_list_ascii]. rewrite IH. reflexivity.
Qed.

Ltac to_prop :=
  repeat match goal with
         | H : (_ && _)%bool = true |- _ => apply andb_prop in H; destruct H
         | H : (_ || _)%bool = true |- _ => apply orb_prop in H; destruct H
         | H : (_ && _)%bool = false |- _ => apply andb_false_iff in H; destruct H
         | H : (_ || _)%bool = false |- _ => apply orb_false_elim in H; destruct H
         | H : (_ <=? _)%N = true |- _ => apply N.leb_le in H
         | H : (_ <=? _)%N = false |- _ => apply N.leb_gt in H
         | H : (_ =? _)%N = true |- _ => apply N.eqb_eq in H
         | H : (_ =? _)%N = false |- _ => apply N.eqb_neq in H
         | H : continuation _ = true |- _ => unfold continuation in H
         | H : continuation _ = false |- _ => unfold continuation in H
         end.

(** Well-formed text goes through a decoder at rest as it is. *)
Lemma run_idle_well_formed (n : nat) :
  forall bytes, List.length bytes <= n -> well_formed bytes = true ->
                run idle bytes = (idle, bytes).
Proof.
  induction n as [|n IH]; intros bytes Hlen Hwf.
  - destruct bytes; [reflexivity | cbn in Hlen; lia].
  - destruct bytes as [|b1 r1]; [reflexivity|].
    cbn [well_formed] in Hwf. cbn [List.length] in Hlen.
    cbn [run]. unfold step at 1. cbn [needed idle BOM_seen]. unfold first.
    destruct (to_N b1 <=? 0x7F)%N eqn:E1.
    + rewrite (IH r1) by (assumption || lia). reflexivity.
    + destruct r1 as [|b2 r2]; [discriminate|]. cbn [List.length] in Hlen.
      destruct ((0xC2 <=? to_N b1) && (to_N b1 <=? 0xDF))%N eqn:E2.
      * apply andb_prop in Hwf. destruct Hwf as [Hc2 Hwf].
        cbn [run]. unfold step at 1. cbn [needed lower upper pending BOM_seen].
        unfold continuation in Hc2. rewrite Hc2.
        rewrite (IH r2) by (assumption || lia). reflexivity.
      * destruct r2 as [|b3 r3]; [discriminate|]. cbn [List.length] in Hlen.
        match type of Hwf with
        | (if ?c then _ else _) = true => destruct c eqn:E3
        end.
        -- apply andb_prop in Hwf. destruct Hwf as [Hc3 Hwf].
           assert (Hlead : ((0xE0 <=? to_N b1) && (to_N b1 <=? 0xEF))%N = true).
           { clear - E3. to_prop; apply andb_true_intro; split; apply N.leb_le; lia. }
           rewrite Hlead.
           cbn [run]. unfold step at 1. cbn [needed lower upper pending BOM_seen].
           assert (H2 : ((((if (to_N b1 =? 0xE0)%N then 0xA0 else 0x80) <=? to_N b2)
                          && (to_N b2 <=? (if (to_N b1 =? 0xED)%N then 0x9F else 0xBF)))%N
                         = true)).
           { clear - E3. apply andb_true_intro.
             split; apply N.leb_le;
               destruct (to_N b1 =? 0xE0)%N eqn:?, (to_N b1 =? 0xED)%N eqn:?;
               to_prop; lia. }
           rewrite H2.
           unfold step at 1. cbn [needed lower upper pending BOM_seen].
           unfold continuation in Hc3. rewrite Hc3.
           rewrite (IH r3) by (assumption || lia). reflexivity.
        -- destruct r3 as [|b4 r4]; [discriminate|]. cbn [List.length] in Hlen.
           apply andb_prop in Hwf. destruct Hwf as [Hwf Hwf4].
           apply andb_prop in Hwf. destruct Hwf as [Hwf Hc4].
           apply andb_prop in Hwf. destruct Hwf as [H12 Hc3].
           assert (Hnot3 : ((0xE0 <=? to_N b1) && (to_N b1 <=? 0xEF))%N = false).
           { clear - H12.
             destruct ((0xE0 <=? to_N b1) && (to_N b1 <=? 0xEF))%N eqn:E; [|reflexivity].
             exfalso. to_prop; lia. }
           rewrite Hnot3.
           assert (Hlead : ((0xF0 <=? to_N b1) && (to_N b1 <=? 0xF4))%N = true).
           { clear - H12. to_prop; apply andb_true_intro; split; apply N.leb_le; lia. }
           rewrite Hlead.
           cbn [run]. unfold step at 1. cbn [needed lower upper pending BOM_seen].
           assert (H2 : ((((if (to_N b1 =? 0xF0)%N then 0x90 else 0x80) <=? to_N b2)
                          && (to_N b2 <=? (if (to_N b1 =? 0xF4)%N then 0x8F else 0xBF)))%N
                         = true)).
           { clear - H12. apply andb_true_intro.
             split; apply N.leb_le;
               destruct (to_N b1 =? 0xF0)%N eqn:?, (to_N b1 =? 0xF4)%N eqn:?;
               to_prop; lia. }
           rewrite H2.
           unfold step at 1. cbn [needed lower upper pending BOM_seen].
           unfold continuation in Hc3. rewrite Hc3.
           unfold step at 1. cbn [needed lower upper pending BOM_seen].
           unfold continuation in Hc4. rewrite Hc4.
           rewrite (IH r4) by (assumption || lia). reflexivity.
Qed.


Lemma is_BOM_lead (b1 b2 b3 : byte) :
  is_BOM [b1; b2; b3] = true -> to_N b1 = 0xEF%N.
Proof.
  unfold is_BOM. intros H. apply andb_prop in H. destruct H as [H _].
  apply andb_prop in H. destruct H as [H _].
  apply byte_dec_bl in H. subst b1. reflexivity.
Qed.

Lemma strip_BOM_other (b1 : byte) (rest : list byte) :
  to_N b1 <> 0xEF%N -> strip_BOM (b1 :: rest) = b1 :: rest.
Proof.
  intros H. destruct rest as [|b2 [|b3 rest]]; try reflexivity.
  unfold strip_BOM. destruct (is_BOM [b1; b2; b3]) eqn:E; [|reflexivity].
  apply is_BOM_lead in E. contradiction.
Qed.

(** A fresh decoder gives well-formed text as it is, but for a U+FEFF at
    its start, and is at rest at the end of it. *)
Lemma run_new_well_formed (bytes : list byte) :
  well_formed bytes = true ->
  run new bytes
  = (match bytes with [] => new | _ => idle end, strip_BOM bytes).
Proof.
  intros Hwf.
  destruct bytes as [|b1 r1]; [reflexivity|].
  cbn [well_formed] in Hwf.
  cbn [run]. unfold step at 1. cbn [needed new BOM_seen]. unfold first.
  destruct (to_N b1 <=? 0x7F)%N eqn:E1.
  - rewrite (run_idle_well_formed _ r1 (le_n _) Hwf).
    rewrite strip_BOM_other by (clear - E1; to_prop; lia). reflexivity.
  - destruct r1 as [|b2 r2]; [discriminate|].
    destruct ((0xC2 <=? to_N b1) && (to_N b1 <=? 0xDF))%N eqn:E2.
    + apply andb_prop in Hwf. destruct Hwf as [Hc2 Hwf].
      cbn [run]. unfold step at 1. cbn [needed lower upper pending BOM_seen].
      unfold continuation in Hc2. rewrite Hc2.
      rewrite (run_idle_well_formed _ r2 (le_n _) Hwf).
      rewrite strip_BOM_other by (clear - E2; to_prop; lia). reflexivity.
    + destruct r2 as [|b3 r3]; [discriminate|].
      match type of Hwf with
      | (if ?c then _ else _) = true => destruct c eqn:E3
      end.
      * apply andb_prop in Hwf. destruct Hwf as [Hc3 Hwf].
        assert (Hlead : ((0xE0 <=? to_N b1) && (to_N b1 <=? 0xEF))%N = true).
        { clear - E3. to_prop; apply andb_true_intro; split; apply N.leb_le; lia. }
        rewrite Hlead.
        cbn [run]. unfold step at 1. cbn [needed lower upper pending BOM_seen].
        assert (H2 : ((((if (to_N b1 =? 0xE0)%N then 0xA0 else 0x80) <=? to_N b2)
                       && (to_N b2 <=? (if (to_N b1 =? 0xED)%N then 0x9F else 0xBF)))%N
                      = true)).
        { clear - E3. apply andb_true_intro.
          split; apply N.leb_le;
            destruct (to_N b1 =? 0xE0)%N eqn:?, (to_N b1 =? 0xED)%N eqn:?;
            to_prop; lia. }
        rewrite H2.
        unfold step at 1. cbn [needed lower upper pending BOM_seen].
        unfold continuation in Hc3. rewrite Hc3.
        rewrite (run_idle_well_formed _ r3 (le_n _) Hwf).
        cbn [List.app put strip_BOM].
        destruct (is_BOM [b1; b2; b3]); reflexivity.
      * destruct r3 as [|b4 r4]; [discriminate|].
        apply andb_prop in Hwf. destruct Hwf as [Hwf Hwf4].
        apply andb_prop in Hwf. destruct Hwf as [Hwf Hc4].
        apply andb_prop in Hwf. destruct Hwf as [H12 Hc3].
        assert (Hnot3 : ((0xE0 <=? to_N b1) && (to_N b1 <=? 0xEF))%N = false).
        { clear - H12.
          destruct ((0xE0 <=? to_N b1) && (to_N b1 <=? 0xEF))%N eqn:E; [|reflexivity].
          exfalso. to_prop; lia. }
        rewrite Hnot3.
        assert (Hlead : ((0xF0 <=? to_N b1) && (to_N b1 <=? 0xF4))%N = true).
        { clear - H12. to_prop; apply andb_true_intro; split; apply N.leb_le; lia. }
        rewrite Hlead.
        cbn [run]. unfold step at 1. cbn [needed lower upper pending BOM_seen].
        assert (H2 : ((((if (to_N b1 =? 0xF0)%N then 0x90 else 0x80) <=? to_N b2)
                       && (to_N b2 <=? (if (to_N b1 =? 0xF4)%N then 0x8F else 0xBF)))%N
                      = true)).
        { clear - H12. apply andb_true_intro.
          split; apply N.leb_le;
            destruct (to_N b1 =? 0xF0)%N eqn:?, (to_N b1 =? 0xF4)%N eqn:?;
            to_prop; lia. }
        rewrite H2.
        unfold step at 1. cbn [needed lower upper pending BOM_seen].
        unfold continuation in Hc3. rewrite Hc3.
        unfold step at 1. cbn [needed lower upper pending BOM_seen].
        unfold continuation in Hc4. rewrite Hc4.
        rewrite (run_idle_well_formed _ r4 (le_n _) Hwf4).
        rewrite strip_BOM_other by (clear - H12; to_prop; lia). reflexivity.
Qed.


Lemma concat_cons (x : string) (l : list string) :
  String.concat "" (x :: l) = x ++ String.concat "" l.
Proof.
  destruct l as [|y l]; cbn [String.concat]; [|reflexivity].
  induction x as [|c x IH]; [reflexivity | cbn; rewrite <- IH; reflexivity].
Qed.

Lemma list_byte_of_string_app (a b : string) :
  list_byte_of_string (a ++ b)
  = (list_byte_of_string a ++ list_byte_of_string b)%list.
Proof.
  unfold list_byte_of_string.
  induction a as [|c a IH]; [reflexivity|].
  cbn [append list_ascii_of_string List.map List.app]. rewrite IH. reflexivity.
Qed.

(** However the bytes are cut into reads, the outputs of the decoder joined
    are the output for the bytes in one piece. *)
Lemma decode_all_concat (values : list (option (list byte))) (d : t) :
  String.concat "" (InvokeApiUtils.decode_all t decode d values)
  = string_of_list_byte (snd (run d (Observe.bytes_read values))).
Proof.
  revert d. induction values as [|[value|] rest IH]; intros d;
    cbn [InvokeApiUtils.decode_all Observe.bytes_read].
  - reflexivity.
  - unfold decode at 1. rewrite run_app.
    destruct (run d value) as [d1 out1]. cbn [fst snd].
    rewrite concat_cons, IH, string_of_list_byte_app. reflexivity.
  - apply IH.
Qed.

Lemma begins_with_BOM_strip (text : string) :
  Observe.begins_with_BOM text = false ->
  strip_BOM (list_byte_of_string text) = list_byte_of_string text.
Proof.
  unfold Observe.begins_with_BOM, strip_BOM.
  destruct (list_byte_of_string text) as [|b1 [|b2 [|b3 rest]]]; try reflexivity.
  intros ->. reflexivity.
Qed.

Lemma begins_with_BOM_prefix (a b : string) :
  Observe.begins_with_BOM (a ++ b) = false ->
  a <> "" ->
  well_formed (list_byte_of_string a) = true ->
  strip_BOM (list_byte_of_string a) = list_byte_of_string a.
Proof.
  unfold Observe.begins_with_BOM. rewrite list_byte_of_string_app.
  intros H Hne Hwf.
  destruct (list_byte_of_string a) as [|b1 [|b2 [|b3 rest]]] eqn:E;
    try reflexivity.
  cbn [List.app] in H. unfold strip_BOM. rewrite H. reflexivity.
Qed.

(** A decoder at rest gives each well-formed fragment as it is. *)
Lemma decode_all_idle (fragments : list string) :
  Forall (fun f => well_formed (list_byte_of_string f) = true) fragments ->
  InvokeApiUtils.decode_all t decode idle
    (List.map (fun f => Some (list_byte_of_string f)) fragments)
  = fragments.
Proof.
  induction 1 as [|f rest Hf _ IH]; cbn [List.map InvokeApiUtils.decode_all].
  - reflexivity.
  - unfold decode at 1. rewrite (run_idle_well_formed _ _ (le_n _) Hf).
    rewrite string_of_list_byte_of_string, IH. reflexivity.
Qed.

(** A fresh decoder gives each well-formed fragment as it is when the text
    does not begin with U+FEFF. *)
Lemma decode_all_new (fragments : list string) :
  Forall (fun f => well_formed (list_byte_of_string f) = true) fragments ->
  Observe.begins_with_BOM (String.concat "" fragments) = false ->
  InvokeApiUtils.decode_all t decode new
    (List.map (fun f => Some (list_byte_of_string f)) fragments)
  = fragments.
Proof.
  induction 1 as [|f rest Hf Hrest IH]; intros Hb;
    cbn [List.map InvokeApiUtils.decode_all].
  - reflexivity.
  - rewrite concat_cons in Hb.
    unfold decode at 1. rewrite (run_new_well_formed _ Hf).
    destruct f as [|c f].
    + cbn [list_byte_of_string list_ascii_of_string List.map strip_BOM
             string_of_list_byte string_of_list_ascii].
      rewrite (IH Hb). reflexivity.
    + rewrite (begins_with_BOM_prefix _ _ Hb) by (discriminate || assumption).
      rewrite string_of_list_byte_of_string.
      change (list_byte_of_string (String c f))
        with (byte_of_ascii c :: list_byte_of_string f).
      cbn iota. rewrite (decode_all_idle _ Hrest). reflexivity.
Qed.

End TextDecoderFacts.

(** C5 on the code: a response whose text begins with U+FEFF. The server
    writes the chunk as the agent streamed it and the wire carries its
    bytes; the decoder of the transport takes the U+FEFF for a byte order
    mark, and the callback is called with [Hi] alone: the arguments of the
    calls joined are not the response. *)
Theorem C5_leading_BOM_is_dropped :
  Observe.written
    (Lib.trace (snd (Streaming.handler Json.JSON_parse Cases.BOM_world
                       (Demo.url_event (Cases.envelope (Some "s3Agent")))
                       Lib.initial)))
  = [Cases.with_BOM]
  /\ InvokeApiUtils.body Cases.BOM_response
     = Some [InvokeApiUtils.ReadValue (Some (list_byte_of_string Cases.with_BOM))]
  /\ TextDecoder.well_formed (list_byte_of_string Cases.with_BOM) = true
  /\ InvokeApiUtils.invokeStreamingRequest (Demo.env Cases.BOM_response)
       TextDecoder.t TextDecoder.new TextDecoder.decode Demo.streaming_params []
     = (Eff.Ok tt,
        [InvokeApiUtils.CallFetch "https://fn.example/" Demo.request;
         InvokeApiUtils.CallOnChunk "Hi"; InvokeApiUtils.StdoutWrite "Hi"])
  /\ String.eqb (String.concat "" ["Hi"]) Cases.with_BOM = false
  /\ String.length Cases.with_BOM = 5.
Proof. repeat split; vm_compute; reflexivity. Qed.

(** C5, amended: when the response is in 200..299 and has a body, the
    invocation returns for any callback that returns, and what it leaves is
    the trace of the calls of that callback, once for each read that has a
    value, in the order of the reads, with the successive outputs of the
    decoder. Whatever the cutting of the bytes into reads, the arguments of
    the calls joined are the text of the response without the U+FEFF that
    it may begin with; and when every read is a fragment as the server wrote
    it and the text does not begin with U+FEFF, the arguments are the
    fragments themselves. *)
Theorem C5_fragments_delivered_in_order
        (env : InvokeApiUtils.Env) (params : InvokeApiUtils.StreamingInvokeParams)
        (c : InvokeApiUtils.Credentials) (url : InvokeApiUtils.URL)
        (signed : InvokeApiUtils.HttpRequest) (response : InvokeApiUtils.Response)
        (values : list (option (list byte))) (t : InvokeApiUtils.Trace) :
  InvokeApiUtils.credentialProvider env (InvokeApiUtils.sp_profile params)
  = inr (Some c) ->
  InvokeApiUtils.newURL env (InvokeApiUtils.functionUrl params) = inr url ->
  InvokeApiUtils.sign env c (InvokeApiUtils.sp_region params) "lambda"
    (InvokeApiUtils.prepare url "POST" (InvokeApiUtils.sp_body params))
  = inr signed ->
  InvokeApiUtils.fetch env (InvokeApiUtils.functionUrl params) signed
  = inr response ->
  InvokeApiUtils.ok response = true ->
  InvokeApiUtils.body response
  = Some (List.map InvokeApiUtils.ReadValue values) ->
  (forall chunk t0, fst (InvokeApiUtils.onChunk params chunk t0) = Eff.Ok tt) ->
  InvokeApiUtils.invokeStreamingRequest env TextDecoder.t TextDecoder.new
    TextDecoder.decode params t
  = (Eff.Ok tt,
     Observe.calls (InvokeApiUtils.onChunk params)
       (InvokeApiUtils.decode_all TextDecoder.t TextDecoder.decode
          TextDecoder.new values)
       (t ++ [InvokeApiUtils.CallFetch (InvokeApiUtils.functionUrl params) signed])%list)
  /\ List.length (InvokeApiUtils.decode_all TextDecoder.t TextDecoder.decode
                    TextDecoder.new values)
     = Observe.reads_with_value values
  /\ (forall text,
        Observe.bytes_read values = list_byte_of_string text ->
        TextDecoder.well_formed (list_byte_of_string text) = true ->
        String.concat ""
          (InvokeApiUtils.decode_all TextDecoder.t TextDecoder.decode
             TextDecoder.new values)
        = string_of_list_byte (TextDecoder.strip_BOM (list_byte_of_string text))
        /\ (Observe.begins_with_BOM text = false ->
            String.concat ""
              (InvokeApiUtils.decode_all TextDecoder.t TextDecoder.decode
                 TextDecoder.new values)
            = text))
  /\ (forall fragments,
        values = List.map (fun f => Some (list_byte_of_string f)) fragments ->
        Forall (fun f => TextDecoder.well_formed (list_byte_of_string f) = true)
               fragments ->
        Observe.begins_with_BOM (String.concat "" fragments) = false ->
        InvokeApiUtils.decode_all TextDecoder.t TextDecoder.decode
          TextDecoder.new values
        = fragments).
Proof.
  intros Hc Hu Hs Hf Hok Hbody Hcb.
  split; [|split; [|split]].
  - unfold InvokeApiUtils.invokeStreamingRequest.
    unfold Eff.bind at 1. unfold Eff.settle at 1. rewrite Hc. cbn [Eff.ret].
    unfold Eff.bind at 1. unfold Eff.settle at 1. rewrite Hu. cbn [Eff.ret].
    unfold Eff.bind at 1. unfold Eff.settle at 1. rewrite Hs. cbn [Eff.ret].
    unfold Eff.bind at 1. unfold InvokeApiUtils.emit at 1, Eff.modify.
    unfold Eff.bind at 1. unfold Eff.settle at 1. rewrite Hf. cbn [Eff.ret].
    rewrite Hok, Hbody. cbn [negb].
    apply read_loop_calls. exact Hcb.
  - apply decode_all_length.
  - intros text Hbytes Hwf.
    assert (Hall : String.concat ""
                     (InvokeApiUtils.decode_all TextDecoder.t TextDecoder.decode
                        TextDecoder.new values)
                   = string_of_list_byte
                       (TextDecoder.strip_BOM (list_byte_of_string text))).
    { rewrite decode_all_concat, Hbytes, (run_new_well_formed _ Hwf). reflexivity. }
    split; [exact Hall|].
    intros Hb. rewrite Hall, (begins_with_BOM_strip _ Hb).
    apply string_of_list_byte_of_string.
  - intros fragments -> Hwf Hb. apply decode_all_new; assumption.
Qed.

Lemma C4_no_fragment_before_transport_error_witness :
  InvokeApiUtils.ok Demo.bad_gateway = false
  /\ exists e,
      InvokeApiUtils.invokeStreamingRequest (Demo.env Demo.bad_gateway)
        unit tt Demo.decode Demo.streaming_params []
      = (Eff.Throw e,
         ([] ++ [InvokeApiUtils.CallFetch
                   (InvokeApiUtils.functionUrl Demo.streaming_params)
                   Demo.request])%list)
      /\ Observe.delivered
           ([] ++ [InvokeApiUtils.CallFetch
                     (InvokeApiUtils.functionUrl Demo.streaming_params)
                     Demo.request])%list
         = Observe.delivered []
      /\ (InvokeApiUtils.ok Demo.bad_gateway = false ->
          forall errorText,
            InvokeApiUtils.text Demo.bad_gateway = inr errorText ->
            e = "Streaming request failed with status "
                  ++ JS.string_of_Z (InvokeApiUtils.status Demo.bad_gateway))
      /\ (InvokeApiUtils.ok Demo.bad_gateway = true ->
          e = "No response body received from the streaming request").
Proof.
  split; [reflexivity|].
  apply (C4_no_fragment_before_transport_error (Demo.env Demo.bad_gateway)
           unit tt Demo.decode Demo.streaming_params Demo.credentials Demo.url
           Demo.request Demo.bad_gateway []);
    try reflexivity.
  left. reflexivity.
Defined.


(* ===================================================================== *)
(** ** The buffered transport of the client                               *)
(* ===================================================================== *)

Section BufferedClientFacts.
Import Eff Json InvokeApiUtils.

Variable env : Env.

(** A response outside 200..299 whose body is JSON is turned into an error
    that names the status. *)
Lemma buffered_client_non2xx_json
      (params : InvokeParams) (c : Credentials) (url : URL) (signed : HttpRequest)
      (response : Response) (responseBody : json) (t : Trace) :
  credentialProvider env (profile params) = inr (Some c) ->
  newURL env (endpoint params) = inr url ->
  sign env c (region params) "execute-api"
       (prepare url (match ip_method params with Some m => m | None => "POST" end)
                (ip_body params)) = inr signed ->
  fetch env (endpoint params) signed = inr response ->
  json_ response = inr responseBody ->
  ok response = false ->
  invokeSignedApiRequest env params t
  = (Throw ("Request failed with status " ++ JS.string_of_Z (status response)),
     (t ++ [CallFetch (endpoint params) signed])%list).
Proof.
  intros Hc Hu Hs Hf Hj Hok.
  unfold invokeSignedApiRequest, bind, settle, emit, modify, throw, ret.
  rewrite Hc, Hu, Hs, Hf, Hj, Hok. reflexivity.
Qed.

(** A response outside 200..299 always ends in a thrown error, of whatever
    kind. *)
Lemma buffered_client_non2xx_throws
      (params : InvokeParams) (c : Credentials) (url : URL) (signed : HttpRequest)
      (response : Response) (t : Trace) :
  credentialProvider env (profile params) = inr (Some c) ->
  newURL env (endpoint params) = inr url ->
  sign env c (region params) "execute-api"
       (prepare url (match ip_method params with Some m => m | None => "POST" end)
                (ip_body params)) = inr signed ->
  fetch env (endpoint params) signed = inr response ->
  ok response = false ->
  exists e,
    invokeSignedApiRequest env params t
    = (Throw e, (t ++ [CallFetch (endpoint params) signed])%list).
Proof.
  intros Hc Hu Hs Hf Hok.
  unfold invokeSignedApiRequest, bind, settle, emit, modify, throw, ret.
  rewrite Hc, Hu, Hs, Hf. cbn [fst snd].
  destruct (json_ response); [|rewrite Hok]; eexists; reflexivity.
Qed.

(** A response in 200..299 with a JSON body is returned as parsed. *)
Lemma buffered_client_2xx
      (params : InvokeParams) (c : Credentials) (url : URL) (signed : HttpRequest)
      (response : Response) (responseBody : json) (t : Trace) :
  credentialProvider env (profile params) = inr (Some c) ->
  newURL env (endpoint params) = inr url ->
  sign env c (region params) "execute-api"
       (prepare url (match ip_method params with Some m => m | None => "POST" end)
                (ip_body params)) = inr signed ->
  fetch env (endpoint params) signed = inr response ->
  json_ response = inr responseBody ->
  ok response = true ->
  invokeSignedApiRequest env params t
  = (Ok responseBody, (t ++ [CallFetch (endpoint params) signed])%list).
Proof.
  intros Hc Hu Hs Hf Hj Hok.
  unfold invokeSignedApiRequest, bind, settle, emit, modify, throw, ret.
  rewrite Hc, Hu, Hs, Hf, Hj, Hok. reflexivity.
Qed.

End BufferedClientFacts.

(** C8 on the code: the buffered client reads the body as JSON before it
    looks at the status. A 502 whose body is an HTML page makes
    [response.json()] reject, and that rejection, which says nothing of the
    status, is what the caller gets; the same status with a JSON body gives
    the error that names 502. *)
Theorem C8_buffered_client_error_without_status :
  InvokeApiUtils.status Demo.bad_gateway = 502%Z
  /\ InvokeApiUtils.ok Demo.bad_gateway = false
  /\ InvokeApiUtils.invokeSignedApiRequest (Demo.env Demo.bad_gateway)
       Demo.buffered_params []
     = (Eff.Throw "Unexpected token in JSON",
        [InvokeApiUtils.CallFetch "https://api.example/prod/chat" Demo.request])
  /\ InvokeApiUtils.invokeSignedApiRequest
       (Demo.env (Demo.response 502 (Json.wire "{'message':'Internal server error'}")
                    []))
       Demo.buffered_params []
     = (Eff.Throw "Request failed with status 502",
        [InvokeApiUtils.CallFetch "https://api.example/prod/chat" Demo.request]).
Proof. repeat split; vm_compute; reflexivity. Qed.

(* ===================================================================== *)
(** ** The remote agent proxy                                             *)
(* ===================================================================== *)

Section McpFacts.
Import Eff Json InvokeApiUtils McpServer.

Variable env : Env.
Variable Decoder : Type.
Variable new_TextDecoder : Decoder.
Variable decode : Decoder -> list byte -> Decoder * string.

Lemma bind_ok_inv {S A B} (m : M S A) (k : A -> M S B) (s s' : S) (b : B) :
  bind m k s = (Ok b, s') ->
  exists a s1, m s = (Ok a, s1) /\ k a s1 = (Ok b, s').
Proof.
  unfold bind. destruct (m s) as [[a | e | c] s1]; try discriminate.
  intros H. eauto.
Qed.

Lemma accumulate_silent (reads : list ReadStep) (d : Decoder) (acc : string)
      (t : Trace) :
  snd (accumulate Decoder decode reads d acc t) = t.
Proof.
  revert d acc. induction reads as [|[[value|]|e] rest IH]; intros d acc;
    cbn [accumulate]; try reflexivity.
  - destruct (decode d value) as [d' chunk]. apply IH.
  - apply IH.
Qed.

(** The transport of the proxy sends no [DescribeStacks] request and calls no
    lookup. *)
Lemma mcp_transport_no_lookup (functionUrl region body : string)
      (credentials : option Credentials) (t : Trace) :
  Observe.calls_getCfnOutput
    (snd (invokeStreamingRequest env Decoder new_TextDecoder decode
            functionUrl region body credentials t))
  = Observe.calls_getCfnOutput t
  /\ Observe.calls_describeStacks
       (snd (invokeStreamingRequest env Decoder new_TextDecoder decode
               functionUrl region body credentials t))
     = Observe.calls_describeStacks t.
Proof.
  assert (Hfetch : forall x y,
             Observe.calls_getCfnOutput (t ++ [CallFetch x y])%list
             = Observe.calls_getCfnOutput t
             /\ Observe.calls_describeStacks (t ++ [CallFetch x y])%list
                = Observe.calls_describeStacks t).
  { intros x y. induction t as [|e t' IH]; [split; reflexivity|].
    destruct IH as [IH1 IH2]. destruct e; cbn; rewrite ?IH1, ?IH2; auto. }
  unfold invokeStreamingRequest, signRequest, bind, settle, emit, modify,
    throw, ret.
  destruct (newURL env functionUrl) as [err | url]; cbn [fst snd]; auto.
  destruct credentials as [c|]; cbn [fst snd]; auto.
  destruct (sign env c region "lambda" (prepare url "POST" body))
    as [err | signed]; cbn [fst snd]; auto.
  destruct (fetch env functionUrl signed) as [err | response]; cbn [fst snd];
    [apply Hfetch|].
  destruct (ok response); [destruct (InvokeApiUtils.body response) as [reads|]|];
    try (destruct (text response); cbn [fst snd]; apply Hfetch).
  rewrite accumulate_silent. apply Hfetch.
Qed.

(** With the URL given (and not empty) the proxy neither calls
    [getCfnOutput] nor sends a [DescribeStacks] request. *)
Lemma mcp_override_skips_lookup (input : RemoteAgentProxyInput) (u : string) :
  lambdaFunctionUrlOverride input = Some u -> JS.truthy u = true ->
  Observe.calls_getCfnOutput
    (snd (runRemoteAgentProxy env Decoder new_TextDecoder decode input [])) = 0
  /\ Observe.calls_describeStacks
       (snd (runRemoteAgentProxy env Decoder new_TextDecoder decode input [])) = 0.
Proof.
  intros Hu Ht.
  unfold runRemoteAgentProxy, try_catch, bind, settle, ret, throw.
  rewrite Hu. cbn [JS.truthy_opt]. rewrite Ht. cbn [negb].
  destruct (credentialProvider env (profile input)) as [err | credentials];
    [split; reflexivity|].
  destruct (JS.blank (query input)); [split; reflexivity|].
  rewrite Ht.
  match goal with
  | |- context [invokeStreamingRequest env Decoder new_TextDecoder decode u ?r ?b
                  credentials []] =>
      pose proof (mcp_transport_no_lookup u r b credentials []) as Hsilent;
      destruct (invokeStreamingRequest env Decoder new_TextDecoder decode u r b
                  credentials []) as [[responseText | e | code] t']
  end; exact Hsilent.
Qed.

(** Whatever the proxy returns carries the session id it was called with. *)
Lemma mcp_result_carries_sessionId (input : RemoteAgentProxyInput)
      (result : ProxyResult) (t t' : Trace) :
  runRemoteAgentProxy env Decoder new_TextDecoder decode input t = (Ok result, t') ->
  result_sessionId result = sessionId input.
Proof.
  unfold runRemoteAgentProxy. intros H.
  apply bind_ok_inv in H. destruct H as (credentials & t1 & _ & H).
  unfold try_catch in H.
  match type of H with
  | context [match ?body t1 with _ => _ end] =>
      destruct (body t1) as [[r | e | code] t2] eqn:E
  end.
  - injection H as <- _.
    destruct (JS.blank (query input)).
    + injection E as <- _. reflexivity.
    + apply bind_ok_inv in E. destruct E as (functionUrl & t3 & _ & E).
      destruct functionUrl as [functionUrl|]; [|discriminate E].
      destruct (JS.truthy functionUrl); [|discriminate E].
      apply bind_ok_inv in E. destruct E as (responseText & t4 & _ & E).
      injection E as <- _. reflexivity.
  - injection H as <- _. reflexivity.
  - discriminate H.
Qed.

End McpFacts.

(* ===================================================================== *)
(** ** Configuration and session of the chat client                       *)
(* ===================================================================== *)

Section ChatFacts.
Import Eff Json InvokeApiUtils InteractiveChat.

Lemma string_of_uint_url_safe (d : Decimal.uint) :
  Observe.url_safe (NilEmpty.string_of_uint d) = true.
Proof. induction d; cbn [NilEmpty.string_of_uint Observe.url_safe]; auto. Qed.

Lemma nilzero_string_of_uint_url_safe (d : Decimal.uint) :
  Observe.url_safe (NilZero.string_of_uint d) = true.
Proof.
  unfold NilZero.string_of_uint.
  destruct d; first [reflexivity | apply string_of_uint_url_safe].
Qed.

Lemma string_of_Z_url_safe (n : Z) : Observe.url_safe (JS.string_of_Z n) = true.
Proof.
  unfold JS.string_of_Z, NilZero.string_of_int.
  destruct (Z.to_int n) as [d | d].
  - apply nilzero_string_of_uint_url_safe.
  - change (Observe.unreserved "-" && Observe.url_safe (NilZero.string_of_uint d)
            = true).
    rewrite nilzero_string_of_uint_url_safe. reflexivity.
Qed.

Lemma to_int_proper (n : Z) : Z.to_int n <> Pos Nil /\ Z.to_int n <> Neg Nil.
Proof.
  destruct n as [|p|p]; cbn; split; try discriminate;
    intros H; injection H as H; exact (Unsigned.to_uint_nonnil p H).
Qed.

(** Two clock readings with the same decimal text are the same reading. *)
Lemma string_of_Z_inj (n n' : Z) :
  JS.string_of_Z n = JS.string_of_Z n' -> n = n'.
Proof.
  unfold JS.string_of_Z. intros H.
  apply (f_equal NilZero.int_of_string) in H.
  destruct (to_int_proper n) as [H1 H2], (to_int_proper n') as [H3 H4].
  rewrite !NilZero.isi in H by assumption.
  injection H as H. apply to_int_inj, H.
Qed.

Variable env : Env.

Lemma resolveSessionId_truthy (supplied : option string) :
  JS.truthy (resolveSessionId env supplied) = true.
Proof.
  unfold resolveSessionId, JS.or_else.
  destruct supplied as [s|]; [destruct (JS.truthy s) eqn:E; [exact E|]|];
    reflexivity.
Qed.

Ltac env_case :=
  match goal with
  | |- context [credentialProvider env ?p] =>
      destruct (credentialProvider env p) as [?err | [?c|]] eqn:?
  | |- context [describeStacks env ?r ?c ?n] =>
      destruct (describeStacks env r c n) as [?err | ?out] eqn:?
  | |- context [JS.truthy_opt (findOutput ?o ?k)] =>
      destruct (JS.truthy_opt (findOutput o k)) eqn:?
  end.

(** With an endpoint given on the command line (and not empty),
    [getApiEndpoint] is not called during the resolution of the
    configuration; [getFunctionUrl] is called once all the same. *)
Lemma chat_override_skips_api_endpoint_lookup (argv : Argv) (e : string) :
  InteractiveChat.endpoint argv = Some e -> JS.truthy e = true ->
  Observe.calls_getApiEndpoint (snd (loadAndValidateConfig env argv [])) = 0
  /\ Observe.calls_getFunctionUrl (snd (loadAndValidateConfig env argv [])) = 1.
Proof.
  intros He Ht.
  unfold loadAndValidateConfig, getFunctionUrl, lookupOutput.
  rewrite He. cbn [JS.truthy_opt]. rewrite Ht. cbn [negb andb].
  unfold try_catch, bind, settle, emit, modify, throw, ret, exit.
  cbn [fst snd app].
  repeat (env_case; cbn [fst snd app]);
    repeat match goal with
           | |- context [if ?b then _ else _] => destruct b
           end;
    cbn; auto.
Qed.

(** The session id of the configuration is the one resolved at the start. *)
Lemma loadAndValidateConfig_sessionId (argv : Argv) (config : AppConfig)
      (t0 t : Trace) :
  loadAndValidateConfig env argv t0 = (Ok config, t) ->
  cfg_sessionId config = resolveSessionId env (sessionId argv).
Proof.
  unfold loadAndValidateConfig, getFunctionUrl, getApiEndpoint, lookupOutput.
  unfold try_catch, bind, settle, emit, modify, throw, ret, exit.
  cbn [fst snd].
  repeat match goal with
         | |- context [credentialProvider env ?p] =>
             destruct (credentialProvider env p) as [?err | [?c|]]; cbn [fst snd]
         | |- context [describeStacks env ?r ?c ?n] =>
             destruct (describeStacks env r c n) as [?err | ?out]; cbn [fst snd]
         | |- context [if ?b then _ else _] => destruct b; cbn [fst snd]
         end;
    intros H; try discriminate H; injection H as <- _; reflexivity.
Qed.

Lemma truthy_not_empty (s : string) : JS.truthy s = true -> s <> "".
Proof. destruct s; [discriminate | discriminate]. Qed.

(** C9, amended: the session id of the configuration is never empty; it is
    the one supplied when one was supplied (and not empty); otherwise it is
    [chat-] followed by the decimal digits of the clock reading, a string of
    characters that need no escaping in a URL, and two clock readings give
    the same id only if they are equal. The interactive chat prints the id
    with the session information and in the hint on how to resume. *)
Theorem C9_session_id_populated_and_reported (argv : Argv) (config : AppConfig)
        (t : Trace) :
  loadAndValidateConfig env argv [] = (Ok config, t) ->
  cfg_sessionId config <> ""
  /\ (forall s, sessionId argv = Some s -> s <> "" -> cfg_sessionId config = s)
  /\ (JS.truthy_opt (sessionId argv) = false ->
      cfg_sessionId config = "chat-" ++ JS.string_of_Z (Date_now env)
      /\ Observe.url_safe (cfg_sessionId config) = true
      /\ (forall now, "chat-" ++ JS.string_of_Z now = cfg_sessionId config ->
                      now = Date_now env))
  /\ exists state t',
      startInteractiveChat config t = (Ok state, t')
      /\ In (ConsoleLog (colors.yellow ++ "Session ID: " ++ colors.brightWhite
                           ++ cfg_sessionId config ++ colors.reset)) t'
      /\ (In (ConsoleLog (colors.dim ++ "(Use --session-id "
                            ++ cfg_sessionId config ++ " to resume later.)"
                            ++ colors.reset)) t'
          \/ In (ConsoleLog (colors.dim ++ "(Resuming session with ID: "
                               ++ cfg_sessionId config ++ ")" ++ colors.reset)) t').
Proof.
  intros Hload.
  pose proof (loadAndValidateConfig_sessionId _ _ _ _ Hload) as Hid.
  split; [|split; [|split]].
  - rewrite Hid. apply truthy_not_empty, resolveSessionId_truthy.
  - intros s Hs Hne. rewrite Hid, Hs. unfold resolveSessionId, JS.or_else.
    destruct s; [congruence | reflexivity].
  - intros Hom. rewrite Hid. unfold resolveSessionId, JS.or_else.
    assert (E : (match sessionId argv with
                 | Some s => if JS.truthy s then s
                             else "chat-" ++ JS.string_of_Z (Date_now env)
                 | None => "chat-" ++ JS.string_of_Z (Date_now env)
                 end) = "chat-" ++ JS.string_of_Z (Date_now env)).
    { destruct (sessionId argv) as [s|]; [|reflexivity].
      cbn [JS.truthy_opt] in Hom. rewrite Hom. reflexivity. }
    rewrite E. split; [reflexivity|]. split.
    + cbn [append Observe.url_safe]. cbn -[JS.string_of_Z Observe.url_safe].
      apply string_of_Z_url_safe.
    + intros now H. cbn [append] in H.
      injection H as H. apply string_of_Z_inj, H.
  - unfold startInteractiveChat, showSessionInfo, log.
    unfold bind, emit, modify, ret. cbn [fst snd].
    destruct (initialUseStreaming config);
      [| destruct (apiGatewayEndpoint config) as [ep|];
         [destruct (JS.truthy ep)|] ];
      destruct (JS.startsWith (cfg_sessionId config) "chat-");
      cbn [negb fst snd]; do 2 eexists; (split; [reflexivity|]);
      rewrite !in_app_iff; cbn [In]; intuition.
Qed.

End ChatFacts.

(** C6, as stated, fails: with an endpoint given on the command line the
    stack outputs are still looked up, once, for the streaming URL, and the
    configuration that results uses the streaming URL. *)
Lemma C6_override_still_looks_up_function_url :
  InteractiveChat.loadAndValidateConfig (Demo.env Demo.hello)
    (Demo.argv (Some "https://override.example/chat") None "awsAgent") []
  = (Eff.Ok
       {| InteractiveChat.cfg_region := "us-east-1";
          InteractiveChat.cfg_profile := Some "default";
          InteractiveChat.cfg_stackName := "ServerlessAgentPatternStack";
          InteractiveChat.initialAgent := "awsAgent";
          InteractiveChat.initialUseStreaming := true;
          InteractiveChat.cfg_debug := false;
          InteractiveChat.singleQuery := None;
          InteractiveChat.cfg_sessionId := "chat-1747616836147";
          InteractiveChat.apiGatewayEndpoint := Some "https://override.example/chat";
          InteractiveChat.lambdaFunctionUrl := Some "https://fn.example/" |},
     [InvokeApiUtils.CallGetFunctionUrl "ServerlessAgentPatternStack" "us-east-1"
        (Some "default");
      InvokeApiUtils.CallDescribeStacks "ServerlessAgentPatternStack" "us-east-1"])
  /\ Observe.calls_getFunctionUrl
       (snd (InteractiveChat.loadAndValidateConfig (Demo.env Demo.hello)
               (Demo.argv (Some "https://override.example/chat") None "awsAgent")
               []))
     = 1.
Proof. split; vm_compute; reflexivity. Qed.

(** C6, amended. In the proxy, a Function URL given with the call (and not
    empty) means that [getCfnOutput] is not called and no [DescribeStacks]
    request is sent. In the chat client, an endpoint given on the command line
    (and not empty) means that [getApiEndpoint] is not called during the
    resolution of the configuration, while [getFunctionUrl] is called once. *)
Theorem C6_override_and_lookups
        (env : InvokeApiUtils.Env) (Decoder : Type) (new_TextDecoder : Decoder)
        (decode : Decoder -> list byte -> Decoder * string)
        (input : McpServer.RemoteAgentProxyInput) (u : string)
        (argv : InteractiveChat.Argv) (e : string) :
  (McpServer.lambdaFunctionUrlOverride input = Some u -> JS.truthy u = true ->
   Observe.calls_getCfnOutput
     (snd (McpServer.runRemoteAgentProxy env Decoder new_TextDecoder decode
             input [])) = 0
   /\ Observe.calls_describeStacks
        (snd (McpServer.runRemoteAgentProxy env Decoder new_TextDecoder decode
                input [])) = 0)
  /\ (InteractiveChat.endpoint argv = Some e -> JS.truthy e = true ->
      Observe.calls_getApiEndpoint
        (snd (InteractiveChat.loadAndValidateConfig env argv [])) = 0
      /\ Observe.calls_getFunctionUrl
           (snd (InteractiveChat.loadAndValidateConfig env argv [])) = 1).
Proof.
  split.
  - apply mcp_override_skips_lookup.
  - apply chat_override_skips_api_endpoint_lookup.
Qed.

Lemma C6_override_and_lookups_witness :
  (Observe.calls_getCfnOutput
     (snd (McpServer.runRemoteAgentProxy (Demo.env Demo.hello) unit tt Demo.decode
             (Demo.proxy_input (Some "https://given.example/")) [])) = 0
   /\ Observe.calls_describeStacks
        (snd (McpServer.runRemoteAgentProxy (Demo.env Demo.hello) unit tt
                Demo.decode (Demo.proxy_input (Some "https://given.example/"))
                [])) = 0)
  /\ (Observe.calls_getApiEndpoint
        (snd (InteractiveChat.loadAndValidateConfig (Demo.env Demo.hello)
                (Demo.argv (Some "https://override.example/chat") None "awsAgent")
                [])) = 0
      /\ Observe.calls_getFunctionUrl
           (snd (InteractiveChat.loadAndValidateConfig (Demo.env Demo.hello)
                   (Demo.argv (Some "https://override.example/chat") None
                      "awsAgent") [])) = 1).
Proof.
  destruct (C6_override_and_lookups (Demo.env Demo.hello) unit tt Demo.decode
              (Demo.proxy_input (Some "https://given.example/"))
              "https://given.example/"
              (Demo.argv (Some "https://override.example/chat") None "awsAgent")
              "https://override.example/chat") as [Hproxy Hchat].
  split; [apply Hproxy | apply Hchat]; reflexivity.
Defined.

(** C9, as stated, fails on collision resistance: two invocations that differ
    (one for [s3Agent], one for [lambdaAgent]), both without a session id and
    both at the clock reading 1747616836147, are given the same session id. *)
Lemma C9_generated_session_ids_collide :
  Demo.argv None None "s3Agent" <> Demo.argv None None "lambdaAgent"
  /\ option_map InteractiveChat.cfg_sessionId
       (Observe.config_of
          (InteractiveChat.loadAndValidateConfig (Demo.env Demo.hello)
             (Demo.argv None None "s3Agent") []))
     = Some "chat-1747616836147"
  /\ option_map InteractiveChat.cfg_sessionId
       (Observe.config_of
          (InteractiveChat.loadAndValidateConfig (Demo.env Demo.hello)
             (Demo.argv None None "lambdaAgent") []))
     = Some "chat-1747616836147".
Proof. repeat split; try (vm_compute; reflexivity). discriminate. Qed.

Lemma C9_session_id_populated_and_reported_witness :
  InteractiveChat.cfg_sessionId Demo.config <> ""
  /\ (forall s,
        InteractiveChat.sessionId (Demo.argv None None "awsAgent") = Some s ->
        s <> "" -> InteractiveChat.cfg_sessionId Demo.config = s)
  /\ (JS.truthy_opt (InteractiveChat.sessionId (Demo.argv None None "awsAgent"))
      = false ->
      InteractiveChat.cfg_sessionId Demo.config
      = "chat-" ++ JS.string_of_Z (InvokeApiUtils.Date_now (Demo.env Demo.hello))
      /\ Observe.url_safe (InteractiveChat.cfg_sessionId Demo.config) = true
      /\ (forall now,
             "chat-" ++ JS.string_of_Z now
             = InteractiveChat.cfg_sessionId Demo.config ->
             now = InvokeApiUtils.Date_now (Demo.env Demo.hello)))
  /\ exists state t',
      InteractiveChat.startInteractiveChat Demo.config Demo.config_trace
      = (Eff.Ok state, t')
      /\ In (InvokeApiUtils.ConsoleLog
               (InteractiveChat.colors.yellow ++ "Session ID: "
                  ++ InteractiveChat.colors.brightWhite
                  ++ InteractiveChat.cfg_sessionId Demo.config
                  ++ InteractiveChat.colors.reset)) t'
      /\ (In (InvokeApiUtils.ConsoleLog
                (InteractiveChat.colors.dim ++ "(Use --session-id "
                   ++ InteractiveChat.cfg_sessionId Demo.config
                   ++ " to resume later.)" ++ InteractiveChat.colors.reset)) t'
          \/ In (InvokeApiUtils.ConsoleLog
                   (InteractiveChat.colors.dim ++ "(Resuming session with ID: "
                      ++ InteractiveChat.cfg_sessionId Demo.config ++ ")"
                      ++ InteractiveChat.colors.reset)) t').
Proof.
  apply (C9_session_id_populated_and_reported (Demo.env Demo.hello)
           (Demo.argv None None "awsAgent") Demo.config Demo.config_trace).
  vm_compute. reflexivity.
Defined.

(* ===================================================================== *)
(** ** Further properties of the buffered handler                         *)
(* ===================================================================== *)

Lemma dispatched_threadIds_app (t u : list Lib.Effect) :
  Observe.dispatched_threadIds (t ++ u)
  = (Observe.dispatched_threadIds t ++ Observe.dispatched_threadIds u)%list.
Proof.
  induction t as [|x t IH]; [reflexivity|].
  simpl. destruct (Observe.dispatch_threadId x); simpl; rewrite IH; reflexivity.
Qed.

Lemma ends_app (t u : list Lib.Effect) :
  Observe.ends (t ++ u) = Observe.ends t + Observe.ends u.
Proof.
  induction t as [|x t IH]; [reflexivity|].
  destruct x; simpl; rewrite IH; reflexivity.
Qed.

Lemma dispatched_writes (cs : list string) :
  Observe.dispatched_threadIds (List.map Lib.Write cs) = [].
Proof. induction cs as [|c cs IH]; [reflexivity | exact IH]. Qed.

Lemma ends_writes (cs : list string) :
  Observe.ends (List.map Lib.Write cs) = 0.
Proof. induction cs as [|c cs IH]; [reflexivity | exact IH]. Qed.

Section WarmProcess.
Import Eff Json Zod Lib Process.

Variable JSON_parse : string -> option json.
Variable w : World.


(** Asking for the instance and awaiting it, in a reachable state of a
    process whose initialisation succeeds: the call of [initializeMastra] is
    added to the trace when it is the first, and the rest goes on with the
    instance. *)
Lemma instance_ready {A} (k : Mastra -> M State A) (st : State) (m : Mastra) :
  Reachable JSON_parse w st ->
  initializeMastra w 0 = inr m ->
  bind getMastraInstance (fun promise => bind (await w promise) k) st
  = k m {| mastraInstancePromise := Some 0;
           initializeMastra_calls := 1;
           trace := (trace st ++ Observe.initialising st)%list |}.
Proof.
  intros Hr Hm. apply reachable_initialized_once in Hr.
  unfold initialized_once in Hr.
  unfold bind at 1. unfold getMastraInstance, Observe.initialising.
  destruct st as [p c t].
  cbn [mastraInstancePromise initializeMastra_calls trace] in *.
  destruct p as [p|].
  - destruct Hr as [-> ->]. cbn [fst snd]. unfold bind, await, settle.
    rewrite Hm. cbn [fst snd]. rewrite List.app_nil_r. reflexivity.
  - subst c. cbn [fst snd]. unfold bind, await, settle.
    rewrite Hm. cbn [fst snd]. reflexivity.
Qed.

End WarmProcess.

Section BufferedMore.
Import Eff Json Zod Lib Process.

Variable JSON_parse : string -> option json.
Variable w : World.

Ltac oracle :=
  match goal with
  | |- context [initializeMastra w ?k] =>
      destruct (initializeMastra w k) as [?err | ?m] eqn:?
  | |- context [getAgent ?m ?a] =>
      destruct (getAgent m a) as [?err | [?ag|]] eqn:?
  | |- context [generate ?ag ?ms ?o] =>
      destruct (generate ag ms o) as [?err | ?text] eqn:?
  end.

(** The buffered handler never rejects: whatever the event, the state of the
    process and the behaviour of Mastra and of the agent, it returns a
    response, and the status of the response is 200, 400 or 500. *)
Theorem buffered_status_200_400_500 (event : Buffered.APIGatewayProxyEvent)
        (st : State) :
  exists response st',
    Buffered.handler JSON_parse w event st = (Ok response, st')
    /\ (Buffered.statusCode response = 200%Z
        \/ Buffered.statusCode response = 400%Z
        \/ Buffered.statusCode response = 500%Z).
Proof.
  unfold Buffered.handler, Buffered.EventSchema.
  destruct (EventBodySchema_well_reported JSON_parse ["body"]
              (Buffered.body event)) as [d | v i iss | i iss].
  - cbn [ap safeParse]. rewrite bind_settle_inr.
    unfold try_catch, bind, getMastraInstance, await, settle, emit, modify,
      throw, ret.
    destruct (mastraInstancePromise st) as [pr|]; cbn [fst snd];
      repeat (oracle; cbn [fst snd]);
      do 2 eexists; (split; [reflexivity|]); cbn [Buffered.statusCode]; auto.
  - change (safeParse (ap (Valid Buffered.Build_EventData) (Dirty v (i :: iss))))
      with (@inr exn _ (@failure Buffered.EventData (i :: iss))).
    rewrite bind_settle_inr. unfold ret. do 2 eexists.
    split; [reflexivity|]. cbn [Buffered.statusCode]. auto.
  - change (safeParse (ap (Valid Buffered.Build_EventData) (Aborted (i :: iss))))
      with (@inr exn _ (@failure Buffered.EventData (i :: iss))).
    rewrite bind_settle_inr. unfold ret. do 2 eexists.
    split; [reflexivity|]. cbn [Buffered.statusCode]. auto.
Qed.

(** The text of a 400 answer with the error messages given. *)
Let invalid_request (errors : list string) : Buffered.APIGatewayProxyResult :=
  {| Buffered.statusCode := 400;
     Buffered.body_ :=
       JSON_stringify
         (JObject [("message", JString "Invalid request");
                   ("errors", JArray (List.map JString errors))]) |}.

(** The 500 answer with the error given. *)
Let internal_error (error : string) : Buffered.APIGatewayProxyResult :=
  {| Buffered.statusCode := 500;
     Buffered.body_ :=
       JSON_stringify
         (JObject [("message", JString "Internal Server Error");
                   ("error", JString error)]) |}.

(** What is wrong with the body decides the one error reported: a body that
    is [null] is reported as missing, a body that is no JSON text as invalid
    JSON, and a JSON text that is no object as not being an object; in all
    three cases the fields of the envelope are not looked at, the answer is
    400 and the state of the process is left as it was. *)
Theorem buffered_body_errors (event : Buffered.APIGatewayProxyEvent) (st : State) :
  (Buffered.body event = Some JNull ->
   Buffered.handler JSON_parse w event st
   = (Ok (invalid_request ["Missing request body"]), st))
  /\ (forall raw,
        Buffered.body event = Some (JString raw) -> JSON_parse raw = None ->
        Buffered.handler JSON_parse w event st
        = (Ok (invalid_request ["Invalid JSON in request body"]), st))
  /\ (forall raw v,
        Buffered.body event = Some (JString raw) -> JSON_parse raw = Some v ->
        (forall ms, v <> JObject ms) ->
        Buffered.handler JSON_parse w event st
        = (Ok (invalid_request ["Expected object, received "
                                  ++ getParsedType (Some v)]), st)).
Proof.
  repeat split.
  - intros Hb. apply (buffered_failure_400 JSON_parse w event
                        [custom ["body"] "Missing request body"]).
    unfold Buffered.EventSchema. rewrite Hb. reflexivity.
  - intros raw Hb Hp.
    apply (buffered_failure_400 JSON_parse w event
             [custom ["body"] "Invalid JSON in request body"]).
    unfold Buffered.EventSchema, Shared.EventBodySchema, pipe, transform, refine,
      nullable, string_, Shared.parse_body. rewrite Hb, Hp. reflexivity.
  - intros raw v Hb Hp Hno.
    apply (buffered_failure_400 JSON_parse w event
             [invalid_type ["body"] "object" (Some v)]).
    unfold Buffered.EventSchema. rewrite Hb.
    rewrite (EventBodySchema_text JSON_parse _ _ _ Hp).
    unfold Shared.BodyContentSchema.
    destruct v; try reflexivity. exfalso. eapply Hno. reflexivity.
Qed.

(** An agent name that passes validation but that the Mastra instance does
    not hold is answered with 500, in every state that the process can
    reach: when [getAgent] throws, with the error it threw; when it returns
    [undefined], with the error of the call on [undefined]. The request adds
    to the trace the call of [initializeMastra], if it is the first of the
    process, and the call of [getAgent]: no agent is asked to generate. *)
Theorem buffered_agent_not_held (event : Buffered.APIGatewayProxyEvent)
        (d : Shared.BodyContent) (m : Mastra) (st : State) :
  Reachable JSON_parse w st ->
  Shared.EventBodySchema JSON_parse ["body"] (Buffered.body event) = Valid d ->
  initializeMastra w 0 = inr m ->
  (forall ag, getAgent m (Shared.agent d) <> inr (Some ag)) ->
  exists error st',
    Buffered.handler JSON_parse w event st
    = (Ok {| Buffered.statusCode := 500;
             Buffered.body_ :=
               JSON_stringify
                 (JObject [("message", JString "Internal Server Error");
                           ("error", JString error)]) |}, st')
    /\ trace st'
       = (trace st ++ Observe.initialising st
            ++ [CallGetAgent (Shared.agent d)])%list
    /\ Observe.dispatches (trace st') = Observe.dispatches (trace st)
    /\ (forall e, getAgent m (Shared.agent d) = inl e -> error = e)
    /\ (getAgent m (Shared.agent d) = inr None ->
        error = "Cannot read properties of undefined (reading 'generate')").
Proof.
  intros Hr Hv Hm Hno.
  assert (Hd : forall t,
             Observe.dispatches
               (t ++ Observe.initialising st ++ [CallGetAgent (Shared.agent d)])
             = Observe.dispatches t).
  { intros t. unfold Observe.dispatches, Observe.initialising.
    rewrite !dispatched_threadIds_app.
    destruct (mastraInstancePromise st);
      cbn [Observe.dispatched_threadIds Observe.dispatch_threadId List.app];
      rewrite List.app_nil_r; reflexivity. }
  unfold Buffered.handler, Buffered.EventSchema. rewrite Hv.
  cbn [ap safeParse]. rewrite bind_settle_inr. cbn [Buffered.data_body].
  unfold try_catch. rewrite (instance_ready JSON_parse w _ st m Hr Hm).
  unfold bind, settle, emit, modify, throw, ret.
  cbn [fst snd trace].
  destruct (getAgent m (Shared.agent d)) as [e | [ag|]] eqn:Hg; cbn [fst snd].
  - do 2 eexists. split; [reflexivity|]. cbn [trace].
    rewrite <- List.app_assoc. repeat split; try apply Hd.
    + intros e' He'. congruence.
    + discriminate.
  - exfalso. eapply Hno. reflexivity.
  - do 2 eexists. split; [reflexivity|]. cbn [trace].
    rewrite <- List.app_assoc. repeat split; try apply Hd.
    intros e' He'. discriminate.
Qed.

(** On an envelope that passed validation the answer of the buffered handler
    is decided by the instance, the agent and the call of [generate], in
    whatever state the process is. When the promise of the instance resolves,
    the instance holds the agent and [generate] returns a text, the answer
    is 200 with that text and the agent's name; when [generate] throws, it is
    500 with the error thrown; in both cases one call was dispatched, with
    the thread id of the envelope as it came. When the promise rejects or
    [getAgent] throws, the answer is 500 with that error, and when [getAgent]
    returns [undefined], 500 with the error of the call on [undefined]; in
    these cases nothing was dispatched. *)
Theorem buffered_valid_envelope (event : Buffered.APIGatewayProxyEvent)
        (d : Shared.BodyContent) (st : State) :
  Shared.EventBodySchema JSON_parse ["body"] (Buffered.body event) = Valid d ->
  exists response st' added,
    Buffered.handler JSON_parse w event st = (Ok response, st')
    /\ trace st' = (trace st ++ added)%list
    /\ (forall m ag text,
          Observe.instance w st = inr m ->
          getAgent m (Shared.agent d) = inr (Some ag) ->
          generate ag [{| role := "user"; content := Shared.query d |}]
                   {| threadId := Shared.threadId d;
                      resourceId := Shared.resourceId d;
                      maxSteps := 5; maxRetries := 2; temperature := None |}
          = inr text ->
          response
          = {| Buffered.statusCode := 200;
               Buffered.body_ :=
                 JSON_stringify
                   (JObject [("message", JString text);
                             ("agent", JString (Shared.agent d))]) |}
          /\ Observe.dispatched_threadIds added = [Shared.threadId d])
    /\ (forall m ag e,
          Observe.instance w st = inr m ->
          getAgent m (Shared.agent d) = inr (Some ag) ->
          generate ag [{| role := "user"; content := Shared.query d |}]
                   {| threadId := Shared.threadId d;
                      resourceId := Shared.resourceId d;
                      maxSteps := 5; maxRetries := 2; temperature := None |}
          = inl e ->
          response = internal_error e
          /\ Observe.dispatched_threadIds added = [Shared.threadId d])
    /\ (forall e,
          Observe.instance w st = inl e
          \/ (exists m, Observe.instance w st = inr m
                        /\ getAgent m (Shared.agent d) = inl e) ->
          response = internal_error e
          /\ Observe.dispatched_threadIds added = [])
    /\ (forall m,
          Observe.instance w st = inr m ->
          getAgent m (Shared.agent d) = inr None ->
          response
          = internal_error
              "Cannot read properties of undefined (reading 'generate')"
          /\ Observe.dispatched_threadIds added = []).
Proof.
  intros Hv. unfold Buffered.handler, Buffered.EventSchema. rewrite Hv.
  cbn [ap safeParse]. rewrite bind_settle_inr.
  cbn [Buffered.data_body].
  unfold Observe.instance, try_catch, bind, getMastraInstance, await, settle,
    emit, modify, throw, ret.
  destruct (mastraInstancePromise st) as [pr|]; cbn [fst snd trace];
    repeat (oracle; cbn [fst snd trace]);
    do 2 eexists;
    match goal with
    | |- exists added, _ = _ /\ ?t = (trace st ++ added)%list /\ _ =>
        first
          [ exists (@nil Effect); split; [reflexivity|];
            split; [symmetry; apply List.app_nil_r|]
          | rewrite <- ?List.app_assoc; eexists; split; [reflexivity|];
            split; [reflexivity|] ]
    end;
    cbn [Observe.dispatched_threadIds Observe.dispatch_threadId List.app
           threadId];
    unfold internal_error;
    repeat split;
    repeat match goal with
           | |- forall _, _ => intro
           | H : _ \/ _ |- _ => destruct H
           | H : exists _, _ |- _ => destruct H
           | H : _ /\ _ |- _ => destruct H
           end;
    congruence.
Qed.


(** When the instance holds the agent, the request is dispatched once,
    with the thread id of the envelope, whatever [generate] does. *)
Lemma buffered_dispatches_once (event : Buffered.APIGatewayProxyEvent)
      (d : Shared.BodyContent) (m : Mastra) (ag : Agent) (st : State) :
  Reachable JSON_parse w st ->
  Shared.EventBodySchema JSON_parse ["body"] (Buffered.body event) = Valid d ->
  initializeMastra w 0 = inr m ->
  getAgent m (Shared.agent d) = inr (Some ag) ->
  Observe.dispatched_threadIds
    (trace (snd (Buffered.handler JSON_parse w event st)))
  = (Observe.dispatched_threadIds (trace st) ++ [Shared.threadId d])%list.
Proof.
  intros Hr Hv Hm Hg.
  unfold Buffered.handler, Buffered.EventSchema. rewrite Hv.
  cbn [ap safeParse]. rewrite bind_settle_inr. cbn [Buffered.data_body].
  unfold try_catch. rewrite (instance_ready JSON_parse w _ st m Hr Hm).
  unfold bind, settle, emit, modify, throw, ret.
  cbn [fst snd trace]. rewrite Hg. cbn [fst snd trace].
  match goal with
  | |- context [generate ag ?ms ?o] => destruct (generate ag ms o)
  end; cbn [fst snd trace];
    rewrite !dispatched_threadIds_app;
    unfold Observe.initialising; destruct (mastraInstancePromise st);
    cbn [Observe.dispatched_threadIds Observe.dispatch_threadId List.app
           threadId];
    rewrite ?List.app_nil_r; reflexivity.
Qed.

(** A failed initialisation is never tried again: once the promise of
    [initializeMastra] has rejected, every later request with a valid
    envelope, in whatever state the process has reached, is answered with 500
    and the error of that rejection, and the routine has still run once. *)
Theorem buffered_init_failure_is_kept (event : Buffered.APIGatewayProxyEvent)
        (d : Shared.BodyContent) (e : exn) (st : State) :
  Reachable JSON_parse w st ->
  initializeMastra w 0 = inl e ->
  Shared.EventBodySchema JSON_parse ["body"] (Buffered.body event) = Valid d ->
  exists st',
    Buffered.handler JSON_parse w event st
    = (Ok {| Buffered.statusCode := 500;
             Buffered.body_ :=
               JSON_stringify
                 (JObject [("message", JString "Internal Server Error");
                           ("error", JString e)]) |}, st')
    /\ initializeMastra_calls st' = 1
    /\ Observe.dispatches (trace st') = Observe.dispatches (trace st).
Proof.
  intros Hr He Hv.
  apply reachable_initialized_once in Hr. unfold initialized_once in Hr.
  unfold Buffered.handler, Buffered.EventSchema. rewrite Hv.
  cbn [ap safeParse]. rewrite bind_settle_inr. cbn [Buffered.data_body].
  unfold try_catch, bind, getMastraInstance, await, settle, emit, modify,
    throw, ret.
  destruct (mastraInstancePromise st) as [p|]; cbn [fst snd].
  - destruct Hr as [-> Hc]. rewrite He. cbn [fst snd].
    eexists. repeat split; assumption.
  - rewrite Hr, He. cbn [fst snd].
    eexists. split; [reflexivity|]. cbn [initializeMastra_calls trace].
    split; [reflexivity|].
    unfold Observe.dispatches. rewrite dispatched_threadIds_app.
    cbn [Observe.dispatched_threadIds Observe.dispatch_threadId].
    rewrite List.app_nil_r. reflexivity.
Qed.

End BufferedMore.

Lemma buffered_body_errors_witness :
  Buffered.handler Json.JSON_parse Demo.world
    {| Buffered.body := Some (Json.JString "[1,2]") |} Lib.initial
  = (Eff.Ok {| Buffered.statusCode := 400;
               Buffered.body_ :=
                 Json.JSON_stringify
                   (Json.JObject
                      [("message", Json.JString "Invalid request");
                       ("errors",
                        Json.JArray [Json.JString "Expected object, received array"])]) |},
     Lib.initial).
Proof.
  apply (proj2 (proj2 (buffered_body_errors Json.JSON_parse Demo.world
                         {| Buffered.body := Some (Json.JString "[1,2]") |}
                         Lib.initial))
           "[1,2]" (Json.JArray [Json.JNumber "1"; Json.JNumber "2"])).
  - reflexivity.
  - vm_compute. reflexivity.
  - intros ms H. discriminate H.
Defined.

Lemma buffered_agent_not_held_witness :
  exists error st',
    Buffered.handler Json.JSON_parse Demo.world
      (Demo.event (Cases.envelope (Some "awsAgentNetwork")))
      (Cases.warm Demo.world)
    = (Eff.Ok {| Buffered.statusCode := 500;
                 Buffered.body_ :=
                   Json.JSON_stringify
                     (Json.JObject
                        [("message", Json.JString "Internal Server Error");
                         ("error", Json.JString error)]) |}, st')
    /\ Lib.trace st'
       = (Lib.trace (Cases.warm Demo.world)
            ++ [Lib.CallGetAgent "awsAgentNetwork"])%list
    /\ Observe.dispatches (Lib.trace st') = 1
    /\ (forall e, Lib.getAgent Demo.mastra "awsAgentNetwork" = inl e -> error = e)
    /\ (Lib.getAgent Demo.mastra "awsAgentNetwork" = inr None ->
        error = "Cannot read properties of undefined (reading 'generate')").
Proof.
  apply (buffered_agent_not_held Json.JSON_parse Demo.world
           (Demo.event (Cases.envelope (Some "awsAgentNetwork")))
           (Cases.content "awsAgentNetwork") Demo.mastra
           (Cases.warm Demo.world)).
  - apply Process.reach_buffered, Process.reach_initial.
  - vm_compute. reflexivity.
  - reflexivity.
  - intros ag H. vm_compute in H. discriminate H.
Defined.

Lemma buffered_init_failure_is_kept_witness :
  exists st',
    Buffered.handler Json.JSON_parse Cases.no_mastra
      (Demo.event (Cases.envelope (Some "s3Agent")))
      (snd (Buffered.handler Json.JSON_parse Cases.no_mastra
              (Demo.event (Cases.envelope None)) Lib.initial))
    = (Eff.Ok {| Buffered.statusCode := 500;
                 Buffered.body_ :=
                   Json.JSON_stringify
                     (Json.JObject
                        [("message", Json.JString "Internal Server Error");
                         ("error", Json.JString "Failed to get Pinecone API Key")]) |},
       st')
    /\ Lib.initializeMastra_calls st' = 1
    /\ Observe.dispatches (Lib.trace st')
       = Observe.dispatches
           (Lib.trace (snd (Buffered.handler Json.JSON_parse Cases.no_mastra
                              (Demo.event (Cases.envelope None)) Lib.initial))).
Proof.
  apply (buffered_init_failure_is_kept Json.JSON_parse Cases.no_mastra
           (Demo.event (Cases.envelope (Some "s3Agent")))
           (Cases.content "s3Agent") "Failed to get Pinecone API Key"
           (snd (Buffered.handler Json.JSON_parse Cases.no_mastra
                   (Demo.event (Cases.envelope None)) Lib.initial))).
  - apply Process.reach_buffered, Process.reach_initial.
  - reflexivity.
  - vm_compute. reflexivity.
Defined.

Lemma buffered_valid_envelope_witness :
  Buffered.handler Json.JSON_parse Cases.failing_world
    (Demo.event (Cases.envelope (Some "s3Agent")))
    (Cases.warm Cases.failing_world)
  = (Eff.Ok {| Buffered.statusCode := 500;
               Buffered.body_ :=
                 Json.JSON_stringify
                   (Json.JObject
                      [("message", Json.JString "Internal Server Error");
                       ("error", Json.JString "ThrottlingException")]) |},
     snd (Buffered.handler Json.JSON_parse Cases.failing_world
            (Demo.event (Cases.envelope (Some "s3Agent")))
            (Cases.warm Cases.failing_world)))
  /\ Observe.dispatched_threadIds
       (Lib.trace
          (snd (Buffered.handler Json.JSON_parse Cases.failing_world
                  (Demo.event (Cases.envelope (Some "s3Agent")))
                  (Cases.warm Cases.failing_world))))
     = (Observe.dispatched_threadIds (Lib.trace (Cases.warm Cases.failing_world))
          ++ ["t"])%list.
Proof.
  destruct (buffered_valid_envelope Json.JSON_parse Cases.failing_world
              (Demo.event (Cases.envelope (Some "s3Agent")))
              (Cases.content "s3Agent") (Cases.warm Cases.failing_world))
    as (response & st' & added & Hrun & Htrace & _ & Hthrows & _).
  - vm_compute. reflexivity.
  - destruct (Hthrows Cases.failing_mastra Cases.failing_agent
                "ThrottlingException")
      as [Hresponse Hadded]; try reflexivity.
    rewrite Hrun. cbn [snd]. rewrite Htrace, dispatched_threadIds_app, Hadded.
    rewrite Hresponse. split; reflexivity.
Defined.


(* ===================================================================== *)
(** ** Further properties of the streaming handler                        *)
(* ===================================================================== *)

Section StreamingMore.
Import Eff Json Zod Lib Process.

Variable JSON_parse : string -> option json.
Variable w : World.

Ltac oracle :=
  match goal with
  | |- context [initializeMastra w ?k] =>
      destruct (initializeMastra w k) as [?err | ?m] eqn:?
  | |- context [createAwsAgentNetwork w] =>
      destruct (createAwsAgentNetwork w) as [?err | ?network] eqn:?
  | |- context [getAgent ?m ?a] =>
      destruct (getAgent m a) as [?err | [?ag|]] eqn:?
  | |- context [stream ?ag ?ms ?o] =>
      destruct (stream ag ms o) as [?err | ?ts] eqn:?
  | |- context [Streaming.forward ?ts ?st] =>
      unfold Streaming.forward, bind; rewrite write_all_run;
      destruct (thrown ts) as [?err|] eqn:?
  end.

(** The streaming handler never rejects, and it ends the response exactly
    once, as the last thing it does: whatever the event, the state of the
    process and the behaviour of Mastra, of the agents and of the text
    stream. *)
Theorem streaming_ends_response_once (event : Streaming.FunctionUrlEvent)
        (st : State) :
  exists st',
    Streaming.handler JSON_parse w event st = (Ok tt, st')
    /\ Observe.ends (trace st') = S (Observe.ends (trace st))
    /\ (forall d, List.last (trace st') d = End_).
Proof.
  unfold Streaming.handler, Streaming.EventSchema.
  destruct (EventBodySchema_well_reported JSON_parse ["body"]
              (Streaming.body event)) as [d | v i iss | i iss].
  - cbn [ap safeParse]. rewrite bind_settle_inr. cbn [Streaming.data_body].
    destruct (String.eqb (Shared.agent d) "awsAgentNetwork");
      unfold try_catch, bind, getMastraInstance, await, settle, emit, modify,
        throw, ret;
      try (destruct (mastraInstancePromise st) as [pr|]);
      cbn [fst snd trace mastraInstancePromise initializeMastra_calls];
      repeat (oracle;
              cbn [fst snd trace mastraInstancePromise initializeMastra_calls
                     throw ret]);
      (eexists; split; [reflexivity|]; cbn [trace]; split;
       [ rewrite !ends_app, ?ends_writes; cbn [Observe.ends]; lia
       | intros d0; apply List.last_last ]).
  - change (safeParse (ap (Valid Streaming.Build_EventData) (Dirty v (i :: iss))))
      with (@inr exn _ (@failure Streaming.EventData (i :: iss))).
    rewrite bind_settle_inr. unfold bind, emit, modify.
    cbn [fst snd trace mastraInstancePromise initializeMastra_calls].
    eexists; split; [reflexivity|]; cbn [trace]; split;
      [ rewrite !ends_app; cbn [Observe.ends]; lia
      | intros d0; apply List.last_last ].
  - change (safeParse (ap (Valid Streaming.Build_EventData) (Aborted (i :: iss))))
      with (@inr exn _ (@failure Streaming.EventData (i :: iss))).
    rewrite bind_settle_inr. unfold bind, emit, modify.
    cbn [fst snd trace mastraInstancePromise initializeMastra_calls].
    eexists; split; [reflexivity|]; cbn [trace]; split;
      [ rewrite !ends_app; cbn [Observe.ends]; lia
      | intros d0; apply List.last_last ].
Qed.

(** The chunks written by what [getMastraInstance] adds: none. *)
Lemma written_initialising (st : State) :
  Observe.written (Observe.initialising st) = [].
Proof. unfold Observe.initialising. destruct (mastraInstancePromise st); reflexivity. Qed.

Lemma ends_initialising (st : State) :
  Observe.ends (Observe.initialising st) = 0.
Proof. unfold Observe.initialising. destruct (mastraInstancePromise st); reflexivity. Qed.

(** The run of the streaming handler for a registered agent whose call of
    [stream] returns a text stream, from a reachable state of a process
    whose initialisation succeeds. *)
Lemma streaming_run (event : Streaming.FunctionUrlEvent)
      (d : Shared.BodyContent) (m : Mastra) (ag : Agent) (ts : TextStream)
      (st : State) :
  Reachable JSON_parse w st ->
  Shared.EventBodySchema JSON_parse ["body"] (Streaming.body event) = Valid d ->
  String.eqb (Shared.agent d) "awsAgentNetwork" = false ->
  initializeMastra w 0 = inr m ->
  getAgent m (Shared.agent d) = inr (Some ag) ->
  stream ag [{| role := "user"; content := Shared.query d |}]
         {| threadId := ThreadId.namespacedThreadId (Shared.agent d)
                          (Shared.threadId d);
            resourceId := Shared.resourceId d;
            maxSteps := 10; maxRetries := 2; temperature := Some 0%Z |}
    = inr ts ->
  Streaming.handler JSON_parse w event st
  = (Ok tt,
     {| mastraInstancePromise := Some 0;
        initializeMastra_calls := 1;
        trace :=
          (trace st
             ++ SetContentType "text/plain"
             :: Observe.initialising st
             ++ [CallGetAgent (Shared.agent d);
                 CallStream (Shared.agent d)
                   [{| role := "user"; content := Shared.query d |}]
                   {| threadId := ThreadId.namespacedThreadId (Shared.agent d)
                                    (Shared.threadId d);
                      resourceId := Shared.resourceId d;
                      maxSteps := 10; maxRetries := 2;
                      temperature := Some 0%Z |}]
             ++ List.map Write (chunks ts)
             ++ match thrown ts with
                | None => [End_]
                | Some e =>
                    [Write (JSON_stringify
                              (JObject [("message",
                                         JString "Internal Server Error");
                                        ("error", JString e)]));
                     End_]
                end)%list |}).
Proof.
  intros Hr Hv Hn Hm Hg Hs.
  apply reachable_initialized_once in Hr. unfold initialized_once in Hr.
  unfold Streaming.handler, Streaming.EventSchema. rewrite Hv.
  cbn [ap safeParse]. rewrite bind_settle_inr. cbn [Streaming.data_body].
  rewrite Hn.
  unfold try_catch, bind, getMastraInstance, await, settle, emit, modify,
    throw, ret, Observe.initialising.
  destruct st as [p c t].
  cbn [mastraInstancePromise initializeMastra_calls trace fst snd] in *.
  destruct p as [p|]; [destruct Hr as [-> ->] | subst c];
    cbn [mastraInstancePromise initializeMastra_calls trace fst snd];
    rewrite Hm; cbn [fst snd trace]; rewrite Hg; cbn [fst snd trace];
    rewrite Hs; unfold Streaming.forward, bind; rewrite write_all_run;
    destruct (thrown ts);
    cbn [fst snd trace mastraInstancePromise initializeMastra_calls throw ret];
    repeat (rewrite <- !List.app_assoc; cbn [List.app]); reflexivity.
Qed.

(** When a registered agent streams a text to its end, the handler, in
    every state that the process can reach, sets the content type, asks for
    the agent and its stream, writes the chunks of the stream to the
    response, each once and in the order of the stream, and then ends the
    response: the trace grows by exactly these effects. *)
Theorem streaming_writes_in_order (event : Streaming.FunctionUrlEvent)
        (d : Shared.BodyContent) (m : Mastra) (ag : Agent) (ts : TextStream)
        (st : State) :
  Reachable JSON_parse w st ->
  Shared.EventBodySchema JSON_parse ["body"] (Streaming.body event) = Valid d ->
  String.eqb (Shared.agent d) "awsAgentNetwork" = false ->
  initializeMastra w 0 = inr m ->
  getAgent m (Shared.agent d) = inr (Some ag) ->
  stream ag [{| role := "user"; content := Shared.query d |}]
         {| threadId := ThreadId.namespacedThreadId (Shared.agent d)
                          (Shared.threadId d);
            resourceId := Shared.resourceId d;
            maxSteps := 10; maxRetries := 2; temperature := Some 0%Z |}
    = inr ts ->
  thrown ts = None ->
  exists st',
    Streaming.handler JSON_parse w event st = (Ok tt, st')
    /\ trace st'
       = (trace st
            ++ SetContentType "text/plain"
            :: Observe.initialising st
            ++ [CallGetAgent (Shared.agent d);
                CallStream (Shared.agent d)
                  [{| role := "user"; content := Shared.query d |}]
                  {| threadId := ThreadId.namespacedThreadId (Shared.agent d)
                                   (Shared.threadId d);
                     resourceId := Shared.resourceId d;
                     maxSteps := 10; maxRetries := 2;
                     temperature := Some 0%Z |}]
            ++ List.map Write (chunks ts) ++ [End_])%list
    /\ Observe.written (trace st')
       = (Observe.written (trace st) ++ chunks ts)%list
    /\ List.last (trace st') End_ = End_.
Proof.
  intros Hr Hv Hn Hm Hg Hs Ht.
  rewrite (streaming_run event d m ag ts st Hr Hv Hn Hm Hg Hs), Ht.
  eexists. split; [reflexivity|]. cbn [trace]. split; [reflexivity|]. split.
  - rewrite written_app. f_equal.
    change (SetContentType "text/plain" :: ?l) with ([SetContentType "text/plain"] ++ l)%list.
    rewrite !written_app, written_initialising, written_writes.
    cbn [Observe.written List.app]. apply List.app_nil_r.
  - rewrite List.app_comm_cons, !List.app_assoc. apply List.last_last.
Qed.

(** When the text stream of a registered agent breaks after some chunks, the
    response carries those chunks, in order, followed by the JSON text of the
    error: the client receives the partial answer and the error message as
    one text, and the response is still ended, once. This holds in every
    state that the process can reach, and the trace grows by exactly these
    effects. *)
Theorem streaming_error_follows_fragments (event : Streaming.FunctionUrlEvent)
        (d : Shared.BodyContent) (m : Mastra) (ag : Agent) (ts : TextStream)
        (e : exn) (st : State) :
  Reachable JSON_parse w st ->
  Shared.EventBodySchema JSON_parse ["body"] (Streaming.body event) = Valid d ->
  String.eqb (Shared.agent d) "awsAgentNetwork" = false ->
  initializeMastra w 0 = inr m ->
  getAgent m (Shared.agent d) = inr (Some ag) ->
  stream ag [{| role := "user"; content := Shared.query d |}]
         {| threadId := ThreadId.namespacedThreadId (Shared.agent d)
                          (Shared.threadId d);
            resourceId := Shared.resourceId d;
            maxSteps := 10; maxRetries := 2; temperature := Some 0%Z |}
    = inr ts ->
  thrown ts = Some e ->
  exists st',
    Streaming.handler JSON_parse w event st = (Ok tt, st')
    /\ trace st'
       = (trace st
            ++ SetContentType "text/plain"
            :: Observe.initialising st
            ++ [CallGetAgent (Shared.agent d);
                CallStream (Shared.agent d)
                  [{| role := "user"; content := Shared.query d |}]
                  {| threadId := ThreadId.namespacedThreadId (Shared.agent d)
                                   (Shared.threadId d);
                     resourceId := Shared.resourceId d;
                     maxSteps := 10; maxRetries := 2;
                     temperature := Some 0%Z |}]
            ++ List.map Write (chunks ts)
            ++ [Write (JSON_stringify
                         (JObject [("message", JString "Internal Server Error");
                                   ("error", JString e)]));
                End_])%list
    /\ Observe.written (trace st')
       = (Observe.written (trace st) ++ chunks ts
            ++ [JSON_stringify
                  (JObject [("message", JString "Internal Server Error");
                            ("error", JString e)])])%list
    /\ Observe.ends (trace st') = S (Observe.ends (trace st)).
Proof.
  intros Hr Hv Hn Hm Hg Hs Ht.
  rewrite (streaming_run event d m ag ts st Hr Hv Hn Hm Hg Hs), Ht.
  eexists. split; [reflexivity|]. cbn [trace]. split; [reflexivity|].
  change (SetContentType "text/plain" :: ?l) with ([SetContentType "text/plain"] ++ l)%list.
  split.
  - rewrite !written_app, written_initialising, written_writes.
    cbn [Observe.written List.app]. reflexivity.
  - rewrite !ends_app, ends_initialising, ends_writes.
    cbn [Observe.ends]. lia.
Qed.

(** When the instance holds the agent, the request is dispatched once,
    with the namespaced thread id, whatever [stream] and the text stream
    do. *)
Lemma streaming_dispatches_once (event : Streaming.FunctionUrlEvent)
      (d : Shared.BodyContent) (m : Mastra) (ag : Agent) (st : State) :
  Reachable JSON_parse w st ->
  Shared.EventBodySchema JSON_parse ["body"] (Streaming.body event) = Valid d ->
  String.eqb (Shared.agent d) "awsAgentNetwork" = false ->
  initializeMastra w 0 = inr m ->
  getAgent m (Shared.agent d) = inr (Some ag) ->
  Observe.dispatched_threadIds
    (trace (snd (Streaming.handler JSON_parse w event st)))
  = (Observe.dispatched_threadIds (trace st)
       ++ [ThreadId.namespacedThreadId (Shared.agent d) (Shared.threadId d)])%list.
Proof.
  intros Hr Hv Hn Hm Hg.
  apply reachable_initialized_once in Hr. unfold initialized_once in Hr.
  unfold Streaming.handler, Streaming.EventSchema. rewrite Hv.
  cbn [ap safeParse]. rewrite bind_settle_inr. cbn [Streaming.data_body].
  rewrite Hn.
  unfold try_catch, bind, getMastraInstance, await, settle, emit, modify,
    throw, ret.
  destruct st as [p c t].
  cbn [mastraInstancePromise initializeMastra_calls trace fst snd] in *.
  destruct p as [p|]; [destruct Hr as [-> ->] | subst c];
    cbn [mastraInstancePromise initializeMastra_calls trace fst snd];
    rewrite Hm; cbn [fst snd trace]; rewrite Hg; cbn [fst snd trace];
    repeat (oracle;
            cbn [fst snd trace mastraInstancePromise initializeMastra_calls
                   throw ret]);
    rewrite !dispatched_threadIds_app, ?dispatched_writes;
    cbn [Observe.dispatched_threadIds Observe.dispatch_threadId List.app
           threadId];
    rewrite ?List.app_nil_r; reflexivity.
Qed.


End StreamingMore.

Lemma streaming_error_follows_fragments_witness :
  exists st',
    Streaming.handler Json.JSON_parse Cases.failing_world
      (Demo.url_event (Cases.envelope (Some "s3Agent")))
      (Cases.warm Cases.failing_world)
    = (Eff.Ok tt, st')
    /\ Lib.trace st'
       = (Lib.trace (Cases.warm Cases.failing_world)
            ++ [Lib.SetContentType "text/plain";
                Lib.CallGetAgent "s3Agent";
                Lib.CallStream "s3Agent"
                  [{| Lib.role := "user"; Lib.content := "hi" |}]
                  {| Lib.threadId := "s3Agent::t"; Lib.resourceId := "r";
                     Lib.maxSteps := 10; Lib.maxRetries := 2;
                     Lib.temperature := Some 0%Z |};
                Lib.Write "Hel"; Lib.Write "lo ";
                Lib.Write
                  (Json.JSON_stringify
                     (Json.JObject
                        [("message", Json.JString "Internal Server Error");
                         ("error", Json.JString "socket hang up")]));
                Lib.End_])%list
    /\ Observe.written (Lib.trace st')
       = ["Hel"; "lo ";
          Json.JSON_stringify
            (Json.JObject [("message", Json.JString "Internal Server Error");
                           ("error", Json.JString "socket hang up")])]
    /\ Observe.ends (Lib.trace st') = 1.
Proof.
  apply (streaming_error_follows_fragments Json.JSON_parse Cases.failing_world
           (Demo.url_event (Cases.envelope (Some "s3Agent")))
           (Cases.content "s3Agent") Cases.failing_mastra Cases.failing_agent
           {| Lib.chunks := ["Hel"; "lo "]; Lib.thrown := Some "socket hang up" |}
           "socket hang up" (Cases.warm Cases.failing_world)).
  - apply Process.reach_buffered, Process.reach_initial.
  - vm_compute. reflexivity.
  - reflexivity.
  - reflexivity.
  - reflexivity.
  - reflexivity.
  - reflexivity.
Defined.


Lemma streaming_writes_in_order_witness :
  exists st',
    Streaming.handler Json.JSON_parse Demo.world
      (Demo.url_event (Cases.envelope (Some "s3Agent")))
      (Cases.warm Demo.world)
    = (Eff.Ok tt, st')
    /\ Lib.trace st'
       = (Lib.trace (Cases.warm Demo.world)
            ++ [Lib.SetContentType "text/plain";
                Lib.CallGetAgent "s3Agent";
                Lib.CallStream "s3Agent"
                  [{| Lib.role := "user"; Lib.content := "hi" |}]
                  {| Lib.threadId := "s3Agent::t"; Lib.resourceId := "r";
                     Lib.maxSteps := 10; Lib.maxRetries := 2;
                     Lib.temperature := Some 0%Z |};
                Lib.Write "Hel"; Lib.Write "lo "; Lib.Write "World";
                Lib.End_])%list
    /\ Observe.written (Lib.trace st') = ["Hel"; "lo "; "World"]
    /\ List.last (Lib.trace st') Lib.End_ = Lib.End_.
Proof.
  apply (streaming_writes_in_order Json.JSON_parse Demo.world
           (Demo.url_event (Cases.envelope (Some "s3Agent")))
           (Cases.content "s3Agent") Demo.mastra Demo.agent
           {| Lib.chunks := ["Hel"; "lo "; "World"]; Lib.thrown := None |}
           (Cases.warm Demo.world)).
  - apply Process.reach_buffered, Process.reach_initial.
  - vm_compute. reflexivity.
  - reflexivity.
  - reflexivity.
  - reflexivity.
  - reflexivity.
  - reflexivity.
Defined.

Lemma streaming_failure_written_witness :
  Streaming.handler Json.JSON_parse Demo.world
    {| Streaming.body := Some (Json.JString "not json") |} Lib.initial
  = (Eff.Ok tt,
     {| Lib.mastraInstancePromise := None;
        Lib.initializeMastra_calls := 0;
        Lib.trace :=
          [Lib.Write
             (Json.JSON_stringify
                (Json.JObject
                   [("message", Json.JString "Invalid request");
                    ("errors",
                     Json.JArray [Json.JString "Invalid JSON in request body"])]));
           Lib.End_] |}).
Proof.
  apply (streaming_failure_written Json.JSON_parse Demo.world
           {| Streaming.body := Some (Json.JString "not json") |}
           [Zod.custom ["body"] "Invalid JSON in request body"] Lib.initial).
  vm_compute. reflexivity.
Defined.

(* ===================================================================== *)
(** ** Further properties of the client transports                        *)
(* ===================================================================== *)

Section TransportMore.
Import Eff Json InvokeApiUtils.

Lemma calls_describeStacks_app (t u : Trace) :
  Observe.calls_describeStacks (t ++ u)%list
  = Observe.calls_describeStacks t + Observe.calls_describeStacks u.
Proof.
  induction t as [|x t IH]; [reflexivity|].
  destruct x; simpl; rewrite IH; reflexivity.
Qed.

Variable env : Env.

(** The two stack lookups never reject and never exit: a failure to load
    credentials or to describe the stack gives [undefined], as does a stack
    without the output. Each lookup sends at most one [DescribeStacks], and
    a value it returns is the value of that output in the first stack of the
    response. *)
Theorem stack_lookups_never_reject (stackName region : string)
        (profile : option string) (t : Trace) :
  (exists r t',
     getApiEndpoint env stackName region profile t = (Ok r, t')
     /\ Observe.calls_describeStacks t' <= S (Observe.calls_describeStacks t)
     /\ (forall v, r = Some v ->
         exists c response,
           credentialProvider env profile = inr (Some c)
           /\ describeStacks env region c stackName = inr response
           /\ findOutput response "ApiEndpoint" = Some v))
  /\ (exists r t',
        getFunctionUrl env stackName region profile t = (Ok r, t')
        /\ Observe.calls_describeStacks t' <= S (Observe.calls_describeStacks t)
        /\ (forall v, r = Some v ->
            exists c response,
              credentialProvider env profile = inr (Some c)
              /\ describeStacks env region c stackName = inr response
              /\ findOutput response "StreamingFunctionUrlEndpoint" = Some v)).
Proof.
  split.
  - unfold getApiEndpoint, lookupOutput, try_catch, bind, settle, emit, modify,
      throw, ret.
    destruct (credentialProvider env profile) as [e | [c|]] eqn:Hc; cbn [fst snd].
    + do 2 eexists. split; [reflexivity|].
      rewrite calls_describeStacks_app. cbn. split; [lia | discriminate].
    + destruct (describeStacks env region c stackName) as [e | response] eqn:Hd;
        cbn [fst snd]; do 2 eexists; (split; [reflexivity|]);
        rewrite !calls_describeStacks_app; cbn; (split; [lia|]).
      * discriminate.
      * intros v Hv. exists c, response. auto.
    + do 2 eexists. split; [reflexivity|].
      rewrite calls_describeStacks_app. cbn. split; [lia | discriminate].
  - unfold getFunctionUrl, lookupOutput, try_catch, bind, settle, emit, modify,
      throw, ret.
    destruct (credentialProvider env profile) as [e | [c|]] eqn:Hc; cbn [fst snd].
    + do 2 eexists. split; [reflexivity|].
      rewrite calls_describeStacks_app. cbn. split; [lia | discriminate].
    + destruct (describeStacks env region c stackName) as [e | response] eqn:Hd;
        cbn [fst snd]; do 2 eexists; (split; [reflexivity|]);
        rewrite !calls_describeStacks_app; cbn; (split; [lia|]).
      * discriminate.
      * intros v Hv. exists c, response. auto.
    + do 2 eexists. split; [reflexivity|].
      rewrite calls_describeStacks_app. cbn. split; [lia | discriminate].
Qed.

(** The buffered transport sends at most one request and tries nothing
    twice. When the provider rejects or yields no credentials, when
    [new URL] throws on the endpoint, or when the signer rejects, it throws
    before anything is sent, with that error in the last two cases; once the
    request is signed it is sent, and whatever [fetch] and the response do,
    nothing follows the one [fetch]. It never exits the process. *)
Theorem buffered_client_sends_at_most_once (params : InvokeParams) (t : Trace) :
  (exists t', snd (invokeSignedApiRequest env params t) = t'
              /\ (t' = t
                  \/ exists signed, t' = (t ++ [CallFetch (endpoint params) signed])%list))
  /\ (forall code, fst (invokeSignedApiRequest env params t) <> Exit code)
  /\ ((forall c, credentialProvider env (profile params) <> inr (Some c)) ->
      exists e, invokeSignedApiRequest env params t = (Throw e, t))
  /\ (forall c e,
        credentialProvider env (profile params) = inr (Some c) ->
        newURL env (endpoint params) = inl e ->
        invokeSignedApiRequest env params t = (Throw e, t))
  /\ (forall c url e,
        credentialProvider env (profile params) = inr (Some c) ->
        newURL env (endpoint params) = inr url ->
        sign env c (region params) "execute-api"
             (prepare url
                (match ip_method params with Some m => m | None => "POST" end)
                (ip_body params)) = inl e ->
        invokeSignedApiRequest env params t = (Throw e, t))
  /\ (forall c url signed,
        credentialProvider env (profile params) = inr (Some c) ->
        newURL env (endpoint params) = inr url ->
        sign env c (region params) "execute-api"
             (prepare url
                (match ip_method params with Some m => m | None => "POST" end)
                (ip_body params)) = inr signed ->
        snd (invokeSignedApiRequest env params t)
        = (t ++ [CallFetch (endpoint params) signed])%list
        /\ (forall e, fetch env (endpoint params) signed = inl e ->
            fst (invokeSignedApiRequest env params t) = Throw e)).
Proof.
  split; [|split; [|split; [|split; [|split]]]].
  - unfold invokeSignedApiRequest, bind, settle, emit, modify, throw, ret.
    destruct (credentialProvider env (profile params)) as [e | [c|]];
      cbn [fst snd].
    + eexists; split; [reflexivity | left; reflexivity].
    + destruct (newURL env (endpoint params)) as [e | url]; cbn [fst snd];
        [eexists; split; [reflexivity | left; reflexivity]|].
      destruct (sign env c (region params) "execute-api" _) as [e | signed];
        cbn [fst snd];
        [eexists; split; [reflexivity | left; reflexivity]|].
      destruct (fetch env (endpoint params) signed) as [e | response];
        cbn [fst snd];
        [| destruct (json_ response) as [e | responseBody]; cbn [fst snd];
           [| destruct (ok response); cbn [negb fst snd]]];
        (eexists; split; [reflexivity | right; eexists; reflexivity]).
    + destruct (newURL env (endpoint params)); cbn [fst snd];
        eexists; (split; [reflexivity | left; reflexivity]).
  - intros code.
    unfold invokeSignedApiRequest, bind, settle, emit, modify, throw, ret.
    destruct (credentialProvider env (profile params)) as [e | [c|]];
      cbn [fst snd]; try discriminate;
      destruct (newURL env (endpoint params)) as [e | url]; cbn [fst snd];
      try discriminate.
    destruct (sign env c (region params) "execute-api" _) as [e | signed];
      cbn [fst snd]; try discriminate.
    destruct (fetch env (endpoint params) signed) as [e | response];
      cbn [fst snd]; try discriminate.
    destruct (json_ response) as [e | responseBody]; cbn [fst snd];
      try discriminate.
    destruct (ok response); cbn [negb fst snd]; discriminate.
  - intros Hno.
    unfold invokeSignedApiRequest, bind, settle, emit, modify, throw, ret.
    destruct (credentialProvider env (profile params)) as [e | [c|]];
      cbn [fst snd].
    + eexists; reflexivity.
    + exfalso. eapply Hno. reflexivity.
    + destruct (newURL env (endpoint params)); cbn [fst snd];
        eexists; reflexivity.
  - intros c e Hc Hu.
    unfold invokeSignedApiRequest, bind, settle, emit, modify, throw, ret.
    rewrite Hc. cbn [fst snd]. rewrite Hu. reflexivity.
  - intros c url e Hc Hu Hs.
    unfold invokeSignedApiRequest, bind, settle, emit, modify, throw, ret.
    rewrite Hc. cbn [fst snd]. rewrite Hu. cbn [fst snd]. rewrite Hs.
    reflexivity.
  - intros c url signed Hc Hu Hs.
    unfold invokeSignedApiRequest, bind, settle, emit, modify, throw, ret.
    rewrite Hc. cbn [fst snd]. rewrite Hu. cbn [fst snd]. rewrite Hs.
    cbn [fst snd].
    destruct (fetch env (endpoint params) signed) as [e | response];
      cbn [fst snd].
    + split; [reflexivity|]. intros e' He'. congruence.
    + split; [|discriminate].
      destruct (json_ response) as [e | responseBody]; cbn [fst snd];
        [reflexivity|].
      destruct (ok response); reflexivity.
Qed.

(** With credentials, URL and signature in hand and a response whose body is
    JSON, the buffered transport returns the body exactly when the status is
    within 200..299; outside that range it throws the error that names the
    status, and the body is lost to the caller. *)
Theorem buffered_client_outcome_by_status
        (params : InvokeParams) (c : Credentials) (url : URL) (signed : HttpRequest)
        (response : Response) (responseBody : json) (t : Trace) :
  credentialProvider env (profile params) = inr (Some c) ->
  newURL env (endpoint params) = inr url ->
  sign env c (region params) "execute-api"
       (prepare url (match ip_method params with Some m => m | None => "POST" end)
                (ip_body params)) = inr signed ->
  fetch env (endpoint params) signed = inr response ->
  json_ response = inr responseBody ->
  ((200 <= status response <= 299)%Z
   <-> fst (invokeSignedApiRequest env params t) = Ok responseBody)
  /\ (~ (200 <= status response <= 299)%Z
      <-> fst (invokeSignedApiRequest env params t)
          = Throw ("Request failed with status "
                     ++ JS.string_of_Z (status response))).
Proof.
  intros Hc Hu Hs Hf Hj.
  unfold invokeSignedApiRequest, bind, settle, emit, modify, throw, ret.
  rewrite Hc, Hu, Hs, Hf, Hj. cbn [fst snd]. unfold ok.
  destruct (200 <=? status response)%Z eqn:H1;
    destruct (status response <=? 299)%Z eqn:H2; cbn [andb negb fst];
    rewrite ?Z.leb_le, ?Z.leb_gt in H1, H2;
    (split; split; intros H; try reflexivity; try discriminate; try lia).
  all: exfalso; apply H; lia.
Qed.

End TransportMore.

Lemma buffered_client_outcome_by_status_witness :
  ((200 <= 200 <= 299)%Z
   <-> fst (InvokeApiUtils.invokeSignedApiRequest
              (Demo.env (Demo.response 200 (Json.wire "{'message':'pong'}") []))
              Demo.buffered_params [])
       = Eff.Ok (Json.JObject [("message", Json.JString "pong")]))
  /\ (~ (200 <= 200 <= 299)%Z
      <-> fst (InvokeApiUtils.invokeSignedApiRequest
                 (Demo.env (Demo.response 200 (Json.wire "{'message':'pong'}") []))
                 Demo.buffered_params [])
          = Eff.Throw ("Request failed with status " ++ JS.string_of_Z 200)).
Proof.
  apply (buffered_client_outcome_by_status
           (Demo.env (Demo.response 200 (Json.wire "{'message':'pong'}") []))
           Demo.buffered_params Demo.credentials Demo.url Demo.request
           (Demo.response 200 (Json.wire "{'message':'pong'}") [])
           (Json.JObject [("message", Json.JString "pong")]) []);
    reflexivity.
Defined.



(* ===================================================================== *)
(** ** The commands of the chat client                                    *)
(* ===================================================================== *)

Section CommandFacts.
Import Eff Json InvokeApiUtils InteractiveChat Chat.

Lemma slash_first (input : string) :
  JS.startsWith input "/" = true -> exists rest, input = String "/" rest.
Proof.
  destruct input as [|c rest]; [discriminate|].
  cbn [JS.startsWith]. rewrite andb_true_r. intros H.
  apply Ascii.eqb_eq in H. subst c. eauto.
Qed.

(** The old forms without a slash are out of reach of a line that starts
    with one. *)
Lemma slash_not_legacy (rest : string) :
  String.eqb (toLowerCase (String "/" rest)) "exit" = false
  /\ String.eqb (toLowerCase (String "/" rest)) "quit" = false
  /\ JS.startsWith (toLowerCase (String "/" rest)) "agent:" = false.
Proof. repeat split; reflexivity. Qed.

Lemma switchTo_result (agentName : string) (state : ChatState) (r : CommandResult) :
  switchTo agentName state = r ->
  match r with
  | SwitchAgent agent =>
      JS.array_includes Constants.AWS_AGENT_NAMES_WITH_NETWORK agent = true
      /\ agent <> currentAgent state
  | Continue | Error _ => True
  | _ => False
  end.
Proof.
  unfold switchTo. intros <-.
  destruct (JS.array_includes _ _) eqn:Hin; [|exact I].
  destruct (String.eqb _ (currentAgent state)) eqn:Heq; cbn [negb]; [exact I|].
  split; [exact Hin|]. apply String.eqb_neq. exact Heq.
Qed.

(** A line of ASCII characters that starts with a slash is never sent to
    the agent as it was typed: the one query that a command gives is the
    fixed question of [/capabilities], and a command word that is none of
    the nine known ones gives the error that names it. The old forms [exit],
    [quit] and [agent:<name>] in the default branch are never reached by
    such a line. *)
Theorem slash_line_is_a_command (input : string) (state : ChatState)
        (config : AppConfig) :
  ascii_only input = true ->
  JS.startsWith input "/" = true ->
  (forall query, processCommand input state config = Query query ->
                 query = "What are your capabilities?")
  /\ (JS.array_includes ChatObserve.commands
        (toLowerCase (List.hd "" (commandWords input))) = false ->
      processCommand input state config
      = Error ("Unknown command: " ++ List.hd "" (commandWords input)
                 ++ ". Type /help for available commands.")).
Proof.
  intros _ Hs. destruct (slash_first input Hs) as [rest ->].
  destruct (slash_not_legacy rest) as (He & Hq & Ha).
  unfold processCommand. rewrite Hs, He, Hq, Ha. cbn [negb orb andb].
  set (command := toLowerCase (List.hd "" (commandWords (String "/" rest)))).
  split.
  - intros query.
    repeat match goal with
           | |- context [String.eqb command ?c] =>
               destruct (String.eqb command c); cbn [orb]
           end;
      try discriminate; try (intros [= <-]; reflexivity).
    all: try (destruct (JS.truthy _); cbn [negb]; try discriminate).
    all: try (intros H; apply switchTo_result in H; destruct H).
    all: destruct (JS.truthy_opt _); cbn [negb]; discriminate.
  - unfold ChatObserve.commands. cbn [JS.array_includes].
    intros H.
    repeat (apply orb_false_elim in H; destruct H as [?H H]).
    repeat match goal with
           | E : String.eqb ?c command = false |- _ =>
               rewrite String.eqb_sym in E; rewrite E; clear E
           end.
    reflexivity.
Qed.

(** The two tables of aliases agree with the enumeration: every alias names
    an agent of the enumeration, and the alias that the help shows for an
    agent selects that very agent. *)
Theorem aliases_select_their_agents :
  (forall alias agent,
      lookup aliasToAgent alias = Some agent ->
      JS.array_includes Constants.AWS_AGENT_NAMES_WITH_NETWORK agent = true)
  /\ (forall agent,
        In agent Constants.AWS_AGENT_NAMES_WITH_NETWORK ->
        exists alias,
          lookup agentToAlias agent = Some alias
          /\ lookup aliasToAgent alias = Some agent
          /\ forall state, currentAgent state <> agent ->
                           switchTo alias state = SwitchAgent agent).
Proof.
  split.
  - intros alias agent. unfold aliasToAgent. cbn [lookup].
    repeat match goal with
           | |- context [String.eqb ?k alias] => destruct (String.eqb k alias)
           end;
      intros H; try discriminate H; injection H as <-; reflexivity.
  - intros agent Hin. cbn in Hin.
    repeat (destruct Hin as [<- | Hin]); try contradiction;
      eexists; (split; [reflexivity|]); (split; [reflexivity|]);
      intros state Hne; unfold switchTo;
      match goal with
      | |- context [JS.or_else ?o ?d] =>
          let v := eval vm_compute in (JS.or_else o d) in
          change (JS.or_else o d) with v
      end;
      match goal with
      | |- context [JS.array_includes ?l ?x] =>
          change (JS.array_includes l x) with true
      end;
      cbn iota;
      match goal with
      | |- context [String.eqb ?a ?b] =>
          destruct (String.eqb a b) eqn:E;
          [apply String.eqb_eq in E; exfalso; apply Hne; symmetry; exact E
          | reflexivity]
      end.
Qed.

End CommandFacts.

Lemma slash_line_is_a_command_witness :
  (forall query,
      Chat.processCommand "/exti now"
        {| InteractiveChat.currentAgent := "awsAgent";
           InteractiveChat.useStreaming := true |} Demo.config
      = Chat.Query query ->
      query = "What are your capabilities?")
  /\ (JS.array_includes ChatObserve.commands
        (Chat.toLowerCase (List.hd "" (Chat.commandWords "/exti now"))) = false ->
      Chat.processCommand "/exti now"
        {| InteractiveChat.currentAgent := "awsAgent";
           InteractiveChat.useStreaming := true |} Demo.config
      = Chat.Error ("Unknown command: " ++ List.hd "" (Chat.commandWords "/exti now")
                      ++ ". Type /help for available commands.")).
Proof.
  apply (slash_line_is_a_command "/exti now"
           {| InteractiveChat.currentAgent := "awsAgent";
              InteractiveChat.useStreaming := true |} Demo.config).
  - reflexivity.
  - reflexivity.
Defined.

(* ===================================================================== *)
(** ** The configuration, the queries and the loop of the chat client     *)
(* ===================================================================== *)

Section ChatLoopFacts.
Import Eff Json InvokeApiUtils InteractiveChat Chat.

Variable env : Env.

Ltac env_case :=
  match goal with
  | |- context [credentialProvider env ?p] =>
      destruct (credentialProvider env p) as [?err | [?c|]] eqn:?
  | |- context [describeStacks env ?r ?c ?n] =>
      destruct (describeStacks env r c n) as [?err | ?out] eqn:?
  | |- context [JS.truthy_opt (findOutput ?o ?k)] =>
      destruct (JS.truthy_opt (findOutput o k)) eqn:?
  end.

(** With the options in hand, the resolution of the configuration returns
    a configuration or ends the process with status 1. A configuration it
    returns has the address that its initial mode needs. *)
Lemma config_from_argv (argv : Argv) (t : Trace) :
  (exists t', loadAndValidateConfig env argv t = (Exit 1, t'))
  \/ (exists config t',
        loadAndValidateConfig env argv t = (Ok config, t')
        /\ ChatObserve.has_transport config
             {| currentAgent := initialAgent config;
                useStreaming := initialUseStreaming config |} = true
        /\ (initialUseStreaming config = true -> streaming argv = true)
        /\ initialAgent config = agent argv).
Proof.
  unfold loadAndValidateConfig, getFunctionUrl, getApiEndpoint, lookupOutput.
  unfold try_catch, bind, settle, emit, modify, throw, ret, exit.
  cbn [fst snd].
  unfold ChatObserve.has_transport.
  destruct (streaming argv) eqn:Hst;
    destruct (endpoint argv) as [[|a e]|] eqn:Hen;
    cbn [JS.truthy_opt JS.truthy negb andb];
    repeat (env_case; cbn [fst snd JS.truthy_opt JS.truthy negb andb]);
    repeat match goal with
           | |- context [JS.truthy_opt ?x] =>
               destruct (JS.truthy_opt x) eqn:?;
               cbn [fst snd JS.truthy_opt JS.truthy negb andb]
           end;
    first
      [ left; eexists; reflexivity
      | right; do 2 eexists; split; [reflexivity|];
        cbn [initialUseStreaming lambdaFunctionUrl apiGatewayEndpoint
               initialAgent useStreaming currentAgent JS.truthy_opt JS.truthy];
        repeat split; solve [assumption | reflexivity | discriminate
                             | intros; assumption | intros; reflexivity] ].
Qed.

(** The resolution of the configuration never throws. When yargs shows the
    help or the version, the process ends with status 0 and nothing has been
    looked up; when an option fails the validation of yargs, it ends with
    status 1, again with nothing looked up; with the options in hand, it
    returns a configuration or ends the process with status 1. A
    configuration it returns has the address that its initial mode needs:
    the Function URL when streaming is on, the API Gateway endpoint when it
    is off; streaming is on only when it was asked for, and the initial
    agent is that of the options. *)
Theorem config_has_initial_transport (yargs : list string -> Cli.YargsOutcome)
        (args : list string) (t : Trace) :
  match yargs (Cli.processedArgs args) with
  | Cli.HelpShown | Cli.VersionShown =>
      Cli.loadAndValidateConfig env yargs args t = (Exit 0, t)
  | Cli.ValidationFailed =>
      Cli.loadAndValidateConfig env yargs args t = (Exit 1, t)
  | Cli.Parsed argv =>
      (exists t', Cli.loadAndValidateConfig env yargs args t = (Exit 1, t'))
      \/ (exists config t',
            Cli.loadAndValidateConfig env yargs args t = (Ok config, t')
            /\ ChatObserve.has_transport config
                 {| currentAgent := initialAgent config;
                    useStreaming := initialUseStreaming config |} = true
            /\ (initialUseStreaming config = true -> streaming argv = true)
            /\ initialAgent config = agent argv)
  end.
Proof.
  unfold Cli.loadAndValidateConfig, Cli.loadCliArgs.
  destruct (yargs (Cli.processedArgs args)) as [argv| | |]; try reflexivity.
  change (bind (ret argv) (InteractiveChat.loadAndValidateConfig env) t)
    with (InteractiveChat.loadAndValidateConfig env argv t).
  apply config_from_argv.
Qed.

End ChatLoopFacts.

(* ===================================================================== *)
(** ** How the computations of the chat client end                        *)
(* ===================================================================== *)

Section OutcomeFacts.
Import Eff Outcomes.

Context {S : Type}.

Lemma ends_ret {A} (a : A) (throws : bool) (codes : list Z) :
  ends_within true throws codes (@ret S A a).
Proof. intros s. reflexivity. Qed.

Lemma ends_throw {A} (e : exn) (returns : bool) (codes : list Z) :
  ends_within returns true codes (@throw S A e).
Proof. intros s. reflexivity. Qed.

Lemma ends_exit {A} (code : Z) (returns throws : bool) (codes : list Z) :
  In code codes -> ends_within returns throws codes (@exit S A code).
Proof. intros H s. exact H. Qed.

Lemma ends_settle {A} (r : Result A) (codes : list Z) :
  ends_within true true codes (@settle S A r).
Proof. intros s. destruct r; reflexivity. Qed.

Lemma ends_modify (f : S -> S) (throws : bool) (codes : list Z) :
  ends_within true throws codes (modify f).
Proof. intros s. reflexivity. Qed.

Lemma ends_bind {A B} (m : M S A) (k : A -> M S B)
      (returns returns' throws : bool) (codes : list Z) :
  ends_within returns throws codes m ->
  (forall a, ends_within returns' throws codes (k a)) ->
  ends_within returns' throws codes (bind m k).
Proof.
  intros Hm Hk s. specialize (Hm s). unfold bind.
  destruct (m s) as [[a | e | code] s1]; cbn [fst] in *; auto.
  apply Hk.
Qed.

Lemma ends_try_catch {A} (body : M S A) (handler : exn -> M S A)
      (returns throws throws' : bool) (codes : list Z) :
  ends_within returns throws codes body ->
  (forall e, ends_within returns throws' codes (handler e)) ->
  ends_within returns throws' codes (try_catch body handler).
Proof.
  intros Hb Hh s. specialize (Hb s). unfold try_catch.
  destruct (body s) as [[a | e | code] s1]; cbn [fst] in *; auto.
  apply Hh.
Qed.

Lemma bind_ok {A B} (m : M S A) (k : A -> M S B) (s s1 : S) (a : A) :
  m s = (Ok a, s1) -> bind m k s = k a s1.
Proof. intros H. unfold bind. rewrite H. reflexivity. Qed.

Lemma ends_weaken {A} (m : M S A) (returns throws returns' throws' : bool)
      (codes codes' : list Z) :
  ends_within returns throws codes m ->
  (returns = true -> returns' = true) ->
  (throws = true -> throws' = true) ->
  incl codes codes' ->
  ends_within returns' throws' codes' m.
Proof.
  intros Hm Hr Ht Hi s. specialize (Hm s).
  destruct (fst (m s)); auto.
Qed.

End OutcomeFacts.

Section ChatOutcomes.
Import Eff Json InvokeApiUtils InteractiveChat Chat Outcomes.

Variable env : Env.
Variable Decoder : Type.
Variable new_TextDecoder : Decoder.
Variable decode : Decoder -> list byte -> Decoder * string.
Variable handleStreamingChunk : string -> M Trace unit.
Variable stringify : json -> string.
Variable String_ : json -> string.

(** The callback returns or throws; it does not end the process. *)
Hypothesis handler_stays :
  forall chunk, ends_within true true [] (handleStreamingChunk chunk).

Lemma ends_invokeSignedApiRequest (params : InvokeParams) :
  ends_within true true [] (invokeSignedApiRequest env params).
Proof.
  unfold invokeSignedApiRequest.
  eapply ends_bind; [apply ends_settle | intros credentials].
  eapply ends_bind; [apply ends_settle | intros url].
  destruct credentials as [c|]; [|apply ends_throw].
  eapply ends_bind; [apply ends_settle | intros signed].
  eapply ends_bind; [apply (ends_modify _ true) | intros _].
  eapply ends_bind; [apply ends_settle | intros response].
  eapply ends_bind; [apply ends_settle | intros responseBody].
  destruct (negb (ok response)); [apply ends_throw | apply ends_ret].
Qed.

Lemma ends_read_loop (reads : list ReadStep) (d : Decoder) :
  ends_within true true []
    (read_loop Decoder decode reads d handleStreamingChunk).
Proof.
  revert d. induction reads as [|[[value|]|e] rest IH]; intros d;
    cbn [read_loop].
  - apply ends_ret.
  - destruct (decode d value) as [d' chunk].
    eapply ends_bind; [apply (ends_modify _ true) | intros _].
    eapply ends_bind; [apply handler_stays | intros _]. apply IH.
  - apply IH.
  - apply ends_throw.
Qed.

Lemma ends_invokeStreamingRequest (functionUrl region body : string)
      (profile : option string) :
  ends_within true true []
    (invokeStreamingRequest env Decoder new_TextDecoder decode
       {| InvokeApiUtils.functionUrl := functionUrl;
          sp_region := region; sp_profile := profile; sp_body := body;
          onChunk := handleStreamingChunk |}).
Proof.
  unfold invokeStreamingRequest. cbn [sp_profile sp_region sp_body onChunk
                                        InvokeApiUtils.functionUrl].
  eapply ends_bind; [apply ends_settle | intros credentials].
  destruct credentials as [c|]; [|apply ends_throw].
  eapply ends_bind; [apply ends_settle | intros url].
  eapply ends_bind; [apply ends_settle | intros signed].
  eapply ends_bind; [apply (ends_modify _ true) | intros _].
  eapply ends_bind; [apply ends_settle | intros response].
  destruct (negb (ok response)).
  - eapply ends_bind; [apply ends_settle | intros errorText]. apply ends_throw.
  - destruct (InvokeApiUtils.body response) as [reads|];
      [apply ends_read_loop | apply ends_throw].
Qed.

Lemma ends_agentResponse (responseBody : json) :
  ends_within true true [] (agentResponse stringify String_ responseBody).
Proof.
  unfold agentResponse.
  destruct responseBody as [| b | n | str | items | members];
    try apply ends_ret; try apply ends_throw.
  destruct (get members "message") as [[| b | n | str | items | ms]|];
    apply ends_ret.
Qed.

Lemma ends_log (line : string) (throws : bool) (codes : list Z) :
  ends_within true throws codes (log line).
Proof. apply ends_modify. Qed.

Lemma ends_stop (message : string) (throws : bool) (codes : list Z) :
  ends_within true throws codes (stop message).
Proof. apply ends_modify. Qed.

(** The part of [invokeAgent] and of [executeSingleQuery] that talks to the
    API Gateway. *)
Lemma ends_standard (params : InvokeParams) (message : string)
      (show : string -> string) :
  ends_within true true []
    (try_catch
       (bind (invokeSignedApiRequest env params)
          (fun responseBody =>
             bind (stop message)
               (fun _ =>
                  bind (agentResponse stringify String_ responseBody)
                    (fun shown => log (show shown)))))
       (fun error => bind (stop message) (fun _ => throw error))).
Proof.
  eapply ends_try_catch.
  - eapply ends_bind; [apply ends_invokeSignedApiRequest | intros responseBody].
    eapply ends_bind; [apply (ends_stop _ true) | intros _].
    eapply ends_bind; [apply ends_agentResponse | intros shown].
    apply ends_log.
  - intros e. eapply ends_bind; [apply (ends_stop _ true) | intros _].
    apply ends_throw.
Qed.

(** A query of the chat always comes back to the prompt: [invokeAgent]
    returns, whatever the transport does, and the last thing it prints is
    the separator line. *)
Theorem invokeAgent_always_returns (query : string) (state : ChatState)
        (config : AppConfig) (t : Trace) :
  exists t',
    invokeAgent env Decoder new_TextDecoder decode handleStreamingChunk
      stringify String_ query state config t
    = (Ok tt, (t' ++ [ConsoleLog separator])%list).
Proof.
  unfold invokeAgent. cbv zeta.
  match goal with
  | |- exists t', bind ?body _ t = _ =>
      assert (Hbody : ends_within true false [] body)
  end.
  { eapply ends_try_catch with (throws := true); [|intros e; apply ends_log].
    match goal with
    | |- ends_within _ _ _ (match ?c with Some _ => _ | None => ?standard end) =>
        assert (Hstandard : ends_within true true [] standard);
        [| destruct c as [functionUrl|]; [|exact Hstandard];
           destruct (JS.truthy functionUrl); [|exact Hstandard] ]
    end.
    - destruct (apiGatewayEndpoint config) as [e|]; [|apply ends_ret].
      destruct (JS.truthy e); [|apply ends_ret].
      apply (ends_standard _ _
               (fun shown =>
                  colors.bold ++ colors.blue ++ "Agent (" ++ currentAgent state
                    ++ "):" ++ colors.reset ++ " " ++ shown)).
    - eapply ends_bind; [apply (ends_log _ true) | intros _].
      eapply ends_bind; [apply ends_invokeStreamingRequest | intros _].
      apply ends_log. }
  match goal with
  | |- exists t', bind ?body _ t = _ =>
      specialize (Hbody t);
      destruct (body t) as [[[] | e | code] t1] eqn:E; cbn [fst] in Hbody
  end.
  - exists t1. rewrite (bind_ok _ _ _ _ _ E). reflexivity.
  - discriminate Hbody.
  - contradiction Hbody.
Qed.

(** The single query mode always ends the process, with status 0 or 1:
    [executeSingleQuery] neither returns nor throws. *)
Theorem executeSingleQuery_always_exits (config : AppConfig) (t : Trace) :
  exists code t',
    executeSingleQuery env Decoder new_TextDecoder decode handleStreamingChunk
      stringify String_ config t
    = (Exit code, t')
    /\ (code = 0%Z \/ code = 1%Z).
Proof.
  assert (H : ends_within false false [0%Z; 1%Z]
                (executeSingleQuery env Decoder new_TextDecoder decode
                   handleStreamingChunk stringify String_ config)).
  { unfold executeSingleQuery. cbv zeta.
    do 5 (eapply ends_bind; [apply (ends_log _ false) | intros _]).
    eapply ends_try_catch with (throws := true);
      [|intros e; apply ends_exit; right; left; reflexivity].
    eapply ends_bind with (returns := true).
    - match goal with
      | |- ends_within _ _ _ (match ?c with Some _ => _ | None => ?standard end) =>
          assert (Hstandard : ends_within true true [0%Z; 1%Z] standard);
          [| destruct c as [functionUrl|]; [|exact Hstandard];
             destruct (JS.truthy functionUrl); [|exact Hstandard] ]
      end.
      + destruct (apiGatewayEndpoint config) as [e|];
          [|apply ends_exit; right; left; reflexivity].
        destruct (JS.truthy e); [|apply ends_exit; right; left; reflexivity].
        eapply ends_weaken;
          [ apply (ends_standard _ _
                     (fun shown =>
                        colors.bold ++ colors.blue ++ "Agent ("
                          ++ initialAgent config ++ "):" ++ colors.reset
                          ++ " " ++ shown))
          | auto | auto | intros x [] ].
      + eapply ends_bind; [apply (ends_log _ true) | intros _].
        eapply ends_bind;
          [ eapply ends_weaken;
            [apply ends_invokeStreamingRequest | auto | auto | intros x []]
          | intros _ ].
        apply ends_log.
    - intros _. eapply ends_bind; [apply (ends_log _ true) | intros _].
      apply ends_exit. left. reflexivity. }
  specialize (H t).
  destruct (executeSingleQuery env Decoder new_TextDecoder decode
              handleStreamingChunk stringify String_ config t)
    as [[[] | e | code] t'] eqn:E; cbn [fst] in H.
  - discriminate H.
  - discriminate H.
  - exists code, t'. split; [reflexivity|].
    destruct H as [<- | [<- | []]]; auto.
Qed.

End ChatOutcomes.

Lemma invokeAgent_always_returns_witness :
  exists t',
    Chat.invokeAgent (Demo.env Demo.hello) unit tt Demo.decode Demo.print
      Json.JSON_stringify Json.JSON_stringify "list my buckets"
      {| InteractiveChat.currentAgent := "s3Agent";
         InteractiveChat.useStreaming := true |} Demo.config []
    = (Eff.Ok tt, (t' ++ [InvokeApiUtils.ConsoleLog Chat.separator])%list).
Proof.
  apply (invokeAgent_always_returns (Demo.env Demo.hello) unit tt Demo.decode
           Demo.print Json.JSON_stringify Json.JSON_stringify
           (fun chunk s => eq_refl) "list my buckets"
           {| InteractiveChat.currentAgent := "s3Agent";
              InteractiveChat.useStreaming := true |} Demo.config []).
Defined.

Lemma executeSingleQuery_always_exits_witness :
  exists code t',
    Chat.executeSingleQuery (Demo.env Demo.bad_gateway) unit tt Demo.decode
      Demo.print Json.JSON_stringify Json.JSON_stringify Demo.config []
    = (Eff.Exit code, t')
    /\ (code = 0%Z \/ code = 1%Z).
Proof.
  apply (executeSingleQuery_always_exits (Demo.env Demo.bad_gateway) unit tt
           Demo.decode Demo.print Json.JSON_stringify Json.JSON_stringify
           (fun chunk s => eq_refl) Demo.config []).
Defined.

(* ===================================================================== *)
(** ** The state of the chat from one line to the next                    *)
(* ===================================================================== *)

Section ChatSession.
Import Eff Json InvokeApiUtils InteractiveChat Chat.

Variable env : Env.
Variable Decoder : Type.
Variable new_TextDecoder : Decoder.
Variable decode : Decoder -> list byte -> Decoder * string.
Variable handleStreamingChunk : string -> M Trace unit.
Variable stringify : json -> string.
Variable String_ : json -> string.

(** What [processCommand] asks the loop to change. *)
Lemma processCommand_result (input : string) (state : ChatState)
      (config : AppConfig) :
  match processCommand input state config with
  | SwitchAgent agent =>
      JS.array_includes Constants.AWS_AGENT_NAMES_WITH_NETWORK agent = true
  | ToggleStreaming enabled =>
      JS.truthy_opt (lambdaFunctionUrl config) = true
      /\ enabled = negb (useStreaming state)
  | _ => True
  end.
Proof.
  unfold processCommand.
  repeat match goal with
         | |- context [if ?b then _ else _] =>
             lazymatch b with
             | context [switchTo] => fail
             | _ => destruct b eqn:?
             end
         end;
    try exact I.
  - match goal with
    | |- context [switchTo ?a ?s] =>
        pose proof (switchTo_result a s _ eq_refl) as H;
        destruct (switchTo a s); try exact I; try contradiction; apply H
    end.
  - split; [|reflexivity].
    destruct (JS.truthy_opt (lambdaFunctionUrl config));
      [reflexivity | discriminate].
  - match goal with
    | |- context [switchTo ?a ?s] =>
        pose proof (switchTo_result a s _ eq_refl) as H;
        destruct (switchTo a s); try exact I; try contradiction; apply H
    end.
Qed.

Lemma turn_keeps_state (input : string) (state state' : ChatState)
      (config : AppConfig) (t t' : Trace) :
  turn env Decoder new_TextDecoder decode handleStreamingChunk stringify String_
       input state config t = (Ok state', t') ->
  ChatObserve.known_agent state = true ->
  ChatObserve.can_stream config state = true ->
  ChatObserve.known_agent state' = true
  /\ ChatObserve.can_stream config state' = true.
Proof.
  unfold turn. intros H Hk Hc.
  pose proof (processCommand_result input state config) as Hr.
  destruct (processCommand input state config) as
    [ | | query | agent | enabled | | | message ].
  - injection H as <- _. auto.
  - apply bind_ok_inv in H. destruct H as (a & t1 & _ & H). discriminate H.
  - apply bind_ok_inv in H. destruct H as (a & t1 & _ & H).
    injection H as <- _. auto.
  - apply bind_ok_inv in H. destruct H as (a & t1 & _ & H).
    apply bind_ok_inv in H. destruct H as (b & t2 & _ & H).
    injection H as <- _. split; [exact Hr|].
    unfold ChatObserve.can_stream in *. exact Hc.
  - apply bind_ok_inv in H. destruct H as (a & t1 & _ & H).
    apply bind_ok_inv in H. destruct H as (b & t2 & _ & H).
    injection H as <- _. split; [exact Hk|].
    destruct Hr as [Hu _]. unfold ChatObserve.can_stream.
    cbn [useStreaming]. rewrite Hu. destruct enabled; reflexivity.
  - apply bind_ok_inv in H. destruct H as (a & t1 & _ & H).
    injection H as <- _. auto.
  - apply bind_ok_inv in H. destruct H as (a & t1 & _ & H).
    injection H as <- _. auto.
  - apply bind_ok_inv in H. destruct H as (a & t1 & _ & H).
    apply bind_ok_inv in H. destruct H as (b & t2 & _ & H).
    injection H as <- _. auto.
Qed.

(** Whatever is typed, the chat stays in a state the server accepts: after
    any number of lines the current agent is one of the enumeration, and
    streaming is on only when there is a Function URL. *)
Theorem chat_state_stays_valid (inputs : list string) (state state' : ChatState)
        (config : AppConfig) (t t' : Trace) :
  ChatObserve.known_agent state = true ->
  ChatObserve.can_stream config state = true ->
  turns env Decoder new_TextDecoder decode handleStreamingChunk stringify String_
        inputs state config t = (Ok state', t') ->
  ChatObserve.known_agent state' = true
  /\ ChatObserve.can_stream config state' = true.
Proof.
  revert state t. induction inputs as [|input rest IH]; intros state t Hk Hc H;
    cbn [turns] in H.
  - injection H as <- _. auto.
  - apply bind_ok_inv in H. destruct H as (state1 & t1 & H1 & H).
    destruct (turn_keeps_state _ _ _ _ _ _ H1 Hk Hc) as [Hk1 Hc1].
    exact (IH state1 t1 Hk1 Hc1 H).
Qed.

(** The check that [invokeAgent] calls a safeguard can fail: a chat that
    started in streaming mode without [--endpoint] has no API Gateway
    endpoint, [/streaming] switches its streaming off all the same, and
    from then on a query is not sent at all: nothing is fetched, and the
    separator line is all that is printed. *)
Theorem toggle_off_leaves_no_transport (argv : Argv) (config : AppConfig)
        (t t' : Trace) :
  loadAndValidateConfig env argv t = (Ok config, t') ->
  initialUseStreaming config = true ->
  JS.truthy_opt (endpoint argv) = false ->
  processCommand "/streaming"
    {| currentAgent := initialAgent config; useStreaming := true |} config
  = ToggleStreaming false
  /\ ChatObserve.has_transport config
       {| currentAgent := initialAgent config; useStreaming := false |} = false
  /\ (forall query agent t0,
        invokeAgent env Decoder new_TextDecoder decode handleStreamingChunk
          stringify String_ query
          {| currentAgent := agent; useStreaming := false |} config t0
        = (Ok tt, (t0 ++ [ConsoleLog separator])%list)).
Proof.
  intros Hload Hs He.
  assert (Hcfg : JS.truthy_opt (lambdaFunctionUrl config) = true
                 /\ JS.truthy_opt (apiGatewayEndpoint config) = false).
  { revert Hload Hs.
    unfold loadAndValidateConfig, getFunctionUrl, getApiEndpoint, lookupOutput.
    unfold try_catch, bind, settle, emit, modify, throw, ret, exit.
    cbn [fst snd]. rewrite He. cbn [negb andb].
    repeat match goal with
           | |- context [credentialProvider env ?p] =>
               destruct (credentialProvider env p) as [?err | [?c|]]; cbn [fst snd]
           | |- context [describeStacks env ?r ?c ?n] =>
               destruct (describeStacks env r c n) as [?err | ?out]; cbn [fst snd]
           | |- context [if ?b then _ else _] => destruct b eqn:?; cbn [fst snd]
           end;
      intros H; try discriminate H; injection H as <- _;
      cbn [initialUseStreaming lambdaFunctionUrl apiGatewayEndpoint];
      intros Hst; try discriminate Hst;
      cbn [JS.truthy_opt negb andb] in *;
      repeat match goal with
             | E : negb ?b = _ |- _ => destruct b eqn:?; cbn [negb] in E
             end;
      try discriminate; auto;
      match goal with
      | E : context [JS.truthy_opt (findOutput ?o ?k)] |- _ =>
          destruct (JS.truthy_opt (findOutput o k))
      end;
      cbn [negb andb] in *; try discriminate; auto. }
  destruct Hcfg as [Hurl Hend].
  split; [|split].
  - unfold processCommand. cbn -[JS.truthy_opt]. rewrite Hurl. reflexivity.
  - unfold ChatObserve.has_transport. cbn [useStreaming]. exact Hend.
  - intros query agent t0. unfold invokeAgent. cbn [useStreaming].
    destruct (apiGatewayEndpoint config) as [e|]; cbn [JS.truthy_opt] in Hend;
      [rewrite Hend|]; reflexivity.
Qed.

End ChatSession.

Lemma chat_state_stays_valid_witness :
  ChatObserve.known_agent Cases.chat_end = true
  /\ ChatObserve.can_stream Demo.config Cases.chat_end = true.
Proof.
  apply (chat_state_stays_valid (Demo.env Demo.hello) unit tt Demo.decode
           Demo.print Json.JSON_stringify Json.JSON_stringify
           Cases.chat_lines Cases.chat_start Cases.chat_end Demo.config []
           (snd (Chat.turns (Demo.env Demo.hello) unit tt Demo.decode Demo.print
                   Json.JSON_stringify Json.JSON_stringify
                   Cases.chat_lines Cases.chat_start Demo.config []))).
  - reflexivity.
  - reflexivity.
  - vm_compute. reflexivity.
Defined.

Lemma toggle_off_leaves_no_transport_witness :
  Chat.processCommand "/streaming"
    {| InteractiveChat.currentAgent := InteractiveChat.initialAgent Demo.config;
       InteractiveChat.useStreaming := true |} Demo.config
  = Chat.ToggleStreaming false
  /\ ChatObserve.has_transport Demo.config
       {| InteractiveChat.currentAgent := InteractiveChat.initialAgent Demo.config;
          InteractiveChat.useStreaming := false |} = false
  /\ (forall query agent t0,
        Chat.invokeAgent (Demo.env Demo.hello) unit tt Demo.decode Demo.print
          Json.JSON_stringify Json.JSON_stringify query
          {| InteractiveChat.currentAgent := agent;
             InteractiveChat.useStreaming := false |} Demo.config t0
        = (Eff.Ok tt, (t0 ++ [InvokeApiUtils.ConsoleLog Chat.separator])%list)).
Proof.
  apply (toggle_off_leaves_no_transport (Demo.env Demo.hello) unit tt Demo.decode
           Demo.print Json.JSON_stringify Json.JSON_stringify
           (Demo.argv None None "awsAgent") Demo.config [] Demo.config_trace).
  - vm_compute. reflexivity.
  - reflexivity.
  - reflexivity.
Defined.

(* ===================================================================== *)
(** ** From the clients to the handlers                                   *)
(* ===================================================================== *)

Section ClientsToHandlers.
Import Eff Json Zod Lib.

Lemma length_append (a b : string) :
  String.length (a ++ b) = String.length a + String.length b.
Proof. induction a as [|c a IH]; [reflexivity | cbn; rewrite IH; reflexivity]. Qed.

Lemma namespaced_differs (agent threadId : string) :
  ThreadId.namespacedThreadId agent threadId <> threadId.
Proof.
  unfold ThreadId.namespacedThreadId, ThreadId.SEP. intros H.
  apply (f_equal String.length) in H. rewrite !length_append in H.
  cbn [String.length] in H. lia.
Qed.

(** An object that has the four fields as strings, the agent being one of
    the enumeration, is a valid envelope, whatever the order of its keys. *)
Lemma named_envelope_valid (p : list string) (ms : list (string * json))
      (q t r a : string) :
  get ms "query" = Some (JString q) ->
  get ms "threadId" = Some (JString t) ->
  get ms "resourceId" = Some (JString r) ->
  get ms "agent" = Some (JString a) ->
  JS.array_includes Constants.AWS_AGENT_NAMES_WITH_NETWORK a = true ->
  Shared.BodyContentSchema p (Some (JObject ms))
  = Valid {| Shared.query := q; Shared.threadId := t; Shared.resourceId := r;
             Shared.agent := a |}.
Proof.
  intros Hq Ht Hr Ha Hin. unfold Shared.BodyContentSchema, optional_default, enum.
  rewrite Hq, Ht, Hr, Ha. cbn -[JS.array_includes].
  match goal with
  | |- context [JS.array_includes ?l a] =>
      change (JS.array_includes l a)
        with (JS.array_includes Constants.AWS_AGENT_NAMES_WITH_NETWORK a)
  end.
  rewrite Hin. reflexivity.
Qed.

Variable JSON_parse : string -> option json.
Variable w : World.

(** The request of the chat client passes the validation of both handlers
    whenever [JSON.parse] reads back what [JSON.stringify] wrote, and the
    two handlers take it to different threads: for an agent that the
    instance holds, in every state that the process can reach, the
    streaming handler dispatches it once, in the thread
    [<agent>::thread-<sessionId>], and the buffered handler once, in the
    thread [thread-<sessionId>]; and in whatever state and with whatever
    instance, no dispatch of either handler carries another thread id. A
    chat that changes its mode with [/streaming] goes on in another thread
    of the agent's memory. *)
Theorem chat_modes_use_different_threads
        (query agent : string) (config : InteractiveChat.AppConfig)
        (streamed : Streaming.FunctionUrlEvent)
        (buffered : Buffered.APIGatewayProxyEvent) (st : State) :
  JSON_parse (InteractiveChat.requestBody query agent config)
  = Some (JObject
            [("query", JString query);
             ("threadId",
              JString ("thread-" ++ InteractiveChat.cfg_sessionId config));
             ("resourceId",
              JString ("resource-" ++ InteractiveChat.cfg_sessionId config));
             ("agent", JString agent)]) ->
  JS.array_includes Constants.AWS_AGENT_NAMES_WITH_NETWORK agent = true ->
  Streaming.body streamed
  = Some (JString (InteractiveChat.requestBody query agent config)) ->
  Buffered.body buffered
  = Some (JString (InteractiveChat.requestBody query agent config)) ->
  (exists added,
      trace (snd (Streaming.handler JSON_parse w streamed st))
      = (trace st ++ added)%list
      /\ Forall (eq (agent ++ "::thread-" ++ InteractiveChat.cfg_sessionId config))
                (Observe.dispatched_threadIds added))
  /\ (exists added,
        trace (snd (Buffered.handler JSON_parse w buffered st))
        = (trace st ++ added)%list
        /\ Forall (eq ("thread-" ++ InteractiveChat.cfg_sessionId config))
                  (Observe.dispatched_threadIds added))
  /\ agent ++ "::thread-" ++ InteractiveChat.cfg_sessionId config
     <> "thread-" ++ InteractiveChat.cfg_sessionId config
  /\ Shared.EventBodySchema JSON_parse ["body"] (Streaming.body streamed)
     = Valid {| Shared.query := query;
                Shared.threadId :=
                  "thread-" ++ InteractiveChat.cfg_sessionId config;
                Shared.resourceId :=
                  "resource-" ++ InteractiveChat.cfg_sessionId config;
                Shared.agent := agent |}
  /\ Shared.EventBodySchema JSON_parse ["body"] (Buffered.body buffered)
     = Valid {| Shared.query := query;
                Shared.threadId :=
                  "thread-" ++ InteractiveChat.cfg_sessionId config;
                Shared.resourceId :=
                  "resource-" ++ InteractiveChat.cfg_sessionId config;
                Shared.agent := agent |}
  /\ (forall m ag,
        Process.Reachable JSON_parse w st ->
        initializeMastra w 0 = inr m ->
        String.eqb agent "awsAgentNetwork" = false ->
        getAgent m agent = inr (Some ag) ->
        Observe.dispatched_threadIds
          (trace (snd (Streaming.handler JSON_parse w streamed st)))
        = (Observe.dispatched_threadIds (trace st)
             ++ [(agent ++ "::thread-"
                    ++ InteractiveChat.cfg_sessionId config)%string])%list
        /\ Observe.dispatched_threadIds
             (trace (snd (Buffered.handler JSON_parse w buffered st)))
           = (Observe.dispatched_threadIds (trace st)
                ++ [("thread-"
                       ++ InteractiveChat.cfg_sessionId config)%string])%list).
Proof.
  intros Hparse Hin Hs Hb.
  set (d := {| Shared.query := query;
               Shared.threadId := "thread-" ++ InteractiveChat.cfg_sessionId config;
               Shared.resourceId :=
                 "resource-" ++ InteractiveChat.cfg_sessionId config;
               Shared.agent := agent |}).
  assert (Hv : forall p,
             Shared.EventBodySchema JSON_parse p
               (Some (JString (InteractiveChat.requestBody query agent config)))
             = Valid d).
  { intros p. rewrite (EventBodySchema_text JSON_parse _ _ _ Hparse).
    apply named_envelope_valid; try reflexivity. exact Hin. }
  assert (Hvs : Shared.EventBodySchema JSON_parse ["body"] (Streaming.body streamed)
                = Valid d) by (rewrite Hs; apply Hv).
  assert (Hvb : Shared.EventBodySchema JSON_parse ["body"] (Buffered.body buffered)
                = Valid d) by (rewrite Hb; apply Hv).
  split; [|split; [|split; [|split; [|split]]]].
  - exact (streaming_dispatch_is_namespaced JSON_parse w streamed d st Hvs).
  - exact (buffered_dispatch_is_raw JSON_parse w buffered d st Hvb).
  - exact (namespaced_differs agent
             ("thread-" ++ InteractiveChat.cfg_sessionId config)).
  - exact Hvs.
  - exact Hvb.
  - intros m ag Hr Hm Hn Hg. split.
    + exact (streaming_dispatches_once JSON_parse w streamed d m ag st
               Hr Hvs Hn Hm Hg).
    + exact (buffered_dispatches_once JSON_parse w buffered d m ag st
               Hr Hvb Hm Hg).
Qed.

(** The request of the remote agent proxy passes the validation of the
    streaming handler whenever [JSON.parse] reads back what
    [JSON.stringify] wrote, and it is dispatched in the thread
    [<agent>::<sessionId>]: the session id of the tool call is the thread id
    of the envelope, with no prefix of the proxy's. *)
Theorem proxy_request_thread (input : McpServer.RemoteAgentProxyInput)
        (event : Streaming.FunctionUrlEvent) (st : State) :
  let requestBody :=
    JObject [("query", JString (McpServer.query input));
             ("agent", JString (McpServer.agent input));
             ("threadId", JString (McpServer.sessionId input));
             ("resourceId",
              JString ("remoteProxy-tool-" ++ McpServer.sessionId input))] in
  JSON_parse (JSON_stringify requestBody) = Some requestBody ->
  JS.array_includes Constants.AWS_AGENT_NAMES_WITH_NETWORK (McpServer.agent input)
  = true ->
  Streaming.body event = Some (JString (JSON_stringify requestBody)) ->
  Shared.EventBodySchema JSON_parse ["body"] (Streaming.body event)
  = Valid {| Shared.query := McpServer.query input;
             Shared.threadId := McpServer.sessionId input;
             Shared.resourceId := "remoteProxy-tool-" ++ McpServer.sessionId input;
             Shared.agent := McpServer.agent input |}
  /\ exists added,
      trace (snd (Streaming.handler JSON_parse w event st))
      = (trace st ++ added)%list
      /\ Forall (eq (McpServer.agent input ++ "::" ++ McpServer.sessionId input))
                (Observe.dispatched_threadIds added).
Proof.
  intros requestBody Hparse Hin Hb.
  assert (Hv : Shared.EventBodySchema JSON_parse ["body"] (Streaming.body event)
               = Valid {| Shared.query := McpServer.query input;
                          Shared.threadId := McpServer.sessionId input;
                          Shared.resourceId :=
                            "remoteProxy-tool-" ++ McpServer.sessionId input;
                          Shared.agent := McpServer.agent input |}).
  { rewrite Hb. rewrite (EventBodySchema_text JSON_parse _ _ _ Hparse).
    apply named_envelope_valid; try reflexivity. exact Hin. }
  split; [exact Hv|].
  exact (streaming_dispatch_is_namespaced JSON_parse w event _ st Hv).
Qed.

End ClientsToHandlers.

Lemma chat_modes_use_different_threads_witness :
  Observe.dispatched_threadIds
    (Lib.trace (snd (Streaming.handler Json.JSON_parse Demo.world
                       {| Streaming.body :=
                            Some (Json.JString
                                    (InteractiveChat.requestBody "hi" "s3Agent"
                                       Demo.config)) |}
                       (Cases.warm Demo.world))))
  = ["t"; "s3Agent::thread-chat-1747616836147"]
  /\ Observe.dispatched_threadIds
       (Lib.trace (snd (Buffered.handler Json.JSON_parse Demo.world
                          {| Buffered.body :=
                               Some (Json.JString
                                       (InteractiveChat.requestBody "hi" "s3Agent"
                                          Demo.config)) |}
                          (Cases.warm Demo.world))))
     = ["t"; "thread-chat-1747616836147"]
  /\ "s3Agent" ++ "::thread-" ++ InteractiveChat.cfg_sessionId Demo.config
     <> "thread-" ++ InteractiveChat.cfg_sessionId Demo.config.
Proof.
  destruct (chat_modes_use_different_threads Json.JSON_parse Demo.world
              "hi" "s3Agent" Demo.config
              {| Streaming.body :=
                   Some (Json.JString
                           (InteractiveChat.requestBody "hi" "s3Agent"
                              Demo.config)) |}
              {| Buffered.body :=
                   Some (Json.JString
                           (InteractiveChat.requestBody "hi" "s3Agent"
                              Demo.config)) |}
              (Cases.warm Demo.world))
    as (_ & _ & Hdiffer & _ & _ & Hdispatch).
  - vm_compute. reflexivity.
  - reflexivity.
  - reflexivity.
  - reflexivity.
  - destruct (Hdispatch Demo.mastra Demo.agent) as [Hstreamed Hbuffered].
    + apply Process.reach_buffered, Process.reach_initial.
    + reflexivity.
    + reflexivity.
    + reflexivity.
    + split; [exact Hstreamed|]. split; [exact Hbuffered | exact Hdiffer].
Defined.

Lemma proxy_request_thread_witness :
  exists added,
    Lib.trace
      (snd (Streaming.handler Json.JSON_parse Demo.world
              {| Streaming.body :=
                   Some (Json.JString
                           (Json.JSON_stringify
                              (Json.JObject
                                 [("query", Json.JString "list my buckets");
                                  ("agent", Json.JString "s3Agent");
                                  ("threadId", Json.JString "V1StGXR8_Z5jdHi6B-myT");
                                  ("resourceId",
                                   Json.JString
                                     "remoteProxy-tool-V1StGXR8_Z5jdHi6B-myT")]))) |}
              Lib.initial))
    = (Lib.trace Lib.initial ++ added)%list
    /\ Forall (eq "s3Agent::V1StGXR8_Z5jdHi6B-myT")
              (Observe.dispatched_threadIds added).
Proof.
  apply (proxy_request_thread Json.JSON_parse Demo.world (Demo.proxy_input None)
           {| Streaming.body :=
                Some (Json.JString
                        (Json.JSON_stringify
                           (Json.JObject
                              [("query", Json.JString "list my buckets");
                               ("agent", Json.JString "s3Agent");
                               ("threadId", Json.JString "V1StGXR8_Z5jdHi6B-myT");
                               ("resourceId",
                                Json.JString
                                  "remoteProxy-tool-V1StGXR8_Z5jdHi6B-myT")]))) |}
           Lib.initial).
  - vm_compute. reflexivity.
  - reflexivity.
  - reflexivity.
Defined.

(* ===================================================================== *)
(** ** Further properties of the remote agent proxy                       *)
(* ===================================================================== *)

Section McpMore.
Import Eff Json InvokeApiUtils McpServer Outcomes.

Variable env : Env.
Variable Decoder : Type.
Variable new_TextDecoder : Decoder.
Variable decode : Decoder -> list byte -> Decoder * string.

Lemma accumulate_run (values : list (option (list byte))) (d : Decoder)
      (acc : string) (t : Trace) :
  accumulate Decoder decode (List.map ReadValue values) d acc t
  = (Ok (acc ++ String.concat "" (decode_all Decoder decode d values)), t).
Proof.
  revert d acc. induction values as [|[value|] rest IH]; intros d acc;
    cbn [List.map accumulate decode_all].
  - cbn [String.concat]. unfold ret.
    replace (acc ++ "") with acc; [reflexivity|].
    induction acc as [|c acc IHa]; [reflexivity | cbn; rewrite <- IHa; reflexivity].
  - destruct (decode d value) as [d' chunk]. rewrite IH.
    assert (Hc : forall l, String.concat "" (chunk :: l) = chunk ++ String.concat "" l).
    { intros [|x l]; cbn [String.concat]; [|reflexivity].
      induction chunk as [|c chunk IHc]; [reflexivity | cbn; rewrite <- IHc; reflexivity]. }
    rewrite Hc.
    assert (Ha : forall a b c : string, (a ++ b) ++ c = a ++ b ++ c).
    { intros a b c. induction a as [|x a IHa]; [reflexivity | cbn; rewrite IHa; reflexivity]. }
    rewrite Ha. reflexivity.
  - apply IH.
Qed.

Lemma ends_accumulate (reads : list ReadStep) (d : Decoder) (acc : string) :
  ends_within true true [] (accumulate Decoder decode reads d acc).
Proof.
  revert d acc. induction reads as [|[[value|]|e] rest IH]; intros d acc;
    cbn [accumulate].
  - apply ends_ret.
  - destruct (decode d value) as [d' chunk]. apply IH.
  - apply IH.
  - apply ends_throw.
Qed.

Lemma ends_proxy_invoke (functionUrl region body : string)
      (credentials : option Credentials) :
  ends_within true true []
    (McpServer.invokeStreamingRequest env Decoder new_TextDecoder decode
       functionUrl region body credentials).
Proof.
  unfold McpServer.invokeStreamingRequest, signRequest.
  eapply ends_bind.
  - eapply ends_bind; [apply ends_settle | intros url].
    destruct credentials as [c|]; [apply ends_settle | apply ends_throw].
  - intros signed.
    eapply ends_bind; [apply (ends_modify _ true) | intros _].
    eapply ends_bind; [apply ends_settle | intros response].
    destruct (if ok response then InvokeApiUtils.body response else None)
      as [reads|].
    + apply ends_accumulate.
    + eapply ends_bind; [apply ends_settle | intros errorText]. apply ends_throw.
Qed.

Lemma ends_getCfnOutput (stackName outputKey region : string)
      (credentials : option Credentials) :
  ends_within true true []
    (getCfnOutput env stackName outputKey region credentials).
Proof.
  unfold getCfnOutput.
  eapply ends_bind; [apply (ends_modify _ true) | intros _].
  eapply ends_try_catch with (throws := true); [|intros e; apply ends_throw].
  destruct credentials as [c|]; [|apply ends_throw].
  eapply ends_bind; [apply (ends_modify _ true) | intros _].
  eapply ends_bind; [apply ends_settle | intros response]. apply ends_ret.
Qed.

Lemma ends_runRemoteAgentProxy (input : RemoteAgentProxyInput)
      (credentials : option Credentials) :
  credentialProvider env (profile input) = inr credentials ->
  ends_within true false []
    (runRemoteAgentProxy env Decoder new_TextDecoder decode input).
Proof.
  intros Hc s. unfold runRemoteAgentProxy.
  rewrite (bind_ok _ _ s s credentials) by (unfold settle; rewrite Hc; reflexivity).
  match goal with
  | |- context [try_catch ?b ?h s] => apply (ends_try_catch b h true true false [])
  end.
  - destruct (JS.blank (query input)); [apply ends_ret|].
    eapply ends_bind.
    + destruct (negb (JS.truthy_opt (lambdaFunctionUrlOverride input)));
        [|apply ends_ret].
      eapply ends_try_catch with (throws := true);
        [apply ends_getCfnOutput | intros e; apply ends_throw].
    + intros [functionUrl|]; [|apply ends_throw].
      destruct (JS.truthy functionUrl); [|apply ends_throw].
      eapply ends_bind; [apply ends_proxy_invoke | intros responseText].
      apply ends_ret.
  - intros e. apply ends_ret.
Qed.

(** The proxy throws in one case only: when the loading of the credentials
    rejects, which happens before its [try]. In every other case it returns
    a result, with the session id it was called with; every failure of the
    lookup, of the signature, of the request or of the reading of the
    response is in the output of that result. A query that is blank is
    answered at once, and nothing is looked up or sent for it. *)
Theorem proxy_throws_only_without_credentials (input : RemoteAgentProxyInput)
        (t : Trace) :
  (forall e,
      credentialProvider env (profile input) = inl e ->
      runRemoteAgentProxy env Decoder new_TextDecoder decode input t = (Throw e, t))
  /\ (forall credentials,
        credentialProvider env (profile input) = inr credentials ->
        (exists result t',
            runRemoteAgentProxy env Decoder new_TextDecoder decode input t
            = (Ok result, t')
            /\ result_sessionId result = sessionId input)
        /\ (JS.blank (query input) = true ->
            runRemoteAgentProxy env Decoder new_TextDecoder decode input t
            = (Ok {| output := "Please provide a query to send to the remote agent.";
                     result_sessionId := sessionId input |}, t))).
Proof.
  split.
  - intros e He. unfold runRemoteAgentProxy, bind, settle. rewrite He. reflexivity.
  - intros credentials Hc. split.
    + pose proof (ends_runRemoteAgentProxy input credentials Hc t) as H.
      destruct (runRemoteAgentProxy env Decoder new_TextDecoder decode input t)
        as [[result | e | code] t'] eqn:E; cbn [fst] in H.
      * exists result, t'. split; [reflexivity|].
        exact (mcp_result_carries_sessionId env Decoder new_TextDecoder decode
                 input result t t' E).
      * discriminate H.
      * contradiction H.
    + intros Hb. unfold runRemoteAgentProxy, bind, settle, try_catch, ret.
      rewrite Hc, Hb. reflexivity.
Qed.

(** What the proxy hands back of a response. With the URL given, the
    request signed and sent: a response within 200..299 that has a body
    gives as output the decoded chunks of the body, joined in the order of
    the reads; any other response gives the error that names the status and
    carries the text of the response. *)
Theorem proxy_output_of_response (input : RemoteAgentProxyInput) (u : string)
        (c : Credentials) (url : URL) (signed : HttpRequest) (response : Response)
        (t : Trace) :
  JS.blank (query input) = false ->
  lambdaFunctionUrlOverride input = Some u -> JS.truthy u = true ->
  credentialProvider env (profile input) = inr (Some c) ->
  newURL env u = inr url ->
  sign env c (region input) "lambda"
       (prepare url "POST"
          (JSON_stringify
             (JObject [("query", JString (query input));
                       ("agent", JString (agent input));
                       ("threadId", JString (sessionId input));
                       ("resourceId",
                        JString ("remoteProxy-tool-" ++ sessionId input))])))
  = inr signed ->
  fetch env u signed = inr response ->
  (forall values,
      ok response = true ->
      InvokeApiUtils.body response = Some (List.map ReadValue values) ->
      runRemoteAgentProxy env Decoder new_TextDecoder decode input t
      = (Ok {| output :=
                 String.concat "" (decode_all Decoder decode new_TextDecoder values);
               result_sessionId := sessionId input |},
         (t ++ [CallFetch u signed])%list))
  /\ (forall errorText,
        ok response = false \/ InvokeApiUtils.body response = None ->
        text response = inr errorText ->
        runRemoteAgentProxy env Decoder new_TextDecoder decode input t
        = (Ok {| output :=
                   "Error invoking remote agent: "
                     ++ "Streaming request failed with status "
                     ++ JS.string_of_Z (status response) ++ ": " ++ errorText;
                 result_sessionId := sessionId input |},
           (t ++ [CallFetch u signed])%list)).
Proof.
  intros Hb Hu Ht Hc Hurl Hsign Hfetch.
  split.
  - intros values Hok Hbody.
    unfold runRemoteAgentProxy, McpServer.invokeStreamingRequest, signRequest,
      try_catch, bind, settle, emit, modify, ret, throw.
    rewrite Hc, Hb, Hu. cbn [JS.truthy_opt]. rewrite Ht. cbn [negb fst snd].
    rewrite Ht, Hurl. cbn [fst snd]. rewrite Hsign. cbn [fst snd].
    rewrite Hfetch, Hok, Hbody. rewrite accumulate_run. reflexivity.
  - intros errorText Hbad Htext.
    unfold runRemoteAgentProxy, McpServer.invokeStreamingRequest, signRequest,
      try_catch, bind, settle, emit, modify, ret, throw.
    rewrite Hc, Hb, Hu. cbn [JS.truthy_opt]. rewrite Ht. cbn [negb fst snd].
    rewrite Ht, Hurl. cbn [fst snd]. rewrite Hsign. cbn [fst snd].
    rewrite Hfetch.
    assert (Hnone : (if ok response then InvokeApiUtils.body response else None)
                    = None).
    { destruct Hbad as [-> | ->]; [reflexivity | destruct (ok response); reflexivity]. }
    rewrite Hnone, Htext. reflexivity.
Qed.

End McpMore.

Lemma proxy_throws_only_without_credentials_witness :
  (exists result t',
      McpServer.runRemoteAgentProxy (Demo.env Demo.bad_gateway)
        TextDecoder.t TextDecoder.new TextDecoder.decode
        (Demo.proxy_input (Some "https://fn.example/")) []
      = (Eff.Ok result, t')
      /\ McpServer.result_sessionId result = "V1StGXR8_Z5jdHi6B-myT")
  /\ McpServer.runRemoteAgentProxy (Demo.env Demo.bad_gateway)
       TextDecoder.t TextDecoder.new TextDecoder.decode Cases.blank_input []
     = (Eff.Ok {| McpServer.output :=
                    "Please provide a query to send to the remote agent.";
                  McpServer.result_sessionId := "V1StGXR8_Z5jdHi6B-myT" |}, []).
Proof.
  split.
  - apply (proj2 (proxy_throws_only_without_credentials
                    (Demo.env Demo.bad_gateway)
                    TextDecoder.t TextDecoder.new TextDecoder.decode
                    (Demo.proxy_input (Some "https://fn.example/")) [])
             (Some Demo.credentials) eq_refl).
  - apply (proj2 (proj2 (proxy_throws_only_without_credentials
                           (Demo.env Demo.bad_gateway)
                           TextDecoder.t TextDecoder.new TextDecoder.decode
                           Cases.blank_input [])
                    (Some Demo.credentials) eq_refl)).
    reflexivity.
Defined.

Lemma proxy_output_of_response_witness :
  McpServer.runRemoteAgentProxy (Demo.env Demo.hello)
    TextDecoder.t TextDecoder.new TextDecoder.decode
    (Demo.proxy_input (Some "https://fn.example/")) []
  = (Eff.Ok {| McpServer.output := "Hello World";
               McpServer.result_sessionId := "V1StGXR8_Z5jdHi6B-myT" |},
     [InvokeApiUtils.CallFetch "https://fn.example/"
        (InvokeApiUtils.prepare Demo.url "POST"
           (Json.JSON_stringify
              (Json.JObject
                 [("query", Json.JString "list my buckets");
                  ("agent", Json.JString "s3Agent");
                  ("threadId", Json.JString "V1StGXR8_Z5jdHi6B-myT");
                  ("resourceId",
                   Json.JString "remoteProxy-tool-V1StGXR8_Z5jdHi6B-myT")])))]).
Proof.
  apply (proj1 (proxy_output_of_response (Demo.env Demo.hello)
                  TextDecoder.t TextDecoder.new TextDecoder.decode
                  (Demo.proxy_input (Some "https://fn.example/"))
                  "https://fn.example/" Demo.credentials Demo.url
                  (InvokeApiUtils.prepare Demo.url "POST"
                     (Json.JSON_stringify
                        (Json.JObject
                           [("query", Json.JString "list my buckets");
                            ("agent", Json.JString "s3Agent");
                            ("threadId", Json.JString "V1StGXR8_Z5jdHi6B-myT");
                            ("resourceId",
                             Json.JString
                               "remoteProxy-tool-V1StGXR8_Z5jdHi6B-myT")])))
                  Demo.hello []
                  eq_refl eq_refl eq_refl eq_refl eq_refl eq_refl eq_refl)
           [Some (list_byte_of_string "Hel"); Some (list_byte_of_string "lo ");
            Some (list_byte_of_string "World")]
           eq_refl eq_refl).
Defined.

(* ===================================================================== *)
(** ** [getAgent] of the library                                          *)
(* ===================================================================== *)

Section IndexFacts.
Import Eff Json Lib Process.

Variable JSON_parse : string -> option json.
Variable w : World.

(** [getAgent] shares the one Mastra instance of the process: in whatever
    state the process is, the call leaves [initializeMastra] run exactly
    once, and it gives what the instance of that first run gives for the
    name; it rejects with the error of the initialisation when that had
    failed. *)
Theorem getAgent_shares_the_instance (agentName : string) (st : State) :
  Reachable JSON_parse w st ->
  initialized_once (snd (Index.getAgent w agentName st))
  /\ initializeMastra_calls (snd (Index.getAgent w agentName st)) = 1
  /\ (forall m, initializeMastra w 0 = inr m ->
      fst (Index.getAgent w agentName st)
      = match getAgent m agentName with
        | inl e => Throw e
        | inr selectedAgent => Ok selectedAgent
        end)
  /\ (forall e, initializeMastra w 0 = inl e ->
      fst (Index.getAgent w agentName st) = Throw e).
Proof.
  intros Hr. apply reachable_initialized_once in Hr.
  unfold initialized_once in *.
  unfold Index.getAgent, bind, getMastraInstance, await, settle, emit, modify,
    throw, ret.
  destruct (mastraInstancePromise st) as [p|] eqn:Hp; cbn [fst snd].
  - destruct Hr as [-> Hc].
    destruct (initializeMastra w 0) as [e | m]; cbn [fst snd].
    + rewrite ?Hp. repeat split; auto; intros; congruence.
    + destruct (getAgent m agentName) as [e | selectedAgent] eqn:Hg;
        cbn [fst snd mastraInstancePromise initializeMastra_calls];
        rewrite ?Hp; repeat split; auto; intros m' Hm'; try discriminate;
        injection Hm' as <-; rewrite Hg; reflexivity.
  - rewrite Hr.
    destruct (initializeMastra w 0) as [e | m]; cbn [fst snd].
    + cbn [mastraInstancePromise initializeMastra_calls].
      repeat split; auto; intros; congruence.
    + destruct (getAgent m agentName) as [e | selectedAgent] eqn:Hg;
        cbn [fst snd mastraInstancePromise initializeMastra_calls];
        repeat split; auto; intros m' Hm'; try discriminate;
        injection Hm' as <-; rewrite Hg; reflexivity.
Qed.

End IndexFacts.

Lemma getAgent_shares_the_instance_witness :
  Process.initialized_once
    (snd (Index.getAgent Demo.world "s3Agent"
            (snd (Buffered.handler Json.JSON_parse Demo.world
                    (Demo.event (Cases.envelope None)) Lib.initial))))
  /\ Lib.initializeMastra_calls
       (snd (Index.getAgent Demo.world "s3Agent"
               (snd (Buffered.handler Json.JSON_parse Demo.world
                       (Demo.event (Cases.envelope None)) Lib.initial)))) = 1
  /\ (forall m, Lib.initializeMastra Demo.world 0 = inr m ->
      fst (Index.getAgent Demo.world "s3Agent"
             (snd (Buffered.handler Json.JSON_parse Demo.world
                     (Demo.event (Cases.envelope None)) Lib.initial)))
      = match Lib.getAgent m "s3Agent" with
        | inl e => Eff.Throw e
        | inr selectedAgent => Eff.Ok selectedAgent
        end)
  /\ (forall e, Lib.initializeMastra Demo.world 0 = inl e ->
      fst (Index.getAgent Demo.world "s3Agent"
             (snd (Buffered.handler Json.JSON_parse Demo.world
                     (Demo.event (Cases.envelope None)) Lib.initial)))
      = Eff.Throw e).
Proof.
  apply (getAgent_shares_the_instance Json.JSON_parse Demo.world "s3Agent"
           (snd (Buffered.handler Json.JSON_parse Demo.world
                   (Demo.event (Cases.envelope None)) Lib.initial))).
  apply Process.reach_buffered, Process.reach_initial.
Defined.

(* ===================================================================== *)
(** ** The client of the agent network                                    *)
(* ===================================================================== *)

Section NetworkClientFacts.
Import Eff AwsNetworkClient.

Variable env : Env.

(** With a thread id given, [generateWithAwsNetwork] runs the network in
    that thread and returns that id. Without one it reads the clock twice,
    once for the thread it runs the network in and once more, after the
    network has answered, for the thread id it returns: the id returned is
    the id of the thread used only if the clock has not moved in between. *)
Theorem generated_thread_id_is_read_anew (prompt : string)
        (threadId : option string) (network : Network) (st : State) :
  createAwsAgentNetwork env = inr network ->
  (forall options, exists result, generate network prompt options = inr result) ->
  exists used generated st',
    generateWithAwsNetwork env prompt threadId st = (Ok generated, st')
    /\ trace st'
       = (trace st
            ++ [CallGenerate prompt
                  {| resourceId := "aws-client"; threadId := used |}])%list
    /\ (forall given, threadId = Some given -> JS.truthy given = true ->
        used = given /\ generated_threadId generated = given
        /\ clock_reads st' = clock_reads st)
    /\ (JS.truthy_opt threadId = false ->
        used = "aws-thread-" ++ JS.string_of_Z (Date_now env (clock_reads st))
        /\ generated_threadId generated
           = "aws-thread-" ++ JS.string_of_Z (Date_now env (S (clock_reads st)))
        /\ (generated_threadId generated = used
            <-> Date_now env (S (clock_reads st)) = Date_now env (clock_reads st))).
Proof.
  intros Hn Hg.
  unfold generateWithAwsNetwork, orFreshThread, now, bind, settle, emit, modify, ret.
  rewrite Hn. cbn [fst snd].
  destruct (JS.truthy_opt threadId) eqn:Ht; cbn [fst snd trace clock_reads].
  - destruct (Hg {| resourceId := "aws-client"; threadId := JS.show_opt threadId |})
      as [result ->].
    do 3 eexists. split; [reflexivity|]. cbn [trace clock_reads generated_threadId].
    split; [reflexivity|]. split.
    + intros given -> _. cbn [JS.show_opt]. auto.
    + discriminate.
  - destruct (Hg {| resourceId := "aws-client";
                    threadId := "aws-thread-"
                                  ++ JS.string_of_Z (Date_now env (clock_reads st)) |})
      as [result ->].
    do 3 eexists. split; [reflexivity|]. cbn [trace clock_reads generated_threadId].
    split; [reflexivity|]. split.
    + intros given -> Hgiven. cbn [JS.truthy_opt] in Ht. congruence.
    + intros _. split; [reflexivity|]. split; [reflexivity|]. split.
      * intros H. injection H as H.
        repeat match type of H with
               | String _ _ = String _ _ => injection H as H
               end.
        apply string_of_Z_inj. exact H.
      * intros ->. reflexivity.
Qed.

End NetworkClientFacts.

Lemma generated_thread_id_is_read_anew_witness :
  exists used generated st',
    AwsNetworkClient.generateWithAwsNetwork Cases.network_env "ping" None
      Cases.network_start = (Eff.Ok generated, st')
    /\ AwsNetworkClient.trace st'
       = (AwsNetworkClient.trace Cases.network_start
            ++ [AwsNetworkClient.CallGenerate "ping"
                  {| AwsNetworkClient.resourceId := "aws-client";
                     AwsNetworkClient.threadId := used |}])%list
    /\ (forall given, None = Some given -> JS.truthy given = true ->
        used = given /\ AwsNetworkClient.generated_threadId generated = given
        /\ AwsNetworkClient.clock_reads st'
           = AwsNetworkClient.clock_reads Cases.network_start)
    /\ (JS.truthy_opt None = false ->
        used = "aws-thread-"
                 ++ JS.string_of_Z
                      (AwsNetworkClient.Date_now Cases.network_env
                         (AwsNetworkClient.clock_reads Cases.network_start))
        /\ AwsNetworkClient.generated_threadId generated
           = "aws-thread-"
               ++ JS.string_of_Z
                    (AwsNetworkClient.Date_now Cases.network_env
                       (S (AwsNetworkClient.clock_reads Cases.network_start)))
        /\ (AwsNetworkClient.generated_threadId generated = used
            <-> AwsNetworkClient.Date_now Cases.network_env
                  (S (AwsNetworkClient.clock_reads Cases.network_start))
                = AwsNetworkClient.Date_now Cases.network_env
                    (AwsNetworkClient.clock_reads Cases.network_start))).
Proof.
  apply (generated_thread_id_is_read_anew Cases.network_env "ping" None
           Cases.network Cases.network_start).
  - reflexivity.
  - intros options. exists "pong". reflexivity.
Defined.

(* ===================================================================== *)
(** ** The memory of the agents                                           *)
(* ===================================================================== *)

Section MemoryFacts.
Import Eff Memory.

(** Every agent of [AWS_AGENT_NAMES] reads the name of the table that the
    stack created for it: the variable that [createMemory] looks up for an
    agent is the one that the stack set from that agent's table, for all
    seven of them, with or without the Pinecone secret. The default name is
    used only when CloudFormation gave an empty one. *)
Theorem stack_gives_each_agent_its_table (table_name : string -> string)
        (secretName : option string) (send : string -> Result (option string))
        (agentIdentifier : string) (config : MemoryConfig) (t t' : Trace) :
  In agentIdentifier Constants.AWS_AGENT_NAMES ->
  JS.truthy (table_name agentIdentifier) = true ->
  createMemory {| process_env := environment table_name secretName; send := send |}
    agentIdentifier t = (Ok config, t') ->
  tableName config = table_name agentIdentifier.
Proof.
  intros Hin Ht Hrun.
  apply bind_ok_inv in Hrun. destruct Hrun as (vector & t1 & _ & Hrun).
  injection Hrun as <- _. cbn [tableName process_env].
  cbn in Hin.
  repeat (destruct Hin as [<- | Hin]); try contradiction;
    destruct secretName; vm_compute in Ht |- *;
    (destruct (table_name _); [discriminate Ht | reflexivity]).
Qed.

Variable env : Env.

(** [createMemory] asks for the secret only when the name of the secret is
    set: without it the memory has no vector store and nothing is sent, and
    the call cannot fail. With it, one [GetSecretValue] is sent for that
    name, and the memory is made only with a secret that is not empty. *)
Theorem createMemory_asks_for_the_named_secret (agentIdentifier : string)
        (t : Trace) :
  (JS.truthy_opt (Chat.lookup (process_env env) "PINECONE_API_KEY_SECRET_NAME")
   = false ->
   exists config,
     createMemory env agentIdentifier t = (Ok config, t)
     /\ vector config = None)
  /\ (forall secretName,
        Chat.lookup (process_env env) "PINECONE_API_KEY_SECRET_NAME"
        = Some secretName ->
        JS.truthy secretName = true ->
        snd (createMemory env agentIdentifier t)
        = (t ++ [GetSecretValue secretName])%list
        /\ (forall config,
               fst (createMemory env agentIdentifier t) = Ok config ->
               exists key,
                 vector config = Some key /\ key <> ""
                 /\ send env secretName = inr (Some key))
        /\ (forall code, fst (createMemory env agentIdentifier t) <> Exit code)).
Proof.
  split.
  - intros Hf. unfold createMemory, bind, ret. rewrite Hf.
    eexists. split; reflexivity.
  - intros secretName Hs Ht.
    unfold createMemory, getPineconeKey, bind, settle, emit, modify, throw, ret.
    rewrite Hs. cbn [JS.truthy_opt]. rewrite Ht. cbn [fst snd].
    destruct (send env secretName) as [e | [key|]]; cbn [fst snd JS.truthy_opt].
    + repeat split; try discriminate.
    + destruct (JS.truthy key) eqn:Hk; cbn [fst snd];
        repeat split; try discriminate.
      intros config [= <-]. exists key. cbn [vector JS.show_opt].
      repeat split. intros ->. discriminate Hk.
    + repeat split; try discriminate.
Qed.

End MemoryFacts.

Lemma stack_gives_each_agent_its_table_witness :
  Memory.tableName
    {| Memory.vector := Some "pc-key";
       Memory.storage_name := "dynamodb-memory-s3agent";
       Memory.tableName := "Stack-MastraMemorys3Agent1A2B3C" |}
  = Cases.table_name "s3Agent".
Proof.
  apply (stack_gives_each_agent_its_table Cases.table_name (Some "pinecone/key")
           (Memory.send (Cases.memory_env (Some "pinecone/key"))) "s3Agent"
           {| Memory.vector := Some "pc-key";
              Memory.storage_name := "dynamodb-memory-s3agent";
              Memory.tableName := "Stack-MastraMemorys3Agent1A2B3C" |}
           [] [Memory.GetSecretValue "pinecone/key"]).
  - cbn. auto 10.
  - reflexivity.
  - vm_compute. reflexivity.
Defined.

Lemma createMemory_asks_for_the_named_secret_witness :
  snd (Memory.createMemory (Cases.memory_env (Some "pinecone/key")) "s3Agent" [])
  = ([] ++ [Memory.GetSecretValue "pinecone/key"])%list
  /\ (forall config,
         fst (Memory.createMemory (Cases.memory_env (Some "pinecone/key"))
                "s3Agent" []) = Eff.Ok config ->
         exists key,
           Memory.vector config = Some key /\ key <> ""
           /\ Memory.send (Cases.memory_env (Some "pinecone/key")) "pinecone/key"
              = inr (Some key))
  /\ (forall code,
         fst (Memory.createMemory (Cases.memory_env (Some "pinecone/key"))
                "s3Agent" []) <> Eff.Exit code).
Proof.
  apply (proj2 (createMemory_asks_for_the_named_secret
                  (Cases.memory_env (Some "pinecone/key")) "s3Agent" [])
           "pinecone/key" eq_refl eq_refl).
Defined.

Lemma C5_fragments_delivered_in_order_witness :
  InvokeApiUtils.invokeStreamingRequest (Demo.env Demo.hello)
    TextDecoder.t TextDecoder.new TextDecoder.decode Demo.streaming_params []
  = (Eff.Ok tt,
     [InvokeApiUtils.CallFetch "https://fn.example/" Demo.request;
      InvokeApiUtils.CallOnChunk "Hel"; InvokeApiUtils.StdoutWrite "Hel";
      InvokeApiUtils.CallOnChunk "lo "; InvokeApiUtils.StdoutWrite "lo ";
      InvokeApiUtils.CallOnChunk "World"; InvokeApiUtils.StdoutWrite "World"])
  /\ InvokeApiUtils.decode_all TextDecoder.t TextDecoder.decode TextDecoder.new
       [Some (list_byte_of_string "Hel"); Some (list_byte_of_string "lo ");
        Some (list_byte_of_string "World")]
     = ["Hel"; "lo "; "World"]
  /\ String.concat ""
       (InvokeApiUtils.decode_all TextDecoder.t TextDecoder.decode TextDecoder.new
          [Some (list_byte_of_string "Hel"); Some (list_byte_of_string "lo ");
           Some (list_byte_of_string "World")])
     = "Hello World".
Proof.
  destruct (C5_fragments_delivered_in_order (Demo.env Demo.hello)
              Demo.streaming_params Demo.credentials Demo.url Demo.request
              Demo.hello
              [Some (list_byte_of_string "Hel"); Some (list_byte_of_string "lo ");
               Some (list_byte_of_string "World")]
              [] eq_refl eq_refl eq_refl eq_refl eq_refl eq_refl
              (fun chunk t0 => eq_refl))
    as (Hrun & _ & Htext & Hfragments).
  split; [|split].
  - rewrite Hrun. reflexivity.
  - apply (Hfragments ["Hel"; "lo "; "World"]).
    + reflexivity.
    + repeat constructor.
    + reflexivity.
  - apply (proj2 (Htext "Hello World" eq_refl eq_refl)). reflexivity.
Defined.

Lemma read_loop_delivers_witness :
  InvokeApiUtils.read_loop TextDecoder.t TextDecoder.decode
    (List.map InvokeApiUtils.ReadValue Cases.cut_reads)
    TextDecoder.new Demo.print []
  = (Eff.Ok tt,
     [InvokeApiUtils.CallOnChunk "H"; InvokeApiUtils.StdoutWrite "H";
      InvokeApiUtils.CallOnChunk (string_of_list_byte [xc3; xa9; x21]);
      InvokeApiUtils.StdoutWrite (string_of_list_byte [xc3; xa9; x21])])
  /\ Observe.delivered
       (Observe.calls Demo.print
          (InvokeApiUtils.decode_all TextDecoder.t TextDecoder.decode
             TextDecoder.new Cases.cut_reads) [])
     = ["H"; string_of_list_byte [xc3; xa9; x21]]
  /\ List.length
       (InvokeApiUtils.decode_all TextDecoder.t TextDecoder.decode
          TextDecoder.new Cases.cut_reads) = 2.
Proof.
  apply (read_loop_delivers TextDecoder.t TextDecoder.decode Cases.cut_reads
           TextDecoder.new Demo.print []
           (fun chunk t =>
              ex_intro _ [InvokeApiUtils.StdoutWrite chunk] (conj eq_refl eq_refl))).
Defined.

Lemma read_error_after_fragments_witness :
  InvokeApiUtils.read_loop TextDecoder.t TextDecoder.decode
    (List.map InvokeApiUtils.ReadValue Cases.cut_reads
       ++ InvokeApiUtils.ReadThrow "terminated"
       :: [InvokeApiUtils.ReadValue (Some (list_byte_of_string "World"))])%list
    TextDecoder.new Demo.print []
  = (Eff.Throw "terminated",
     [InvokeApiUtils.CallOnChunk "H"; InvokeApiUtils.StdoutWrite "H";
      InvokeApiUtils.CallOnChunk (string_of_list_byte [xc3; xa9; x21]);
      InvokeApiUtils.StdoutWrite (string_of_list_byte [xc3; xa9; x21])])
  /\ Observe.delivered
       (Observe.calls Demo.print
          (InvokeApiUtils.decode_all TextDecoder.t TextDecoder.decode
             TextDecoder.new Cases.cut_reads) [])
     = ["H"; string_of_list_byte [xc3; xa9; x21]].
Proof.
  apply (read_error_after_fragments TextDecoder.t TextDecoder.decode
           Cases.cut_reads "terminated"
           [InvokeApiUtils.ReadValue (Some (list_byte_of_string "World"))]
           TextDecoder.new Demo.print []
           (fun chunk t =>
              ex_intro _ [InvokeApiUtils.StdoutWrite chunk] (conj eq_refl eq_refl))).
Defined.
